(** * CropConnect "AI Mitra" backend: a shallow embedding of its services

    The development follows the Python sources under [app/services]:
    - [rag_service.py]        : [VectorDatabase] (add, search, save, load)
    - [chatbot_service.py]    : the bounded per-user chat history
    - [claude_service.py]     : handling of the upstream reply
    - [language_service.py]   : explicit language prefix detection
    - [navigation_service.py] : the navigation scoring heuristic

    Part I holds the definitions, Part II the theorems. *)

From Stdlib Require Import Floats.PrimFloat.
From Stdlib Require Import ZArith NArith List String Ascii Lia Reals Lra Psatz.
From Stdlib Require Import DecimalString Sorting.Sorted.
From stdpp Require Import gmap list.

Set Default Proof Using "Type".

(* ================================================================== *)
(** * Part I: definitions                                              *)
(* ================================================================== *)

(** ** Python strings

    A Python 3 [str] is a sequence of Unicode code points.  Literals are
    written as Rocq strings and converted with [py]; every literal of the
    sources that is used below is ASCII. *)

Module PyStr.

Definition str := list N.

Definition py (s : string) : str := map N_of_ascii (list_ascii_of_string s).

Definition eqb (a b : str) : bool := bool_decide (a = b).

(** [a.startswith(p)] *)
Fixpoint starts_with (p s : str) : bool :=
  match p, s with
  | [], _ => true
  | _ :: _, [] => false
  | x :: p', y :: s' => N.eqb x y && starts_with p' s'
  end.

(** [sub in s] on strings: [sub] occurs as a contiguous substring. *)
Fixpoint contains (sub s : str) : bool :=
  starts_with sub s ||
  match s with
  | [] => false
  | _ :: s' => contains sub s'
  end.

(** [x in l] for a list of strings. *)
Definition in_list (x : str) (l : list str) : bool := existsb (eqb x) l.

(** [any(term in s for term in terms)] *)
Definition any_contains (terms : list str) (s : str) : bool :=
  existsb (fun term => contains term s) terms.

(** [str.isspace] on one code point, which is also the class [\s] of a
    [str] pattern. *)
Definition isspace (c : N) : bool :=
  ((9 <=? c) && (c <=? 13) || (28 <=? c) && (c <=? 32)
   || (c =? 133) || (c =? 160) || (c =? 5760)
   || (8192 <=? c) && (c <=? 8202)
   || (c =? 8232) || (c =? 8233) || (c =? 8239) || (c =? 8287)
   || (c =? 12288))%N.

Definition is_ascii_upper (c : N) : bool := ((65 <=? c) && (c <=? 90))%N.
Definition is_ascii_lower (c : N) : bool := ((97 <=? c) && (c <=? 122))%N.
Definition is_ascii_letter (c : N) : bool := is_ascii_upper c || is_ascii_lower c.
Definition is_ascii_digit (c : N) : bool := ((48 <=? c) && (c <=? 57))%N.

(** The code points on which the lower-casing table is spelt out: ASCII,
    and the four non-ASCII letters that [[a-zA-Z]] matches under
    [re.IGNORECASE] (U+0130, U+0131, U+017F, U+212A). *)
Definition basic (c : N) : bool :=
  ((c <? 128) || (c =? 304) || (c =? 305) || (c =? 383) || (c =? 8490))%N.

(** [chr(c).lower()] for a [basic] code point; U+0130 lowers to the two
    code points U+0069 U+0307, the Kelvin sign U+212A to [k]. *)
Definition lower_basic (c : N) : str :=
  if is_ascii_upper c then [(c + 32)%N]
  else if (c =? 304)%N then [105%N; 775%N]
  else if (c =? 8490)%N then [107%N]
  else [c].

(** What the services use of the Unicode character database:
    [str.lower] and the word class [\w] of [re].  [str.lower] is fixed on
    [basic] text by [lower_basic]; elsewhere the tables are left open, so
    that every result holds for the real tables. *)
Class Unicode := {
  lower : str -> str;
  is_word : N -> bool;
  lower_on_basic :
    forall s, forallb basic s = true -> lower s = flat_map lower_basic s
}.

(** The tables restricted to ASCII behaviour, for running examples on
    ASCII text (and on caseless scripts), where they agree with Python. *)
Definition ascii_is_word (c : N) : bool :=
  is_ascii_letter c || is_ascii_digit c || (c =? 95)%N.

Definition AsciiTables : Unicode :=
  {| lower := flat_map lower_basic;
     is_word := ascii_is_word;
     lower_on_basic := fun s _ => eq_refl |}.

(** [str(n)] for an integer. *)
Definition of_Z (z : Z) : str :=
  py (NilZero.string_of_int (Z.to_int z)).

End PyStr.
Export PyStr.

(** ** Results of operations that may raise *)

Inductive Exn :=
| ValueError_dimension (expected : Z) (got : nat)
    (* "Vector dimension mismatch: expected .., got .." *)
| ValueError_shape      (* NumPy: rows of unequal length, or shapes not aligned *)
| IndexError
| JSONError.            (* the file does not hold a JSON object *)

Inductive Result (A : Type) :=
| Ok (a : A)
| Raise (e : Exn).
Arguments Ok {A} a.
Arguments Raise {A} e.

Definition bind {A B} (r : Result A) (k : A -> Result B) : Result B :=
  match r with
  | Ok a => k a
  | Raise e => Raise e
  end.

Fixpoint for_each {A B} (f : A -> Result B) (l : list A) : Result (list B) :=
  match l with
  | [] => Ok []
  | x :: l' => bind (f x) (fun y => bind (for_each f l') (fun ys => Ok (y :: ys)))
  end.

(** ** rag_service.py: [VectorDatabase] *)

Module Rag.

(** The arithmetic of the vector components.  The store is written once
    over this interface; it is run on binary64 floats ([FloatScalar]) and
    reasoned about in exact arithmetic ([RealScalar]). *)
Class Scalar (F : Type) := {
  f_zero : F;
  f_add : F -> F -> F;
  f_mul : F -> F -> F;
  f_div : F -> F -> F;
  f_sqrt : F -> F;
  f_max : F -> F -> F;
  f_leb : F -> F -> bool;
  f_eps : F                     (* the guard 1e-10 *)
}.

#[export] Instance RealScalar : Scalar R := {|
  f_zero := 0%R;
  f_add := Rplus;
  f_mul := Rmult;
  f_div := Rdiv;
  f_sqrt := sqrt;
  f_max := Rmax;
  f_leb := fun a b => if Rle_dec a b then true else false;
  f_eps := (/ 10 ^ 10)%R
|}.

Definition FloatScalar : Scalar PrimFloat.float := {|
  f_zero := 0%float;
  f_add := PrimFloat.add;
  f_mul := PrimFloat.mul;
  f_div := PrimFloat.div;
  f_sqrt := PrimFloat.sqrt;
  f_max := fun a b => if PrimFloat.ltb a b then b else a;   (* max(a, b) *)
  f_leb := PrimFloat.leb;
  f_eps := 0x1.b7cdfd9d7bdbbp-34%float     (* the double nearest to 1e-10 *)
|}.

Section VectorDatabase.
Context {F : Type} {SF : Scalar F} {Meta : Type}.

(** [self.vectors], [self.metadata], [self.dimension] *)
Record VectorDatabase := {
  vectors : list (list F);
  metadata : list Meta;
  dimension : Z
}.

(** [__init__(self, dimension=384)] *)
Definition init (dimension : Z) : VectorDatabase :=
  {| vectors := []; metadata := []; dimension := dimension |}.

Definition default_dimension : Z := 384.

(** [add_document]: the result and the store afterwards. *)
Definition add_document (db : VectorDatabase) (vector : list F) (meta : Meta)
  : Result nat * VectorDatabase :=
  if negb (Z.of_nat (length vector) =? dimension db)%Z then
    (Raise (ValueError_dimension (dimension db) (length vector)), db)
  else
    let doc_id := length (vectors db) in
    (Ok doc_id,
     {| vectors := vectors db ++ [vector];
        metadata := metadata db ++ [meta];
        dimension := dimension db |}).

(** [np.dot] of a row with the query, and [np.linalg.norm]. *)
Fixpoint dot (a b : list F) : F :=
  match a, b with
  | x :: a', y :: b' => f_add (f_mul x y) (dot a' b')
  | _, _ => f_zero
  end.

Definition norm (a : list F) : F := f_sqrt (dot a a).

(** [np.argsort]: the indices in ascending order of their value.  Equal
    values keep their index order here; NumPy leaves the order of ties to
    its sort and puts a NaN last.  What depends on the order is stated for
    [Numpy.search_with], which leaves the sort open. *)
Fixpoint insert_idx (sims : list (nat * F)) (p : nat * F) : list (nat * F) :=
  match sims with
  | [] => [p]
  | q :: rest =>
      if f_leb (snd p) (snd q) then p :: q :: rest
      else q :: insert_idx rest p
  end.

Definition argsort (values : list F) : list nat :=
  map fst (fold_right (fun p acc => insert_idx acc p) []
             (combine (seq 0 (length values)) values)).

(** The slice [l[start:]] of Python, for any integer [start]. *)
Definition slice_from {A} (start : Z) (l : list A) : list A :=
  let n := Z.of_nat (length l) in
  let i := if (start <? 0)%Z then Z.max (start + n) 0 else Z.min start n in
  drop (Z.to_nat i) l.

(** [search(query_vector, top_k=3)] *)
Definition search (db : VectorDatabase) (query_vector : list F) (top_k : Z)
  : Result (list (nat * F * Meta)) :=
  match vectors db with
  | [] => Ok []
  | row :: _ =>
      (* np.array(self.vectors) needs rows of one length ... *)
      if negb (forallb (fun r => length r =? length row) (vectors db))
      then Raise ValueError_shape
      (* ... and np.dot a query of that length *)
      else if negb (length row =? length query_vector)
      then Raise ValueError_shape
      else
        let dot_product := map (fun r => dot r query_vector) (vectors db) in
        let query_norm := f_max (norm query_vector) f_eps in
        let doc_norm := map (fun r => f_max (norm r) f_eps) (vectors db) in
        let similarities :=
          map (fun '(d, n) => f_div d (f_mul query_norm n))
              (combine dot_product doc_norm) in
        let top_indices := rev (slice_from (- top_k) (argsort similarities)) in
        for_each
          (fun idx =>
             match similarities !! idx, metadata db !! idx with
             | Some s, Some m => Ok (idx, s, m)
             | _, _ => Raise IndexError
             end)
          top_indices
  end.

(** The persisted record [{dimension, vectors, metadata}].  [json.load]
    gives a dict in which any key may be missing, or fails. *)
Record FileData := {
  data_dimension : option Z;
  data_vectors : option (list (list F));
  data_metadata : option (list Meta)
}.

Inductive FileContent :=
| NotJsonObject
| JsonObject (data : FileData).

(** [save(filepath)]: the file system afterwards. *)
Definition save (db : VectorDatabase) (filepath : str)
  (fs : gmap str FileContent) : gmap str FileContent :=
  let data := {| data_dimension := Some (dimension db);
                 data_vectors := Some (vectors db);
                 data_metadata := Some (metadata db) |} in
  <[filepath := JsonObject data]> fs.

(** [load(filepath)]: a missing file is skipped; a key missing from the
    file falls back to [self.dimension], [[]], [[]] ([data.get]). *)
Definition load (db : VectorDatabase) (filepath : str)
  (fs : gmap str FileContent) : Result unit * VectorDatabase :=
  match fs !! filepath with
  | None => (Ok tt, db)
  | Some NotJsonObject => (Raise JSONError, db)
  | Some (JsonObject data) =>
      (Ok tt,
       {| dimension := default (dimension db) (data_dimension data);
          vectors := default [] (data_vectors data);
          metadata := default [] (data_metadata data) |})
  end.

(** The similarity of the query [q] with the stored row [r], as [search]
    computes it. *)
Definition similarity (q r : list F) : F :=
  f_div (dot r q) (f_mul (f_max (norm q) f_eps) (f_max (norm r) f_eps)).

(** Every stored vector has the configured length. *)
Definition uniform (db : VectorDatabase) : Prop :=
  Forall (fun v => Z.of_nat (length v) = dimension db) (vectors db).

(** Stores as construction and [add_document] leave them: vectors of the
    configured length, one metadata entry per vector. *)
Definition well_formed (db : VectorDatabase) : Prop :=
  uniform db /\ length (metadata db) = length (vectors db).

End VectorDatabase.
Arguments VectorDatabase : clear implicits.
Arguments FileData : clear implicits.
Arguments FileContent : clear implicits.

(** Ascending order of the similarities in a list of (index, similarity)
    pairs, and "approximately 1.0": within 1e-6 of 1. *)
Definition ascending : list (nat * R) -> Prop :=
  StronglySorted (fun p1 p2 : nat * R => (snd p1 <= snd p2)%R).

Definition approx_one (x : R) : Prop := (Rabs (x - 1) <= / 10 ^ 6)%R.

End Rag.

(** ** What the search relies on from [np.argsort]

    [np.argsort] promises the indices in an order in which the values
    ascend, a NaN after every number; it does not promise the order of
    equal values.  [Rag.argsort] is one such sort where no value is a NaN;
    [search_with] is [search] with the sort left open. *)

Module Numpy.
Import Rag.

Section Sort.
Context {F : Type} {SF : Scalar F} {Meta : Type}.

(** The order in which NumPy sorts: [a <= b], or [b] is a NaN (the one
    value that is not [<=] itself). *)
Definition np_leb (a b : F) : bool := f_leb a b || negb (f_leb b b).

(** [indices] is a result that [np.argsort(values)] may give: every index
    of [values] once, the values read in that order ascending. *)
Definition is_argsort (indices : list nat) (values : list F) : Prop :=
  indices ≡ₚ seq 0 (length values)
  /\ StronglySorted
       (fun i j => exists x y,
            values !! i = Some x /\ values !! j = Some y /\ np_leb x y = true)
       indices.

(** [search(query_vector, top_k=3)], with [sort] for [np.argsort]. *)
Definition search_with (sort : list F -> list nat)
  (db : VectorDatabase F Meta) (query_vector : list F) (top_k : Z)
  : Result (list (nat * F * Meta)) :=
  match vectors db with
  | [] => Ok []
  | row :: _ =>
      if negb (forallb (fun r => length r =? length row) (vectors db))
      then Raise ValueError_shape
      else if negb (length row =? length query_vector)
      then Raise ValueError_shape
      else
        let dot_product := map (fun r => dot r query_vector) (vectors db) in
        let query_norm := f_max (norm query_vector) f_eps in
        let doc_norm := map (fun r => f_max (norm r) f_eps) (vectors db) in
        let similarities :=
          map (fun '(d, n) => f_div d (f_mul query_norm n))
              (combine dot_product doc_norm) in
        let top_indices := rev (slice_from (- top_k) (sort similarities)) in
        for_each
          (fun idx =>
             match similarities !! idx, metadata db !! idx with
             | Some s, Some m => Ok (idx, s, m)
             | _, _ => Raise IndexError
             end)
          top_indices
  end.

End Sort.

(** A store that holds a multiple of the vector added next. *)
Definition parallel_store : VectorDatabase PrimFloat.float str :=
  {| vectors := [[3%float; 9%float]];
     metadata := [py "older"];
     dimension := 2 |}.

End Numpy.


(** ** chatbot_service.py: the per-user chat history *)

Module Chat.

Inductive Role := user | assistant.

(** One entry [{"role": .., "content": .., "timestamp": ..}]; the
    timestamp is the clock reading [datetime.now().isoformat()], an input
    of the model. *)
Record ChatTurn := {
  role : Role;
  content : str;
  timestamp : str
}.

(** The module-level dict [chat_memory]: user id to history list. *)
Abbreviation ChatMemory := (gmap str (list ChatTurn)).

(** [l[-10:]] *)
Definition last10 {A} (l : list A) : list A := drop (length l - 10) l.

(** [_add_to_chat_history(user_id, role, message)] at clock reading [now]. *)
Definition _add_to_chat_history (chat_memory : ChatMemory)
  (user_id : str) (r : Role) (message : str) (now : str) : ChatMemory :=
  let chat_memory :=
    match chat_memory !! user_id with
    | None => <[user_id := []]> chat_memory
    | Some _ => chat_memory
    end in
  let history :=
    default [] (chat_memory !! user_id)
    ++ [{| role := r; content := message; timestamp := now |}] in
  let chat_memory := <[user_id := history]> chat_memory in
  if 10 <? length history
  then <[user_id := last10 history]> chat_memory
  else chat_memory.

(** [get_chat_history(user_id)] *)
Definition get_chat_history (chat_memory : ChatMemory) (user_id : str)
  : list ChatTurn :=
  default [] (chat_memory !! user_id).

(** [clear_chat_history(user_id)]: the flag returned and the memory. *)
Definition clear_chat_history (chat_memory : ChatMemory) (user_id : str)
  : bool * ChatMemory :=
  match chat_memory !! user_id with
  | Some _ => (true, <[user_id := []]> chat_memory)
  | None => (false, chat_memory)
  end.

(** What [process_message] does to the history of one request with a
    non-empty [user_id]: the user turn is stored before the upstream call,
    the assistant turn after it. *)
Definition record_turn_pair (chat_memory : ChatMemory) (user_id : str)
  (clean_message advice_message : str) (now1 now2 : str) : ChatMemory :=
  let chat_memory :=
    _add_to_chat_history chat_memory user_id user clean_message now1 in
  _add_to_chat_history chat_memory user_id assistant advice_message now2.

(** The six requests of the truncation scenario: [(message, advice,
    clock before, clock after)] per request. *)
Definition record_turn_pairs (chat_memory : ChatMemory) (user_id : str)
  (requests : list (str * str * str * str)) : ChatMemory :=
  fold_left
    (fun mem '(msg, advice, now1, now2) =>
       record_turn_pair mem user_id msg advice now1 now2)
    requests chat_memory.

(** The entries that these requests append, in order. *)
Definition turns_of (requests : list (str * str * str * str)) : list ChatTurn :=
  flat_map
    (fun '(msg, advice, now1, now2) =>
       [ {| role := user; content := msg; timestamp := now1 |};
         {| role := assistant; content := advice; timestamp := now2 |} ])
    requests.

(** main.py keeps its own dict [chat_history] (entries without timestamp)
    and appends both turns of a request before it truncates. *)
Definition main_store_turns {T} (chat_history : gmap str (list T))
  (user_id : str) (user_turn assistant_turn : T) : gmap str (list T) :=
  let history :=
    default [] (chat_history !! user_id) ++ [user_turn] ++ [assistant_turn] in
  if 10 <? length history
  then <[user_id := last10 history]> chat_history
  else <[user_id := history]> chat_history.

End Chat.

(** ** claude_service.py: handling of the upstream reply *)

Module Claude.

(** JSON values as [json.loads] and [response.json()] build them.  An
    object is the parsed dict, one binding per key; a number keeps its
    literal. *)
#[local] Unset Elimination Schemes.
Inductive json :=
| JNull
| JBool (b : bool)
| JNum (literal : str)
| JStr (s : str)
| JArr (items : list json)
| JObj (fields : list (str * json)).
#[local] Set Elimination Schemes.

(** The exceptions that the body of [generate_farming_response] can meet.
    All of them derive from Python's [Exception]. *)
Inductive PyExn :=
| TransportError (detail : str)   (* httpx: connection, timeout, protocol *)
| ResponseNotJson                 (* response.json() fails *)
| TypeError (detail : str)
| KeyError (key : str)
| IndexError
| JSONDecodeError.

Inductive Outcome (A : Type) :=
| Returned (a : A)
| Raised (e : PyExn).
Arguments Returned {A} a.
Arguments Raised {A} e.

Definition and_then {A B} (o : Outcome A) (k : A -> Outcome B) : Outcome B :=
  match o with
  | Returned a => k a
  | Raised e => Raised e
  end.

(** [d.get(key)] on the fields of an object. *)
Fixpoint lookup_field (key : str) (fields : list (str * json)) : option json :=
  match fields with
  | [] => None
  | (k, v) :: rest => if PyStr.eqb k key then Some v else lookup_field key rest
  end.

(** [key in x] for a string [key]. *)
Definition py_in (key : str) (x : json) : Outcome bool :=
  match x with
  | JObj fields => Returned (bool_decide (is_Some (lookup_field key fields)))
  | JArr items =>
      Returned (existsb (fun j => match j with
                                  | JStr s => PyStr.eqb s key
                                  | _ => false
                                  end) items)
  | JStr s => Returned (contains key s)
  | _ => Raised (TypeError (py "argument is not iterable"))
  end.

(** [x[key]] for a string [key]. *)
Definition py_getitem_str (x : json) (key : str) : Outcome json :=
  match x with
  | JObj fields =>
      match lookup_field key fields with
      | Some v => Returned v
      | None => Raised (KeyError key)
      end
  | JArr _ | JStr _ => Raised (TypeError (py "indices must be integers"))
  | _ => Raised (TypeError (py "object is not subscriptable"))
  end.

(** [len(x)] *)
Definition py_len (x : json) : Outcome nat :=
  match x with
  | JArr items => Returned (length items)
  | JStr s => Returned (length s)
  | JObj fields => Returned (length fields)
  | _ => Raised (TypeError (py "object has no len()"))
  end.

(** [x[0]] *)
Definition py_getitem_0 (x : json) : Outcome json :=
  match x with
  | JArr (j :: _) => Returned j
  | JArr [] => Raised IndexError
  | JStr (c :: _) => Returned (JStr [c])
  | JStr [] => Raised IndexError
  | JObj _ => Raised (KeyError (py "0"))
  | _ => Raised (TypeError (py "object is not subscriptable"))
  end.

(** [_default_tags()] *)
Definition _default_tags : json :=
  JObj [ (py "crops", JArr []);
         (py "city", JNull);
         (py "topics", JArr []);
         (py "issues", JArr []);
         (py "seasons", JArr []) ].

(** The answer of the upstream API to one POST: the call raises, or gives
    a response with a status code and a body that [response.json()] reads
    ([None]: the body is not JSON). *)
Record Response := {
  status_code : Z;
  body : option json
}.

Inductive PostResult :=
| PostRaises (e : PyExn)
| PostReturns (r : Response).

(** The navigation entries of [app_context] that the prompt lists. *)
Record NavEntry := {
  nav_route : str;
  nav_title : str;
  nav_description : str
}.

Record Payload := {
  model : str;
  max_tokens : Z;
  temperature : str;              (* the literal 0.7 *)
  system : str;
  messages : list (Chat.Role * str)
}.

Section Service.
(** The environment: the upstream API, [json.loads] on a string, [str(e)]
    of an exception, and the fixed text of the system prompt around the
    language name and the navigation summary. *)
Variable post : Payload -> PostResult.
Variable json_loads : str -> option json.
Variable exn_str : PyExn -> str.
Variable prompt_text : str -> str -> str.

Definition CLAUDE_MODEL : str := py "claude-3-opus-20240229".
Definition CLAUDE_MAX_TOKENS : Z := 1000.
Definition CLAUDE_TEMPERATURE : str := py "0.7".

Definition language_names : list (str * str) :=
  [ (py "en", py "English"); (py "hi", py "Hindi"); (py "pa", py "Punjabi");
    (py "ta", py "Tamil"); (py "te", py "Telugu"); (py "mr", py "Marathi") ].

Fixpoint dict_get (key : str) (d : list (str * str)) : option str :=
  match d with
  | [] => None
  | (k, v) :: rest => if PyStr.eqb k key then Some v else dict_get key rest
  end.

(** [_create_system_prompt(app_context, language)] *)
Definition _create_system_prompt (navigation_contexts : list NavEntry)
  (language : str) : str :=
  let language_name := default (py "English") (dict_get language language_names) in
  let navigation_summary :=
    flat_map
      (fun nav => py "- " ++ nav_route nav ++ py ": " ++ nav_title nav
                  ++ py " - " ++ nav_description nav ++ [10%N])
      (take 10 navigation_contexts) in
  prompt_text language_name navigation_summary.

(** The text of the first content block, [""] when there is none. *)
Definition extract_text (response_data : json) : Outcome json :=
  and_then (py_in (py "content") response_data) (fun has_content =>
  if has_content then
    and_then (py_getitem_str response_data (py "content")) (fun content =>
    and_then (py_len content) (fun n =>
    if 0 <? n then
      and_then (py_getitem_str response_data (py "content")) (fun content =>
      and_then (py_getitem_0 content) (fun block =>
      py_getitem_str block (py "text")))
    else Returned (JStr [])))
  else Returned (JStr [])).

(** The inner [try]: parse the text, keep [message] and [tags] when the
    reply is an object with both keys, else the text with default tags.
    [json.loads] of a value that is not a string is a [TypeError]. *)
Definition parse_reply (response_text : json) : Outcome (json * json) :=
  match response_text with
  | JStr text =>
      match json_loads text with
      | Some response_json =>
          match response_json with
          | JObj fields =>
              match lookup_field (py "message") fields,
                    lookup_field (py "tags") fields with
              | Some message, Some tags => Returned (message, tags)
              | _, _ => Returned (response_text, _default_tags)
              end
          | _ => Returned (response_text, _default_tags)
          end
      | None => (* except json.JSONDecodeError *)
          Returned (response_text, _default_tags)
      end
  | _ => Raised (TypeError (py "the JSON object must be str, bytes or bytearray"))
  end.

(** The body of the outer [try]. *)
Definition try_body (payload : Payload) : Outcome (json * json) :=
  match post payload with
  | PostRaises e => Raised e
  | PostReturns response =>
      if negb (status_code response =? 200)%Z then
        Returned (JStr (py "API Error: " ++ PyStr.of_Z (status_code response)),
                  _default_tags)
      else
        match body response with
        | None => Raised ResponseNotJson
        | Some response_data =>
            and_then (extract_text response_data) parse_reply
        end
  end.

(** The request sent for one message. *)
Definition request_payload (message : str) (language : str)
  (navigation_contexts : list NavEntry) : Payload :=
  let system_prompt := _create_system_prompt navigation_contexts language in
  {| model := CLAUDE_MODEL;
     max_tokens := CLAUDE_MAX_TOKENS;
     temperature := CLAUDE_TEMPERATURE;
     system := system_prompt;
     messages := [(Chat.user, message)] |}.

(** [generate_farming_response(message, language, app_context)]: the pair
    [(message, tags)] returned, or the exception that reaches the caller. *)
Definition generate_farming_response (message : str) (language : str)
  (navigation_contexts : list NavEntry) : Outcome (json * json) :=
  let payload := request_payload message language navigation_contexts in
  match try_body payload with
  | Returned r => Returned r
  | Raised e => (* except Exception as e *)
      let error_msg := py "Error communicating with Claude API: " ++ exn_str e in
      Returned (JStr error_msg, _default_tags)
  end.

(** The reply has the expected shape: an object with the keys [message]
    and [tags]. *)
Definition expected_shape (j : json) : Prop :=
  exists fields message tags,
    j = JObj fields
    /\ lookup_field (py "message") fields = Some message
    /\ lookup_field (py "tags") fields = Some tags.

End Service.

End Claude.

(** ** language_service.py: the explicit language prefix *)

Module Language.

(** The fragment of [re] that the two patterns use.  A class is a
    predicate on code points; [Plus] and [Star] are greedy and backtrack. *)
Inductive regex :=
| Chr (cls : N -> bool)
| Plus (cls : N -> bool)
| Star (cls : N -> bool)
| Group (r : regex)
| Cat (r1 r2 : regex).

(** Length of the longest prefix of [s] inside [cls]. *)
Fixpoint run_length (cls : N -> bool) (s : str) : nat :=
  match s with
  | c :: s' => if cls c then S (run_length cls s') else 0
  | [] => 0
  end.

Section Matcher.
Context {A : Type}.

(** Try to continue after [n], [n-1], ..., [least] characters. *)
Fixpoint try_lengths (s : str) (k : str -> option A) (least n : nat) : option A :=
  match k (drop n s) with
  | Some a => Some a
  | None =>
      match n with
      | 0 => None
      | S m => if least <=? m then try_lengths s k least m else None
      end
  end.

(** Match [r] at the start of [s]; the continuation [k] receives the text
    left and the groups captured so far, and [None] makes the matcher
    backtrack. *)
Fixpoint rmatch (r : regex) (s : str) (groups : list str)
  (k : str -> list str -> option A) : option A :=
  match r with
  | Chr cls =>
      match s with
      | c :: s' => if cls c then k s' groups else None
      | [] => None
      end
  | Plus cls =>
      let n := run_length cls s in
      if n =? 0 then None else try_lengths s (fun rest => k rest groups) 1 n
  | Star cls =>
      try_lengths s (fun rest => k rest groups) 0 (run_length cls s)
  | Group r' =>
      rmatch r' s groups
        (fun rest groups' =>
           k rest (groups' ++ [take (length s - length rest) s]))
  | Cat r1 r2 =>
      rmatch r1 s groups (fun rest groups' => rmatch r2 rest groups' k)
  end.

End Matcher.

(** [re.search] with a pattern that starts with [^] (no MULTILINE): only
    position 0 is tried.  The result holds the groups and the text after
    the match. *)
Definition search_at_start (r : regex) (text : str) : option (list str * str) :=
  rmatch r text [] (fun rest groups => Some (groups, rest)).

(** [re.sub(pattern, "", text)] for such a pattern, which cannot match the
    empty string: the match at position 0, if any, is removed. *)
Definition sub_at_start (r : regex) (text : str) : str :=
  match search_at_start r text with
  | Some (_, rest) => rest
  | None => text
  end.

(** The classes of the patterns under [re.IGNORECASE]: [i] also matches
    U+0130 and U+0131, and [[a-zA-Z]] the four letters of [PyStr.basic]. *)
Definition cls_i (c : N) : bool := ((c =? 105) || (c =? 73) || (c =? 304) || (c =? 305))%N.
Definition cls_n (c : N) : bool := ((c =? 110) || (c =? 78))%N.
Definition cls_letter (c : N) : bool :=
  is_ascii_letter c || ((c =? 304) || (c =? 305) || (c =? 383) || (c =? 8490))%N.
Definition cls_delim (c : N) : bool := isspace c || ((c =? 58) || (c =? 45))%N.

(** [r"^in\s+([a-zA-Z]+)[\s:-]"] *)
Definition explicit_pattern : regex :=
  Cat (Chr cls_i) (Cat (Chr cls_n) (Cat (Plus isspace)
    (Cat (Group (Plus cls_letter)) (Chr cls_delim)))).

(** [r"^in\s+([a-zA-Z]+)[\s:-]\s*"] *)
Definition prefix_pattern : regex :=
  Cat explicit_pattern (Star isspace).

(** [SUPPORTED_LANGUAGES], in the order of the dict literal. *)
Definition SUPPORTED_LANGUAGES : list (str * str) :=
  [ (py "en", py "English"); (py "hi", py "Hindi"); (py "pa", py "Punjabi");
    (py "ta", py "Tamil"); (py "te", py "Telugu"); (py "mr", py "Marathi") ].

Definition DEFAULT_LANGUAGE : str := py "en".

(** [key in SUPPORTED_LANGUAGES] *)
Definition supported (key : str) : bool :=
  existsb (fun '(code, _) => PyStr.eqb code key) SUPPORTED_LANGUAGES.

Section Service.
Context {U : Unicode}.
(** [langdetect.detect]; [None] stands for [LangDetectException]. *)
Variable detect : str -> option str.

(** [_extract_explicit_language(text)] *)
Definition _extract_explicit_language (text : str) : option str :=
  match search_at_start explicit_pattern text with
  | Some (groups, _) =>
      let lang_name := lower (default [] (groups !! 0)) in
      if supported lang_name then Some lang_name
      else
        match find (fun '(code, name) => contains lang_name (lower name))
                   SUPPORTED_LANGUAGES with
        | Some (code, _) => Some code
        | None => None
        end
  | None => None
  end.

(** [detected.split('-')[0]] *)
Fixpoint before_hyphen (s : str) : str :=
  match s with
  | [] => []
  | c :: s' => if (c =? 45)%N then [] else c :: before_hyphen s'
  end.

(** [detect_language(text)] *)
Definition detect_language (text : str) : str :=
  match _extract_explicit_language text with
  | Some (c :: l) => c :: l          (* [if explicit_lang:] *)
  | _ =>
      match detect text with
      | Some detected =>
          if supported detected then detected
          else if contains (py "-") detected && supported (before_hyphen detected)
          then before_hyphen detected
          else if PyStr.eqb detected (py "ur") && supported (py "hi")
          then py "hi"
          else DEFAULT_LANGUAGE
      | None => DEFAULT_LANGUAGE
      end
  end.

(** [clean_language_prefix(text)] *)
Definition clean_language_prefix (text : str) : str :=
  sub_at_start prefix_pattern text.

(** The word after "in" names the language [code]: lower-cased, it is the
    code or the lower-cased display name. *)
Definition names (w code : str) : Prop :=
  exists name,
    In (code, name) SUPPORTED_LANGUAGES
    /\ (lower w = code \/ lower w = lower name).

End Service.

(** The text of the test: "in Hindi: " followed by the Devanagari
    sentence, and the sentence alone. *)
Definition hindi_sentence : str :=
  [2350; 2376; 2306; 32; 2347; 2360; 2354; 32; 2313; 2327; 2366; 2344; 2366;
   32; 2330; 2366; 2361; 2340; 2366; 32; 2361; 2370; 2306]%N.

Definition hindi_request : str := py "in Hindi: " ++ hindi_sentence.

End Language.

(** ** navigation_service.py: the navigation scoring heuristic *)

Module Navigation.

(** One entry of [navigation_contexts]; a missing [route] is [None], a
    missing list is empty ([context.get(.., [])]). *)
Record NavigationContext := {
  route : option str;
  title : str;
  description : str;
  intent_keywords : list str;
  user_needs : list str;
  sample_questions : list str
}.

(** The extracted entities, typed as the tag record of the data model
    (string lists, an optional city); any key may be missing from the dict,
    which is [None] here, and a [city] that is present may be null. *)
Record Tags := {
  crops : option (list str);
  city : option (option str);
  topics : option (list str);
  issues : option (list str);
  seasons : option (list str)
}.

(** The dict [{}]. *)
Definition no_tags : Tags :=
  {| crops := None; city := None; topics := None; issues := None;
     seasons := None |}.

(** Truth value of [d.get(key, [])] and of [key in d and d[key]]. *)
Definition truthy_list (v : option (list str)) : bool :=
  match v with
  | Some (_ :: _) => true
  | _ => false
  end.

Definition truthy_str (v : option (option str)) : bool :=
  match v with
  | Some (Some (_ :: _)) => true
  | _ => false
  end.

(** A Python dict keeps its keys in insertion order; assigning to a key
    that is present keeps its place. *)
Fixpoint dict_set {V} (key : str) (v : V) (d : list (str * V)) : list (str * V) :=
  match d with
  | [] => [(key, v)]
  | (k, v') :: rest =>
      if PyStr.eqb k key then (key, v) :: rest
      else (k, v') :: dict_set key v rest
  end.

(** The service after [__init__]. *)
Record NavigationService := {
  context_keywords : list (str * list str);
  navigation_by_route : list (str * NavigationContext)
}.

(** [_extract_keywords]; [list(set(keywords))] keeps one copy of each
    keyword (in an order that the scoring does not depend on). *)
Definition _extract_keywords (navigation_contexts : list NavigationContext)
  : NavigationService :=
  fold_left
    (fun self context =>
       match route context with
       | Some (c :: r) =>
           let route := c :: r in
           let keywords := intent_keywords context ++ user_needs context in
           {| navigation_by_route :=
                dict_set route context (navigation_by_route self);
              context_keywords :=
                dict_set route (remove_dups keywords) (context_keywords self) |}
       | _ => self        (* [if not route: continue] *)
       end)
    navigation_contexts
    {| context_keywords := []; navigation_by_route := [] |}.

(** [sorted(items, key=lambda x: x[1], reverse=True)]: descending and
    stable. *)
Fixpoint insert_desc (p : str * nat) (l : list (str * nat)) : list (str * nat) :=
  match l with
  | [] => [p]
  | q :: rest =>
      if snd q <=? snd p then p :: q :: rest
      else q :: insert_desc p rest
  end.

Definition sorted_desc (items : list (str * nat)) : list (str * nat) :=
  fold_right insert_desc [] items.

Section Service.
Context {U : Unicode}.

Definition is_word_at (c : option N) : bool :=
  match c with
  | Some c => is_word c
  | None => false
  end.

(** [\b] between the characters [before] and [after] ([None] at an end of
    the string). *)
Definition boundary (before after : option N) : bool :=
  xorb (is_word_at before) (is_word_at after).

(** [re.search(r'\b' + re.escape(kw) + r'\b', s)], scanning [s] with the
    character [before] it. *)
Fixpoint word_search_from (kw : str) (before : option N) (s : str) : bool :=
  (boundary before (head s)
   && starts_with kw s
   && boundary (match last kw with Some c => Some c | None => before end)
               (head (drop (length kw) s)))
  || match s with
     | [] => false
     | c :: s' => word_search_from kw (Some c) s'
     end.

Definition word_search (kw s : str) : bool := word_search_from kw None s.

(** The body of the loop over [self.context_keywords.items()]. *)
Definition score_route (message : str) (extracted_entities : Tags)
  (route : str) (keywords : list str) : nat :=
  let score := 0 in
  (* direct keyword matches *)
  let score :=
    fold_left
      (fun score keyword =>
         if word_search (lower keyword) (lower message) then score + 2 else score)
      keywords score in
  (* crop relevance *)
  let score :=
    if truthy_list (crops extracted_entities)
       && in_list route [py "/resource-pool"; py "/podcasts"; py "/chatbot"]
    then score + 3 else score in
  (* city/location relevance *)
  let score :=
    if truthy_str (city extracted_entities)
       && in_list route [py "/search-cooperatives"; py "/nearby-cooperatives"]
    then score + 3 else score in
  (* special cases for specific routes *)
  let score :=
    if PyStr.eqb route (py "/podcasts")
       && (contains (py "learn") (lower message)
           || contains (py "information") (lower message)
           || existsb
                (fun topic =>
                   in_list topic [py "cultivation"; py "farming techniques";
                                  py "agricultural education"])
                (default [] (topics extracted_entities)))
    then score + 3 else score in
  let score :=
    if PyStr.eqb route (py "/resource-pool")
       && (contains (py "equipment") (lower message)
           || contains (py "tools") (lower message))
    then score + 2 else score in
  let score :=
    if PyStr.eqb route (py "/chatbot")
       && (any_contains [py "help"; py "advice"; py "problem"; py "issue"]
             (lower message)
           || truthy_list (issues extracted_entities))
    then score + 4 else score in
  let score :=
    if PyStr.eqb route (py "/community")
       && any_contains [py "discuss"; py "talk"; py "other farmers"]
            (lower message)
    then score + 2 else score in
  (* specific rules for crops and issues *)
  let score :=
    if truthy_list (crops extracted_entities) && PyStr.eqb route (py "/chatbot")
    then score + 3 else score in
  let score :=
    if truthy_list (issues extracted_entities) && PyStr.eqb route (py "/community")
    then score + 2 else score in
  score.

(** [suggest_navigations(message, extracted_entities)] *)
Definition suggest_navigations (self : NavigationService) (message : str)
  (extracted_entities : Tags) : list str :=
  let route_scores :=
    map (fun '(route, keywords) =>
           (route, score_route message extracted_entities route keywords))
        (context_keywords self) in
  (* top scoring routes (max 3) *)
  let sorted_routes := sorted_desc route_scores in
  let suggestions :=
    take 3 (map fst (filter (fun '(_, score) => 0 < score) sorted_routes)) in
  (* always include chatbot if not already included and there are other
     suggestions *)
  let suggestions :=
    if negb (in_list (py "/chatbot") suggestions)
       && match suggestions with [] => false | _ => true end
    then suggestions ++ [py "/chatbot"]
    else suggestions in
  (* default suggestions *)
  match suggestions with
  | [] => [py "/chatbot"; py "/podcasts"; py "/community"]
  | _ => suggestions
  end.

(** The routes kept by the scoring step: at most three. *)
Definition top_scored (self : NavigationService) (message : str)
  (tags : Tags) : list str :=
  take 3 (map fst
            (filter (fun '(_, score) => 0 < score)
               (sorted_desc
                  (map (fun '(route, keywords) =>
                          (route, score_route message tags route keywords))
                       (context_keywords self))))).

End Service.

(** main.py has a second, simpler [suggest_navigations], which truncates
    its list to three at the end. *)
Module Main.
Definition suggest_navigations (message : str) (tags : Tags) : list str :=
  let navigations := [py "/chatbot"] in
  let navigations :=
    if truthy_list (crops tags) then navigations ++ [py "/podcasts"]
    else navigations in
  let navigations := navigations ++ [py "/community"] in
  let navigations :=
    if bool_decide (is_Some (topics tags))
       && existsb (fun topic => in_list topic
                                  [py "equipment"; py "machinery"; py "tools"])
                  (default [] (topics tags))
    then navigations ++ [py "/resource-pool"]
    else navigations in
  take 3 navigations.
End Main.

End Navigation.

(** ** navigation_service.py on the tags as they arrive

    [suggest_navigations] receives the [tags] value of the model's reply
    unvalidated: a dict whose values are arbitrary JSON.  The scoring reads
    the values of [crops], [city] and [issues] for their truth value only
    and iterates over the value of [topics], which raises for a value that
    cannot be iterated. *)

Module NavigationJson.
Import Claude Navigation.

(** [iter(v)]: the items that a [for] loop or [any(...)] sees; a dict gives
    its keys, a string its characters. *)
Definition py_iter (v : json) : Outcome (list json) :=
  match v with
  | JArr items => Returned items
  | JStr s => Returned (map (fun c => JStr [c]) s)
  | JObj fields => Returned (map (fun '(key, _) => JStr key) fields)
  | JNull | JBool _ | JNum _ => Raised (TypeError (py "object is not iterable"))
  end.


(** [x in [s1, s2, ...]] for a list of strings: only a string equals a
    string. *)
Definition in_strings (x : json) (l : list str) : bool :=
  match x with
  | JStr s => in_list s l
  | _ => false
  end.

(** The dict that holds the keys of a typed tag record. *)
Definition binding (key : string) (v : option json) : list (str * json) :=
  match v with
  | Some v => [(py key, v)]
  | None => []
  end.

Definition strings (l : list str) : json := JArr (map JStr l).

(** [d[key]] on the items of a dict; [None] stands for [KeyError]. *)
Fixpoint dict_lookup {V} (key : str) (d : list (str * V)) : option V :=
  match d with
  | [] => None
  | (k, v) :: rest => if PyStr.eqb k key then Some v else dict_lookup key rest
  end.

(** Every route that is scored has its context, as [_extract_keywords]
    leaves the two dicts. *)
Definition routes_known (self : NavigationService) : Prop :=
  Forall (fun route => is_Some (dict_lookup route (navigation_by_route self)))
         (map fst (context_keywords self)).

Definition dict_of_tags (tags : Tags) : list (str * json) :=
  binding "crops" (option_map strings (crops tags))
  ++ binding "city" (option_map (fun c => match c with
                                          | Some s => JStr s
                                          | None => JNull
                                          end) (city tags))
  ++ binding "topics" (option_map strings (topics tags))
  ++ binding "issues" (option_map strings (issues tags))
  ++ binding "seasons" (option_map strings (seasons tags)).

Section Service.
Context {U : Unicode}.
(** [bool(x)] for the number that [json.loads] builds from a literal. *)
Variable number_truthy : str -> bool.

(** [bool(v)] *)
Definition truthy (v : json) : bool :=
  match v with
  | JNull => false
  | JBool b => b
  | JNum literal => number_truthy literal
  | JStr s => negb (bool_decide (s = []))
  | JArr items => negb (bool_decide (items = []))
  | JObj fields => negb (bool_decide (fields = []))
  end.

(** Truth value of [key in d and d[key]]. *)
Definition present_truthy (key : str) (d : list (str * json)) : bool :=
  match lookup_field key d with
  | Some v => truthy v
  | None => false
  end.

(** Truth value of [d.get(key, [])]. *)
Definition get_truthy (key : str) (d : list (str * json)) : bool :=
  truthy (default (JArr []) (lookup_field key d)).

(** The body of the loop over [self.context_keywords.items()]: the score,
    or the exception that the lookup of the context or the rule for
    "/podcasts" raises. *)
Definition score_route (self : NavigationService) (message : str)
  (extracted_entities : list (str * json))
  (route : str) (keywords : list str) : Outcome nat :=
  let score := 0 in
  (* direct keyword matches *)
  let score :=
    fold_left
      (fun score keyword =>
         if word_search (lower keyword) (lower message) then score + 2 else score)
      keywords score in
  (* context = self.navigation_by_route[route] *)
  match dict_lookup route (navigation_by_route self) with
  | None => Raised (KeyError route)
  | Some context =>
  (* crop relevance *)
  let score :=
    if present_truthy (py "crops") extracted_entities
       && in_list route [py "/resource-pool"; py "/podcasts"; py "/chatbot"]
    then score + 3 else score in
  (* city/location relevance *)
  let score :=
    if present_truthy (py "city") extracted_entities
       && in_list route [py "/search-cooperatives"; py "/nearby-cooperatives"]
    then score + 3 else score in
  (* special cases for specific routes; [and] and [or] stop at the first
     operand that decides, so the topics are only iterated for "/podcasts"
     and a message without "learn" and "information" *)
  and_then
    (if PyStr.eqb route (py "/podcasts") then
       if contains (py "learn") (lower message)
          || contains (py "information") (lower message)
       then Returned true
       else
         and_then
           (py_iter (default (JArr [])
                             (lookup_field (py "topics") extracted_entities)))
           (fun topics =>
              Returned
                (existsb
                   (fun topic =>
                      in_strings topic [py "cultivation"; py "farming techniques";
                                        py "agricultural education"])
                   topics))
     else Returned false)
    (fun podcasts =>
  let score := if podcasts then score + 3 else score in
  let score :=
    if PyStr.eqb route (py "/resource-pool")
       && (contains (py "equipment") (lower message)
           || contains (py "tools") (lower message))
    then score + 2 else score in
  let score :=
    if PyStr.eqb route (py "/chatbot")
       && (any_contains [py "help"; py "advice"; py "problem"; py "issue"]
             (lower message)
           || get_truthy (py "issues") extracted_entities)
    then score + 4 else score in
  let score :=
    if PyStr.eqb route (py "/community")
       && any_contains [py "discuss"; py "talk"; py "other farmers"]
            (lower message)
    then score + 2 else score in
  (* specific rules for crops and issues *)
  let score :=
    if get_truthy (py "crops") extracted_entities
       && PyStr.eqb route (py "/chatbot")
    then score + 3 else score in
  let score :=
    if get_truthy (py "issues") extracted_entities
       && PyStr.eqb route (py "/community")
    then score + 2 else score in
  Returned score)
  end.

(** The loop: the scores in the order of the routes; the first exception
    ends it. *)
Fixpoint score_routes (self : NavigationService) (message : str)
  (extracted_entities : list (str * json))
  (items : list (str * list str)) : Outcome (list (str * nat)) :=
  match items with
  | [] => Returned []
  | (route, keywords) :: rest =>
      and_then (score_route self message extracted_entities route keywords)
        (fun score =>
      and_then (score_routes self message extracted_entities rest)
        (fun route_scores => Returned ((route, score) :: route_scores)))
  end.

(** [suggest_navigations(message, extracted_entities)]: the list returned,
    or the exception that reaches the caller. *)
Definition suggest_navigations (self : NavigationService) (message : str)
  (extracted_entities : list (str * json)) : Outcome (list str) :=
  and_then (score_routes self message extracted_entities (context_keywords self))
    (fun route_scores =>
  (* top scoring routes (max 3) *)
  let sorted_routes := sorted_desc route_scores in
  let suggestions :=
    take 3 (map fst (filter (fun '(_, score) => 0 < score) sorted_routes)) in
  (* always include chatbot if not already included and there are other
     suggestions *)
  let suggestions :=
    if negb (in_list (py "/chatbot") suggestions)
       && match suggestions with [] => false | _ => true end
    then suggestions ++ [py "/chatbot"]
    else suggestions in
  (* default suggestions *)
  match suggestions with
  | [] => Returned [py "/chatbot"; py "/podcasts"; py "/community"]
  | _ => Returned suggestions
  end).



End Service.

End NavigationJson.

(** ** The store as a state machine

    The four operations of [VectorDatabase] as transitions on the store
    and the file system.  An operation that raises leaves both as they
    were; [search] and [save] do not assign to [self]. *)

Module RagMachine.
Import Rag.

Section Machine.
Context {F : Type} {SF : Scalar F} {Meta : Type}.

Inductive Op :=
| OpAdd (vector : list F) (meta : Meta)
| OpSearch (query_vector : list F) (top_k : Z)
| OpSave (filepath : str)
| OpLoad (filepath : str).

Definition State : Type := VectorDatabase F Meta * gmap str (FileContent F Meta).

Definition step (st : State) (op : Op) : State :=
  let '(db, fs) := st in
  match op with
  | OpAdd vector meta => (snd (add_document db vector meta), fs)
  | OpSearch _ _ => (db, fs)
  | OpSave filepath => (db, save db filepath fs)
  | OpLoad filepath => (snd (load db filepath fs), fs)
  end.

Definition run (ops : list Op) (st : State) : State := fold_left step ops st.

(** A file as [save] writes it from a store whose vectors have the
    configured length: all three keys, and vectors of length [dimension]. *)
Definition consistent_file (c : FileContent F Meta) : Prop :=
  match c with
  | NotJsonObject => True
  | JsonObject data =>
      exists d vs,
        data_dimension data = Some d /\ data_vectors data = Some vs
        /\ Forall (fun v => Z.of_nat (length v) = d) vs
  end.

Definition consistent_files (fs : gmap str (FileContent F Meta)) : Prop :=
  forall filepath c, fs !! filepath = Some c -> consistent_file c.

End Machine.
Arguments Op : clear implicits.
Arguments State : clear implicits.
End RagMachine.

(** ** Example inputs *)

Module Examples.
Import Rag Chat Claude Navigation.

Definition store_path : str := py "vector_db.json".

(** A file that lacks the [dimension] key. *)
Definition partial_file : FileContent float unit :=
  JsonObject {| data_dimension := None;
                data_vectors := Some [[1%float]];
                data_metadata := Some [tt] |}.

(** A file whose vectors do not have the dimension it declares. *)
Definition ragged_file : FileContent float unit :=
  JsonObject {| data_dimension := Some 2%Z;
                data_vectors := Some [[1%float]];
                data_metadata := Some [tt] |}.

(** Two stored documents, the unit vectors of the plane, on floats. *)
Definition two_documents : VectorDatabase float str :=
  snd (add_document
         (snd (add_document (init 2) [1%float; 0%float] (py "east")))
         [0%float; 1%float] (py "north")).

(** Six requests "q1".."q6" with answers "a1".."a6"; clock readings are
    left empty. *)
Definition six_requests : list (str * str * str * str) :=
  [ (py "q1", py "a1", [], []); (py "q2", py "a2", [], []);
    (py "q3", py "a3", [], []); (py "q4", py "a4", [], []);
    (py "q5", py "a5", [], []); (py "q6", py "a6", [], []) ].

(** Three upstream behaviours. *)
Definition no_prompt : str -> str -> str := fun _ _ => [].
Definition show_exn (e : PyExn) : str :=
  match e with
  | TransportError detail => detail
  | _ => []
  end.

Definition overloaded : Payload -> PostResult :=
  fun _ => PostReturns {| status_code := 529; body := None |}.

Definition unreachable : Payload -> PostResult :=
  fun _ => PostRaises (TransportError (py "timed out")).

Definition plain_text_reply : Payload -> PostResult :=
  fun _ => PostReturns
    {| status_code := 200;
       body := Some (JObj [(py "content",
                            JArr [JObj [(py "text", JStr (py "Water early."))]])]) |}.

(** A service with the six routes that the scoring rules name. *)
Definition context (r : string) (keywords : list str) : NavigationContext :=
  {| route := Some (py r); title := []; description := [];
     intent_keywords := keywords; user_needs := [];
     sample_questions := [] |}.

Definition six_routes : NavigationService :=
  _extract_keywords
    [ context "/podcasts" [py "podcast"; py "listen"];
      context "/resource-pool" [py "rent"; py "borrow"];
      context "/community" [py "forum"];
      context "/search-cooperatives" [py "cooperative"];
      context "/nearby-cooperatives" [py "nearby"];
      context "/chatbot" [py "ask"] ].

Definition learn_tools_discuss : str :=
  py "I want to learn about tools and discuss them".

End Examples.

(** ** Shapes of requests *)

Module LanguageShapes.
Import Language.

(** The text starts with "in" (in any case) and a white space character:
    without this start [explicit_pattern] cannot match. *)
Definition has_in_prefix (text : str) : bool :=
  match text with
  | c1 :: c2 :: c3 :: _ => cls_i c1 && cls_n c2 && isspace c3
  | _ => false
  end.

End LanguageShapes.

(** ** Vocabulary for the navigation service *)

Module NavigationShapes.
Import Navigation.

(** One iteration of the loop of [_extract_keywords]. *)
Definition extract_step (self : NavigationService) (context : NavigationContext)
  : NavigationService :=
  match route context with
  | Some (c :: r) =>
      {| navigation_by_route :=
           dict_set (c :: r) context (navigation_by_route self);
         context_keywords :=
           dict_set (c :: r)
             (remove_dups (intent_keywords context ++ user_needs context))
             (context_keywords self) |}
  | _ => self
  end.

(** An entry of [context_keywords] and the entry of [navigation_by_route]
    at the same position, relative to the contexts they were built from. *)
Definition entry_of (navigation_contexts : list NavigationContext)
  (kv : str * list str) (nv : str * NavigationContext) : Prop :=
  fst kv = fst nv
  /\ fst kv <> []
  /\ route (snd nv) = Some (fst kv)
  /\ snd kv = remove_dups (intent_keywords (snd nv) ++ user_needs (snd nv))
  /\ snd nv ∈ navigation_contexts.

(** The dict [route_scores] that [suggest_navigations] fills, as the list
    of its items. *)
Definition route_scores {U : Unicode} (self : NavigationService)
  (message : str) (tags : Tags) : list (str * nat) :=
  map (fun '(route, keywords) =>
         (route, score_route message tags route keywords))
      (context_keywords self).

(** The scored pairs that are kept: the first three with a positive
    score, and the order "from the highest score down". *)
Definition kept {U : Unicode} (self : NavigationService)
  (message : str) (tags : Tags) : list (str * nat) :=
  take 3 (filter (fun '(_, score) => 0 < score)
            (sorted_desc (route_scores self message tags))).

Definition by_score_desc (p q : str * nat) : Prop := snd q <= snd p.

(** The six routes that the scoring rules name. *)
Definition named_routes : list str :=
  [ py "/resource-pool"; py "/podcasts"; py "/chatbot";
    py "/search-cooperatives"; py "/nearby-cooperatives"; py "/community" ].


End NavigationShapes.

(** ** The chat memory as a state machine *)

Module ChatMachine.
Import Chat.

(** The two methods that write to [chat_memory], for any user. *)
Inductive ChatOp :=
| OpAppend (user_id : str) (r : Role) (message : str) (now : str)
| OpClear (user_id : str).

Definition chat_step (chat_memory : ChatMemory) (op : ChatOp) : ChatMemory :=
  match op with
  | OpAppend user_id r message now =>
      _add_to_chat_history chat_memory user_id r message now
  | OpClear user_id => snd (clear_chat_history chat_memory user_id)
  end.

Definition chat_run (ops : list ChatOp) (chat_memory : ChatMemory) : ChatMemory :=
  fold_left chat_step ops chat_memory.

(** The user that an operation names. *)
Definition op_user (op : ChatOp) : str :=
  match op with
  | OpAppend user_id _ _ _ => user_id
  | OpClear user_id => user_id
  end.

End ChatMachine.

(** ** rag_service.py: [RAGService] *)

Module RagService.
Import Rag.

(** A string-valued key of a dict of the configuration: the key is
    missing, its value is null, or its value is a string. *)
Inductive Field :=
| Missing
| Null
| Text (s : str).

(** [d.get(key)]: [None] for a missing key and for null. *)
Definition get (field : Field) : option str :=
  match field with
  | Text s => Some s
  | Missing | Null => None
  end.

(** [d.get(key, '')] inside an f-string: a missing key prints as the empty
    string, null prints as "None". *)
Definition get_or_empty (field : Field) : str :=
  match field with
  | Missing => []
  | Null => py "None"
  | Text s => s
  end.

(** An entry of [navigation_contexts] as [RAGService] reads it; a missing
    list is empty. *)
Record NavDoc := {
  doc_route : Field;
  doc_title : Field;
  doc_description : Field;
  doc_sample_questions : list str;
  doc_user_needs : list str
}.

(** The [meta] block; missing [key_features] are [[]]. *)
Record MetaInfo := {
  app_name : Field;
  app_description : Field;
  key_features : list str
}.

Record AppContext := {
  navigation_contexts : list NavDoc;
  meta : option MetaInfo
}.

(** The metadata dicts that are stored: [{"type": "navigation", "route",
    "title", "description"}], [{"type": "meta", "content"}] and
    [{"type": "feature", "content"}]. *)
Inductive Metadata :=
| NavigationMeta (route title description : option str)
| AppMeta (content : str)
| FeatureMeta (content : str).

(** [sep.join(l)] *)
Fixpoint join (sep : str) (l : list str) : str :=
  match l with
  | [] => []
  | [x] => x
  | x :: l' => x ++ sep ++ join sep l'
  end.

(** An optional string inside an f-string: [None] prints as "None". *)
Definition show (v : option str) : str := default (py "None") v.

(** The text that is encoded for one navigation context. *)
Definition nav_text (nav : NavDoc) : str :=
  let text := get_or_empty (doc_title nav) ++ py ". "
              ++ get_or_empty (doc_description nav) ++ py "." in
  let text :=
    match doc_sample_questions nav with
    | [] => text
    | _ => text ++ py " Sample questions: "
           ++ join (py " ") (doc_sample_questions nav)
    end in
  match doc_user_needs nav with
  | [] => text
  | _ => text ++ py " User needs: " ++ join (py " ") (doc_user_needs nav)
  end.

(** The documents that [_initialize_vector_db] adds, in order, each with
    the text that is encoded and the metadata that is stored. *)
Definition documents (app_context : AppContext) : list (str * Metadata) :=
  map (fun nav =>
         (nav_text nav,
          NavigationMeta (get (doc_route nav)) (get (doc_title nav))
                         (get (doc_description nav))))
      (navigation_contexts app_context)
  ++ match meta app_context with
     | None => []
     | Some m =>
         let description := get_or_empty (app_name m) ++ py " - "
                            ++ get_or_empty (app_description m) in
         (description, AppMeta description)
         :: map (fun feature => (feature, FeatureMeta feature)) (key_features m)
     end.

Section Service.
Context {F : Type} {SF : Scalar F}.
(** [MockSentenceTransformer.encode]: a list of [dimension = 384] numbers
    drawn from a generator seeded with a hash of the text; here any
    function of the text. *)
Variable encode : str -> list F.

(** One [self.vector_db.add_document(self.encoder.encode(text), meta)];
    an exception ends the initialisation. *)
Definition add_encoded (db : Result (VectorDatabase F Metadata))
  (doc : str * Metadata) : Result (VectorDatabase F Metadata) :=
  bind db (fun db =>
    let '(result, db') := add_document db (encode (fst doc)) (snd doc) in
    bind result (fun _ => Ok db')).

(** [__init__] with [_initialize_vector_db]: the store of the service. *)
Definition _initialize_vector_db (app_context : AppContext)
  : Result (VectorDatabase F Metadata) :=
  fold_left add_encoded (documents app_context) (Ok (init default_dimension)).

(** [get_relevant_context(query, top_k=3)] *)
Definition get_relevant_context (vector_db : VectorDatabase F Metadata)
  (query : str) (top_k : Z) : Result (list Metadata) :=
  let query_vector := encode query in
  bind (search vector_db query_vector top_k) (fun results =>
  Ok (map (fun '(_, _, metadata) => metadata) results)).

(** The navigation entries among the retrieved items. *)
Definition relevant_routes (relevant_context : list Metadata)
  : list (option str * option str * option str) :=
  omap (fun ctx =>
          match ctx with
          | NavigationMeta route title description =>
              Some (route, title, description)
          | _ => None
          end)
       relevant_context.

(** [enhance_query_with_context(query)] *)
Definition enhance_query_with_context (vector_db : VectorDatabase F Metadata)
  (query : str) : Result str :=
  bind (get_relevant_context vector_db query 3) (fun relevant_context =>
  match relevant_routes relevant_context with
  | [] => Ok query
  | routes =>
      let routes_text :=
        join [10%N]
          (map (fun '(route, title, description) =>
                  py "- " ++ show route ++ py ": " ++ show title
                  ++ py " - " ++ show description)
               routes) in
      Ok (query ++ [10%N; 10%N] ++ py "Relevant app features:" ++ [10%N]
          ++ routes_text)
  end).

End Service.

End RagService.

(** ** utils/helpers.py *)

Module Helpers.
Import Language Claude.

Definition cls_any (c : N) : bool := true.
Definition cls_open (c : N) : bool := (c =? 123)%N.      (* the brace that opens *)
Definition cls_close (c : N) : bool := (c =? 125)%N.     (* the brace that closes *)

(** [r'({[\s\S]*})'] *)
Definition json_pattern : regex :=
  Group (Cat (Chr cls_open) (Cat (Star cls_any) (Chr cls_close))).

(** [re.findall(pattern, text)] for a pattern with one group that cannot
    match the empty string: the group of every match, found from left to
    right, the search resuming where the last match ended.  Each step
    consumes a character, so [fuel] above the length of the text is never
    used up. *)
Fixpoint findall_from (fuel : nat) (r : regex) (s : str) : list str :=
  match fuel with
  | 0 => []
  | S fuel' =>
      match search_at_start r s with
      | Some (groups, rest) =>
          default [] (groups !! 0) :: findall_from fuel' r rest
      | None =>
          match s with
          | [] => []
          | _ :: s' => findall_from fuel' r s'
          end
      end
  end.

Definition findall (r : regex) (text : str) : list str :=
  findall_from (S (length text)) r text.

Section Service.
(** [json.loads] on a string; [None] stands for [JSONDecodeError]. *)
Variable json_loads : str -> option json.

(** The loop over the matches: the first one that parses. *)
Fixpoint first_parsed (matches : list str) : json :=
  match matches with
  | [] => JObj []
  | m :: rest =>
      match json_loads m with
      | Some parsed => parsed
      | None => first_parsed rest
      end
  end.

(** [extract_json_from_text(text)] *)
Definition extract_json_from_text (text : str) : json :=
  match findall json_pattern text with
  | [] => JObj []
  | matches => first_parsed matches
  end.

End Service.

End Helpers.

(** ** Example replies and an example service configuration *)

Module ClaudeExamples.
Import Claude.

(** A reply in the expected shape, and the parser restricted to it. *)
Definition shaped_text : str := py "{message and tags}".

Definition shaped_reply : list (str * json) :=
  [ (py "message", JStr (py "Sow in November."));
    (py "tags", JObj [(py "crops", JArr [JStr (py "wheat")])]) ].

Definition shaped_post : Payload -> PostResult :=
  fun _ => PostReturns
    {| status_code := 200;
       body := Some (JObj [(py "content",
                            JArr [JObj [(py "type", JStr (py "text"));
                                        (py "text", JStr shaped_text)]])]) |}.

Definition shaped_loads (text : str) : option json :=
  if PyStr.eqb text shaped_text then Some (JObj shaped_reply) else None.

Definition no_content_post : Payload -> PostResult :=
  fun _ => PostReturns
    {| status_code := 200;
       body := Some (JObj [(py "id", JStr (py "msg_1"))]) |}.

End ClaudeExamples.

Module RagServiceExamples.
Import Rag RagService.

(** An encoder that maps every text to the same 384 numbers. *)
Definition flat_encoder : str -> list float :=
  fun _ => replicate 384 1%float.

(** A configuration with one navigation context, whose description is
    null, and a [meta] block with two key features. *)
Definition one_route : AppContext :=
  {| navigation_contexts :=
       [ {| doc_route := Text (py "/tools");
            doc_title := Text (py "Tools");
            doc_description := Null;
            doc_sample_questions := [py "Where can I rent a tractor?"];
            doc_user_needs := [] |} ];
     meta := Some {| app_name := Text (py "CropConnect");
                     app_description := Text (py "Farming assistant");
                     key_features := [py "Marketplace"; py "Weather"] |} |}.

(** A configuration with a [meta] block only. *)
Definition meta_only : AppContext :=
  {| navigation_contexts := [];
     meta := Some {| app_name := Text (py "CropConnect");
                     app_description := Missing;
                     key_features := [py "Marketplace"] |} |}.

End RagServiceExamples.

(** ** Sequences of insertions *)

Module RagBatch.
Import Rag.

Section Batch.
Context {F : Type} {Meta : Type}.

(** A caller's loop [for v, m in docs: db.add_document(v, m)], an
    insertion that raises being caught and skipped: the results in order
    and the store at the end. *)
Fixpoint add_documents (db : VectorDatabase F Meta) (docs : list (list F * Meta))
  : list (Result nat) * VectorDatabase F Meta :=
  match docs with
  | [] => ([], db)
  | (v, m) :: rest =>
      let '(result, db') := add_document db v m in
      let '(results, db'') := add_documents db' rest in
      (result :: results, db'')
  end.

(** The documents of the configured length. *)
Definition fits (db : VectorDatabase F Meta) (doc : list F * Meta) : bool :=
  (Z.of_nat (length (fst doc)) =? dimension db)%Z.

(** The ids that were handed out. *)
Definition ids_of (results : list (Result nat)) : list nat :=
  omap (fun r => match r with Ok id => Some id | Raise _ => None end) results.

End Batch.
End RagBatch.

(** ** main.py: the reply of the model inside [chat] *)

Module MainChat.
Import Claude Navigation.

(** [s.find(c)] for a character [c]; [None] stands for [-1]. *)
Fixpoint find (c : N) (s : str) : option nat :=
  match s with
  | [] => None
  | x :: s' => if (x =? c)%N then Some 0 else option_map S (find c s')
  end.

(** [s.rfind(c)] for a character [c]; [None] stands for [-1]. *)
Fixpoint rfind (c : N) (s : str) : option nat :=
  match s with
  | [] => None
  | x :: s' =>
      match rfind c s' with
      | Some i => Some (S i)
      | None => if (x =? c)%N then Some 0 else None
      end
  end.

Definition index (i : option nat) : Z :=
  match i with
  | Some i => Z.of_nat i
  | None => -1
  end.

(** [s[start:stop]] for [0 <= start]. *)
Definition slice (s : str) (start stop : Z) : str :=
  take (Z.to_nat stop - Z.to_nat start) (drop (Z.to_nat start) s).

Definition open_brace : N := 123.
Definition close_brace : N := 125.

(** The tags of a reply that holds no JSON. *)
Definition empty_tags : list (str * json) :=
  [ (py "crops", JArr []);
    (py "city", JNull);
    (py "topics", JArr []);
    (py "issues", JArr []);
    (py "seasons", JArr []) ].

Definition list_keys : list str :=
  [py "crops"; py "topics"; py "issues"; py "seasons"].

(** The exceptions that the block can raise besides [json.JSONDecodeError];
    the handler turns each into a response with status 500. *)
Inductive Failure :=
| AttributeError   (* [parsed_response.get] on a value that is no dict *)
| TagsTypeError.   (* [key not in tags], [tags[key]] or [tags[key] = []]
                      on a value that is no dict *)

Inductive Parsed :=
| Answer (message : json) (tags : list (str * json))
| Fails (e : Failure).

(** One round of [for key in [...]: if key not in tags or tags[key] is
    None: tags[key] = []]. *)
Definition ensure_list (tags : list (str * json)) (key : str)
  : list (str * json) :=
  match lookup_field key tags with
  | None | Some JNull => dict_set key (JArr []) tags
  | Some _ => tags
  end.

(** [key] is present in [tags] with a value other than [None]. *)
Definition listed (tags : list (str * json)) (key : str) : Prop :=
  exists v, lookup_field key tags = Some v /\ v <> JNull.

Section Service.
Variable json_loads : str -> option json.

(** The block "Try to parse as JSON" of [chat], from the text of the
    reply to [message] and [tags]. *)
Definition parse_response_text (response_text : str) : Parsed :=
  let json_start := index (find open_brace response_text) in
  let json_end := (index (rfind close_brace response_text) + 1)%Z in
  if (0 <=? json_start)%Z && (json_start <? json_end)%Z then
    let json_str := slice response_text json_start json_end in
    match json_loads json_str with
    | None => Answer (JStr response_text) empty_tags
    | Some (JObj parsed_response) =>
        let message :=
          default (JStr response_text)
                  (lookup_field (py "message") parsed_response) in
        match default (JObj []) (lookup_field (py "tags") parsed_response) with
        | JObj tags => Answer message (fold_left ensure_list list_keys tags)
        | _ => Fails TagsTypeError
        end
    | Some _ => Fails AttributeError
    end
  else Answer (JStr response_text) empty_tags.

End Service.

End MainChat.

(* ================================================================== *)
(** * Part II: theorems                                                *)
(* ================================================================== *)

(** ** The vector store: add, save, load *)

Module RagFacts.
Import Rag RagMachine Examples.

Section Store.
Context {F : Type} {SF : Scalar F} {Meta : Type}.
Implicit Types (db : VectorDatabase F Meta) (v : list F) (m : Meta).
Implicit Types (fs : gmap str (FileContent F Meta)).

Lemma add_document_mismatch db v m :
  Z.of_nat (length v) <> dimension db ->
  add_document db v m
  = (Raise (ValueError_dimension (dimension db) (length v)), db).
Proof.
  intros Hne. unfold add_document.
  destruct (Z.eqb_spec (Z.of_nat (length v)) (dimension db)) as [Heq | _].
  - contradiction.
  - reflexivity.
Qed.

Lemma add_document_match db v m :
  Z.of_nat (length v) = dimension db ->
  add_document db v m
  = (Ok (length (vectors db)),
     {| vectors := vectors db ++ [v];
        metadata := metadata db ++ [m];
        dimension := dimension db |}).
Proof.
  intros Heq. unfold add_document.
  destruct (Z.eqb_spec (Z.of_nat (length v)) (dimension db)) as [_ | Hne].
  - reflexivity.
  - contradiction.
Qed.

(** C2.  [add_document] with a vector whose length differs from the
    configured dimension raises the dimension-mismatch [ValueError] and
    leaves vectors, metadata and dimension as they were; with a vector of
    the configured length it succeeds, appends the vector and its metadata
    at the end, and returns the number of vectors held before the call (so
    ids are 0, 1, 2, ... in insertion order). *)
Theorem add_document_contract db v m :
  (Z.of_nat (length v) <> dimension db ->
     fst (add_document db v m)
     = Raise (ValueError_dimension (dimension db) (length v))
     /\ snd (add_document db v m) = db)
  /\ (Z.of_nat (length v) = dimension db ->
     let db' := snd (add_document db v m) in
     fst (add_document db v m) = Ok (length (vectors db))
     /\ vectors db' = vectors db ++ [v]
     /\ metadata db' = metadata db ++ [m]
     /\ dimension db' = dimension db
     /\ vectors db' !! length (vectors db) = Some v).
Proof.
  split; intros H.
  - rewrite (add_document_mismatch _ _ _ H). split; reflexivity.
  - rewrite (add_document_match _ _ _ H). cbn.
    repeat split; try reflexivity.
    rewrite lookup_app_r by lia. by rewrite Nat.sub_diag.
Qed.

Lemma load_after_save db fresh filepath fs :
  load fresh filepath (save db filepath fs) = (Ok tt, db).
Proof.
  unfold load, save. rewrite lookup_insert_eq. destruct db; reflexivity.
Qed.

Lemma load_missing db filepath fs :
  fs !! filepath = None -> load db filepath fs = (Ok tt, db).
Proof. intros H. unfold load. by rewrite H. Qed.

Lemma load_full db filepath fs d vs ms :
  fs !! filepath
  = Some (JsonObject {| data_dimension := Some d; data_vectors := Some vs;
                        data_metadata := Some ms |}) ->
  load db filepath fs
  = (Ok tt, {| vectors := vs; metadata := ms; dimension := d |}).
Proof. intros H. unfold load. by rewrite H. Qed.

(** ** The length invariant *)

Lemma uniform_init d : uniform (init (F:=F) (Meta:=Meta) d).
Proof. unfold uniform, init. cbn. constructor. Qed.

Lemma uniform_add db v m : uniform db -> uniform (snd (add_document db v m)).
Proof.
  intros Hu. unfold add_document.
  destruct (Z.eqb_spec (Z.of_nat (length v)) (dimension db)) as [Heq | Hne]; cbn.
  - unfold uniform in *. cbn. apply Forall_app. split; [exact Hu |].
    constructor; [exact Heq | constructor].
  - exact Hu.
Qed.

Lemma consistent_save db filepath fs :
  uniform db -> consistent_files fs -> consistent_files (save db filepath fs).
Proof.
  intros Hu Hfs p c. unfold save.
  destruct (decide (filepath = p)) as [-> | Hne].
  - rewrite lookup_insert_eq. intros [= <-]. cbn.
    exists (dimension db), (vectors db). auto.
  - rewrite lookup_insert_ne by exact Hne. apply Hfs.
Qed.

Lemma uniform_load db filepath fs :
  uniform db -> consistent_files fs -> uniform (snd (load db filepath fs)).
Proof.
  intros Hu Hfs. unfold load.
  destruct (fs !! filepath) as [c |] eqn:Hc; [| exact Hu].
  destruct c as [| data]; [exact Hu |].
  destruct (Hfs _ _ Hc) as (d & vs & Hd & Hvs & Hall).
  unfold uniform. cbn. rewrite Hd, Hvs. exact Hall.
Qed.

Lemma step_invariant (st : State F Meta) (op : Op F Meta) :
  uniform (fst st) /\ consistent_files (snd st) ->
  uniform (fst (step st op)) /\ consistent_files (snd (step st op)).
Proof.
  destruct st as [db fs]. cbn [fst snd]. intros [Hu Hfs].
  destruct op; cbn [step fst snd].
  - split; [by apply uniform_add | exact Hfs].
  - split; assumption.
  - split; [exact Hu | by apply consistent_save].
  - split; [by apply uniform_load | exact Hfs].
Qed.

Lemma run_invariant (ops : list (Op F Meta)) (st : State F Meta) :
  uniform (fst st) /\ consistent_files (snd st) ->
  uniform (fst (run ops st)) /\ consistent_files (snd (run ops st)).
Proof.
  revert st. induction ops as [| op ops IH]; intros st Hst.
  - exact Hst.
  - cbn. apply IH. by apply step_invariant.
Qed.

(** C5 (amended).  [save(path)] followed by [load(path)] on any other
    store gives back the saved dimension, vectors and metadata.  A load of
    a file that holds the three keys, as every saved file does, replaces
    the whole state; in every load of a JSON object the vectors and the
    metadata come from the file alone (an absent key gives the empty list,
    nothing is merged), while an absent [dimension] key keeps the current
    dimension; a missing file leaves the store as it is. *)
Theorem save_load_round_trip :
  (forall db fresh filepath fs,
      load fresh filepath (save db filepath fs) = (Ok tt, db))
  /\ (forall db filepath fs d vs ms,
      fs !! filepath
      = Some (JsonObject {| data_dimension := Some d; data_vectors := Some vs;
                            data_metadata := Some ms |}) ->
      load db filepath fs
      = (Ok tt, {| vectors := vs; metadata := ms; dimension := d |}))
  /\ (forall db filepath fs data,
      fs !! filepath = Some (JsonObject data) ->
      let db' := snd (load db filepath fs) in
      vectors db' = default [] (data_vectors data)
      /\ metadata db' = default [] (data_metadata data)
      /\ dimension db' = default (dimension db) (data_dimension data))
  /\ (forall db filepath fs,
      fs !! filepath = None -> load db filepath fs = (Ok tt, db)).
Proof.
  split; [| split; [| split]].
  - apply load_after_save.
  - apply load_full.
  - intros db filepath fs data H. unfold load. rewrite H. cbn. auto.
  - apply load_missing.
Qed.

(** C6 (amended).  The invariant "every stored vector has the configured
    length" holds for a new store and is kept by every sequence of add,
    search, save and load, as long as the files that are loaded are
    consistent, which every file written by [save] from such a store is
    ([load] itself validates nothing); and [add_document] rejects every
    vector of another length. *)
Theorem uniform_invariant :
  (forall d, uniform (init (F:=F) (Meta:=Meta) d))
  /\ (forall (ops : list (Op F Meta)) (st : State F Meta),
      uniform (fst st) -> consistent_files (snd st) ->
      uniform (fst (run ops st)) /\ consistent_files (snd (run ops st)))
  /\ (forall d (ops : list (Op F Meta)), uniform (fst (run ops (init d, ∅))))
  /\ (forall db v m,
      Z.of_nat (length v) <> dimension db ->
      add_document db v m
      = (Raise (ValueError_dimension (dimension db) (length v)), db)).
Proof.
  split; [| split; [| split]].
  - apply uniform_init.
  - intros ops st Hu Hfs. by apply run_invariant.
  - intros d ops. apply run_invariant. cbn. split; [apply uniform_init |].
    intros p c Hp. by rewrite lookup_empty in Hp.
  - apply add_document_mismatch.
Qed.

End Store.

Lemma add_document_contract_witness :
  (fst (add_document (Meta:=unit) (init 2) [1%float] tt)
   = Raise (ValueError_dimension 2 1)
   /\ snd (add_document (Meta:=unit) (init 2) [1%float] tt) = init 2)
  /\ fst (add_document (Meta:=unit) (init 2) [1%float; 0%float] tt) = Ok 0.
Proof.
  split.
  - apply (add_document_contract (init 2) [1%float] tt). cbn. lia.
  - apply (add_document_contract (init 2) [1%float; 0%float] tt). reflexivity.
Defined.

(** C5, as stated, fails: the state after a load is not always determined
    by the file.  Loading [partial_file] into stores of dimension 3 and 5
    gives stores of dimension 3 and 5. *)
Lemma load_keeps_previous_dimension :
  ~ (forall (db1 db2 : VectorDatabase float unit) filepath fs,
        is_Some (fs !! filepath) ->
        snd (load db1 filepath fs) = snd (load db2 filepath fs)).
Proof.
  intros H.
  specialize (H (init 3) (init 5) store_path {[ store_path := partial_file ]}).
  rewrite lookup_singleton_eq in H. specialize (H (mk_is_Some _ _ eq_refl)).
  discriminate H.
Qed.

Lemma save_load_round_trip_witness :
  load (init default_dimension) store_path
    {[ store_path := JsonObject {| data_dimension := Some 1%Z;
                                   data_vectors := Some [[1%float]];
                                   data_metadata := Some [tt] |} ]}
  = (Ok tt, {| vectors := [[1%float]]; metadata := [tt]; dimension := 1 |})
  /\ dimension (snd (load (init 3) store_path {[ store_path := partial_file ]}))
     = 3%Z
  /\ load (F:=float) (Meta:=unit) (init 3) store_path ∅ = (Ok tt, init 3).
Proof.
  destruct (save_load_round_trip (F:=float) (Meta:=unit))
    as (_ & Hfull & Hpart & Hmissing).
  split; [| split].
  - apply Hfull. apply lookup_singleton_eq.
  - apply (Hpart (init 3) store_path {[ store_path := partial_file ]}
             {| data_dimension := None; data_vectors := Some [[1%float]];
                data_metadata := Some [tt] |}).
    apply lookup_singleton_eq.
  - apply Hmissing. apply lookup_empty.
Defined.

(** C6, as stated, fails for [load]: loading [ragged_file] into a new
    store gives a store of dimension 2 that holds a vector of length 1. *)
Lemma load_breaks_uniform :
  ~ (forall (db : VectorDatabase float unit) filepath fs,
        uniform db -> uniform (snd (load db filepath fs))).
Proof.
  intros H.
  specialize (H (init default_dimension) store_path
                {[ store_path := ragged_file ]} (uniform_init _)).
  unfold load in H. rewrite lookup_singleton_eq in H.
  unfold uniform in H. cbn in H. inversion H as [| ? ? Hlen _]. discriminate Hlen.
Qed.

Lemma uniform_invariant_witness :
  uniform
    (fst (run [OpAdd [1%float; 2%float] tt; OpSave store_path;
               OpAdd [3%float] tt; OpSearch [1%float; 0%float] 1;
               OpLoad store_path]
              (init (F:=float) (Meta:=unit) 2, ∅)))
  /\ add_document (Meta:=unit) (init 2) [3%float] tt
     = (Raise (ValueError_dimension 2 1), init 2).
Proof.
  destruct (uniform_invariant (F:=float) (Meta:=unit))
    as (Hinit & Hrun & _ & Hreject).
  split.
  - apply Hrun.
    + apply Hinit.
    + intros p c Hp. cbn in Hp. by rewrite lookup_empty in Hp.
  - apply Hreject. cbn. lia.
Defined.

End RagFacts.

(** ** The chat history *)

Module ChatFacts.
Import Chat Examples.

Lemma last10_short {A} (l : list A) : length l <= 10 -> last10 l = l.
Proof.
  intros H. unfold last10. replace (length l - 10) with 0 by lia. reflexivity.
Qed.

Lemma last10_length {A} (l : list A) : length (last10 l) = min (length l) 10.
Proof. unfold last10. rewrite length_drop. lia. Qed.

(** Truncating early does not change what a later truncation keeps. *)
Lemma last10_app {A} (h l : list A) :
  l <> [] -> last10 (last10 h ++ l) = last10 (h ++ l).
Proof.
  intros Hl. destruct (decide (length h <= 10)) as [Hle | Hgt].
  - by rewrite (last10_short h).
  - assert (0 < length l) by (destruct l; [done | cbn; lia]).
    unfold last10 at 1 3.
    rewrite !length_app, last10_length.
    rewrite Nat.min_r by lia.
    replace (10 + length l - 10) with (length l) by lia.
    replace (length h + length l - 10) with ((length h - 10) + length l) by lia.
    rewrite <- drop_drop. f_equal.
    unfold last10. rewrite drop_app_le by lia. reflexivity.
Qed.

Lemma add_lookup (mem : ChatMemory) uid r msg now :
  get_chat_history (_add_to_chat_history mem uid r msg now) uid
  = last10 (get_chat_history mem uid
            ++ [{| role := r; content := msg; timestamp := now |}]).
Proof.
  unfold _add_to_chat_history, get_chat_history.
  set (e := {| role := r; content := msg; timestamp := now |}).
  assert (Hh : default [] ((match mem !! uid with
                            | Some _ => mem
                            | None => <[uid := []]> mem
                            end) !! uid)
               = default [] (mem !! uid)).
  { destruct (mem !! uid) eqn:E; [by rewrite E | by rewrite lookup_insert_eq]. }
  rewrite Hh.
  destruct (Nat.ltb_spec 10 (length (default [] (mem !! uid) ++ [e]))) as [Hgt | Hle].
  - by rewrite lookup_insert_eq.
  - rewrite lookup_insert_eq. cbn. by rewrite last10_short.
Qed.

Lemma add_lookup_other (mem : ChatMemory) uid other r msg now :
  other <> uid ->
  get_chat_history (_add_to_chat_history mem uid r msg now) other
  = get_chat_history mem other.
Proof.
  intros Hne. unfold _add_to_chat_history, get_chat_history.
  assert (Hne' : uid <> other) by congruence.
  destruct (10 <? _); rewrite ?lookup_insert_ne by exact Hne';
    destruct (mem !! uid); by rewrite ?lookup_insert_ne by exact Hne'.
Qed.

Lemma pair_lookup (mem : ChatMemory) uid msg advice now1 now2 :
  get_chat_history (record_turn_pair mem uid msg advice now1 now2) uid
  = last10 (get_chat_history mem uid
            ++ turns_of [(msg, advice, now1, now2)]).
Proof.
  unfold record_turn_pair. rewrite !add_lookup.
  rewrite last10_app by discriminate.
  rewrite <- app_assoc. reflexivity.
Qed.

Lemma pairs_lookup requests : forall (mem : ChatMemory) uid,
  requests <> [] ->
  get_chat_history (record_turn_pairs mem uid requests) uid
  = last10 (get_chat_history mem uid ++ turns_of requests).
Proof.
  induction requests as [| [[[msg advice] now1] now2] rest IH]; intros mem uid Hne.
  - contradiction.
  - unfold record_turn_pairs. cbn [fold_left].
    destruct rest as [| q rest'].
    + cbn [fold_left]. apply pair_lookup.
    + fold (record_turn_pairs (record_turn_pair mem uid msg advice now1 now2)
              uid (q :: rest')).
      rewrite IH by discriminate. rewrite pair_lookup.
      rewrite last10_app.
      * rewrite <- app_assoc. reflexivity.
      * destruct q as [[[? ?] ?] ?]. discriminate.
Qed.

Lemma turns_of_length requests : length (turns_of requests) = 2 * length requests.
Proof.
  induction requests as [| [[[msg advice] now1] now2] rest IH]; [reflexivity |].
  change (length (turns_of ((msg, advice, now1, now2) :: rest)))
    with (S (S (length (turns_of rest)))).
  rewrite IH. cbn [length]. lia.
Qed.

(** C7.  Every append through [_add_to_chat_history] leaves the user's
    history as the last 10 entries of the old history followed by the new
    entry: at most 10 entries, the oldest dropped first, the order kept,
    and no other user's history touched.  After six requests of one user
    (twelve appends) the stored history has exactly 10 entries: the last
    ten of the twelve, in order, whatever was stored before.  The handler
    of main.py, which appends both turns before it truncates, keeps the
    same bound. *)
Theorem chat_history_capped :
  (forall (mem : ChatMemory) uid r msg now,
      let h := get_chat_history (_add_to_chat_history mem uid r msg now) uid in
      h = last10 (get_chat_history mem uid
                  ++ [{| role := r; content := msg; timestamp := now |}])
      /\ length h <= 10)
  /\ (forall (mem : ChatMemory) uid other r msg now,
      other <> uid ->
      get_chat_history (_add_to_chat_history mem uid r msg now) other
      = get_chat_history mem other)
  /\ (forall (mem : ChatMemory) uid requests,
      length requests = 6 ->
      let h := get_chat_history (record_turn_pairs mem uid requests) uid in
      length h = 10 /\ h = drop 2 (turns_of requests))
  /\ (forall T (chat_history : gmap str (list T)) uid user_turn assistant_turn,
      length (default [] (main_store_turns chat_history uid
                            user_turn assistant_turn !! uid)) <= 10).
Proof.
  split; [| split; [| split]].
  - intros mem uid r msg now h. subst h. rewrite add_lookup.
    split; [reflexivity |]. rewrite last10_length. lia.
  - intros. by apply add_lookup_other.
  - intros mem uid requests Hlen h. subst h.
    rewrite pairs_lookup by (destruct requests; [discriminate | done]).
    pose proof (turns_of_length requests) as Ht. rewrite Hlen in Ht.
    split.
    + rewrite last10_length, length_app. lia.
    + unfold last10. rewrite length_app, Ht.
      replace (length (get_chat_history mem uid) + 2 * 6 - 10)
        with (length (get_chat_history mem uid) + 2) by lia.
      rewrite <- drop_drop. rewrite drop_app_length. reflexivity.
  - intros T chat_history uid user_turn assistant_turn. unfold main_store_turns.
    destruct (Nat.ltb_spec 10
                (length (default [] (chat_history !! uid)
                         ++ [user_turn] ++ [assistant_turn]))) as [Hgt | Hle];
      rewrite lookup_insert_eq; cbn [from_option]; unfold Datatypes.id.
    + rewrite last10_length. lia.
    + exact Hle.
Qed.

Lemma chat_history_capped_witness :
  map content (get_chat_history (record_turn_pairs ∅ (py "farmer") six_requests)
                 (py "farmer"))
  = [ py "q2"; py "a2"; py "q3"; py "a3"; py "q4"; py "a4"; py "q5"; py "a5";
      py "q6"; py "a6" ]
  /\ get_chat_history
       (_add_to_chat_history ∅ (py "farmer") user (py "q1") []) (py "other")
     = [].
Proof.
  destruct chat_history_capped as (_ & Hother & Hsix & _).
  split.
  - destruct (Hsix ∅ (py "farmer") six_requests eq_refl) as [_ ->].
    reflexivity.
  - rewrite Hother by discriminate. reflexivity.
Defined.

End ChatFacts.

(** ** The upstream reply *)

Module ClaudeFacts.
Import Claude Examples.

Section Service.
Variable post : Payload -> PostResult.
Variable json_loads : str -> option json.
Variable exn_str : PyExn -> str.
Variable prompt_text : str -> str -> str.

#[local] Abbreviation payload := (request_payload prompt_text).
#[local] Abbreviation respond :=
  (generate_farming_response post json_loads exn_str prompt_text).

Lemma respond_returns message language navs :
  exists msg tags, respond message language navs = Returned (msg, tags).
Proof.
  unfold generate_farming_response.
  destruct (try_body _ _ _) as [[msg tags] | e]; eauto.
Qed.

Lemma respond_bad_status message language navs response :
  post (payload message language navs) = PostReturns response ->
  status_code response <> 200%Z ->
  respond message language navs
  = Returned (JStr (py "API Error: " ++ PyStr.of_Z (status_code response)),
              _default_tags).
Proof.
  intros Hpost Hstatus. unfold generate_farming_response, try_body.
  rewrite Hpost.
  destruct (Z.eqb_spec (status_code response) 200) as [Heq | _]; [contradiction |].
  reflexivity.
Qed.

Lemma respond_transport_failure message language navs e :
  post (payload message language navs) = PostRaises e ->
  respond message language navs
  = Returned (JStr (py "Error communicating with Claude API: " ++ exn_str e),
              _default_tags).
Proof.
  intros Hpost. unfold generate_farming_response, try_body.
  rewrite Hpost. reflexivity.
Qed.

Lemma parse_reply_unexpected text :
  (forall j, json_loads text = Some j -> ~ expected_shape j) ->
  parse_reply json_loads (JStr text) = Returned (JStr text, _default_tags).
Proof.
  intros Hshape. unfold parse_reply.
  destruct (json_loads text) as [j |] eqn:Hj; [| reflexivity].
  destruct j as [| | | | | fields]; try reflexivity.
  destruct (lookup_field (py "message") fields) as [message |] eqn:Hm;
    [| reflexivity].
  destruct (lookup_field (py "tags") fields) as [tags |] eqn:Ht;
    [| reflexivity].
  exfalso. apply (Hshape _ eq_refl). exists fields, message, tags. auto.
Qed.

Lemma respond_unexpected_reply message language navs response data text :
  post (payload message language navs) = PostReturns response ->
  status_code response = 200%Z ->
  body response = Some data ->
  extract_text data = Returned (JStr text) ->
  (forall j, json_loads text = Some j -> ~ expected_shape j) ->
  respond message language navs = Returned (JStr text, _default_tags).
Proof.
  intros Hpost Hstatus Hbody Htext Hshape.
  unfold generate_farming_response, try_body.
  rewrite Hpost, Hstatus, Hbody, Htext. cbn [Z.eqb Pos.eqb negb and_then].
  rewrite (parse_reply_unexpected _ Hshape). reflexivity.
Qed.

(** C8.  [generate_farming_response] always returns a pair and never an
    exception.  An upstream status that is not 2xx (indeed any status other
    than 200) gives the message "API Error: <status>", a transport failure
    gives "Error communicating with Claude API: <error>", both with the
    default tags; a reply text that does not parse to an object with the
    keys [message] and [tags] is returned verbatim as the message, with the
    default tags.  The default tags are empty lists for crops, topics,
    issues and seasons, and null for city. *)
Theorem generate_farming_response_degrades :
  (forall message language navs,
      exists msg tags, respond message language navs = Returned (msg, tags))
  /\ (forall message language navs response,
      post (payload message language navs) = PostReturns response ->
      ~ (200 <= status_code response < 300)%Z ->
      respond message language navs
      = Returned (JStr (py "API Error: " ++ PyStr.of_Z (status_code response)),
                  _default_tags))
  /\ (forall message language navs e,
      post (payload message language navs) = PostRaises e ->
      respond message language navs
      = Returned (JStr (py "Error communicating with Claude API: " ++ exn_str e),
                  _default_tags))
  /\ (forall message language navs response data text,
      post (payload message language navs) = PostReturns response ->
      status_code response = 200%Z ->
      body response = Some data ->
      extract_text data = Returned (JStr text) ->
      (forall j, json_loads text = Some j -> ~ expected_shape j) ->
      respond message language navs = Returned (JStr text, _default_tags))
  /\ _default_tags
     = JObj [ (py "crops", JArr []); (py "city", JNull); (py "topics", JArr []);
              (py "issues", JArr []); (py "seasons", JArr []) ].
Proof.
  split; [| split; [| split; [| split]]].
  - apply respond_returns.
  - intros message language navs response Hpost Hstatus.
    apply respond_bad_status; [exact Hpost | lia].
  - apply respond_transport_failure.
  - apply respond_unexpected_reply.
  - reflexivity.
Qed.

End Service.

Lemma generate_farming_response_degrades_witness :
  generate_farming_response overloaded (fun _ => None) show_exn no_prompt
    (py "my wheat is yellow") (py "en") []
  = Returned (JStr (py "API Error: 529"), _default_tags)
  /\ generate_farming_response unreachable (fun _ => None) show_exn no_prompt
       (py "my wheat is yellow") (py "en") []
     = Returned (JStr (py "Error communicating with Claude API: timed out"),
                 _default_tags)
  /\ generate_farming_response plain_text_reply (fun _ => None) show_exn no_prompt
       (py "my wheat is yellow") (py "en") []
     = Returned (JStr (py "Water early."), _default_tags).
Proof.
  split; [| split].
  - destruct (generate_farming_response_degrades overloaded (fun _ => None)
                show_exn no_prompt) as (_ & Hstatus & _).
    apply (Hstatus _ _ _ {| status_code := 529; body := None |} eq_refl).
    cbn. lia.
  - destruct (generate_farming_response_degrades unreachable (fun _ => None)
                show_exn no_prompt) as (_ & _ & Hfail & _).
    apply (Hfail _ _ _ (TransportError (py "timed out")) eq_refl).
  - destruct (generate_farming_response_degrades plain_text_reply (fun _ => None)
                show_exn no_prompt) as (_ & _ & _ & Hreply & _).
    apply (Hreply _ _ _ _ _ (py "Water early.") eq_refl eq_refl eq_refl eq_refl).
    intros j Hj. discriminate Hj.
Defined.

End ClaudeFacts.

(** ** The explicit language prefix *)

Module LanguageFacts.
Import Language.

Ltac bool_to_prop :=
  rewrite ?orb_true_iff, ?andb_true_iff, ?N.leb_le, ?N.eqb_eq, ?N.ltb_lt in *.

Lemma letter_not_space c : cls_letter c = true -> isspace c = false.
Proof.
  intros H. apply not_true_is_false. intros Hs. revert H Hs.
  unfold cls_letter, isspace, is_ascii_letter, is_ascii_upper, is_ascii_lower.
  bool_to_prop. lia.
Qed.

Lemma delim_not_letter c : cls_delim c = true -> cls_letter c = false.
Proof.
  intros H. apply not_true_is_false. intros Hs. revert H Hs.
  unfold cls_delim, cls_letter, isspace, is_ascii_letter, is_ascii_upper,
    is_ascii_lower.
  bool_to_prop. lia.
Qed.

Lemma ascii_letter_cls c : is_ascii_letter c = true -> cls_letter c = true.
Proof. intros H. unfold cls_letter. by rewrite H. Qed.

Lemma ascii_letter_basic c : is_ascii_letter c = true -> basic c = true.
Proof.
  unfold is_ascii_letter, is_ascii_upper, is_ascii_lower, basic.
  bool_to_prop. lia.
Qed.

Lemma forallb_weaken {A} (p q : A -> bool) (l : list A) :
  (forall x, p x = true -> q x = true) ->
  forallb p l = true -> forallb q l = true.
Proof.
  intros Hpq. induction l as [| x l IH]; [reflexivity |]. cbn.
  rewrite !andb_true_iff. intros [Hx Hl]. auto.
Qed.

(** A run of [cls] ends where the text does or at the first character
    outside [cls]. *)
Lemma run_length_app cls (pre post : str) :
  forallb cls pre = true ->
  match post with [] => True | c :: _ => cls c = false end ->
  run_length cls (pre ++ post) = length pre.
Proof.
  intros Hpre Hpost. induction pre as [| c pre IH]; cbn in *.
  - destruct post as [| c post]; [reflexivity |]. cbn. by rewrite Hpost.
  - apply andb_true_iff in Hpre as [Hc Hpre]. rewrite Hc. f_equal. by apply IH.
Qed.

(** The greedy choice is taken when the rest of the pattern accepts it. *)
Lemma try_lengths_first {A} (s : str) (k : str -> option A) least n a :
  k (drop n s) = Some a -> try_lengths s k least n = Some a.
Proof. intros H. destruct n; cbn; by rewrite H. Qed.

Section Service.
Context {U : Unicode}.
Variable detect : str -> option str.

(** On a text of the shape [in<spaces><letters><delimiter>...] the pattern
    matches, the group is the run of letters, and the match ends after the
    delimiter. *)
Lemma explicit_pattern_matches ci cn (ws w : str) d (rest : str) :
  cls_i ci = true -> cls_n cn = true ->
  ws <> [] -> forallb isspace ws = true ->
  w <> [] -> forallb cls_letter w = true ->
  cls_delim d = true ->
  forall A (k : str -> list str -> option A) a,
    k rest [w] = Some a ->
    rmatch explicit_pattern (ci :: cn :: ws ++ w ++ d :: rest) [] k = Some a.
Proof.
  intros Hci Hcn Hws Hspace Hw Hletters Hd A k a Hk.
  unfold explicit_pattern. cbn [rmatch]. rewrite Hci, Hcn.
  assert (Hrun1 : run_length isspace (ws ++ w ++ d :: rest) = length ws).
  { apply run_length_app; [exact Hspace |].
    destruct w as [| c w']; [done |]. cbn.
    apply andb_true_iff in Hletters as [Hc _]. by apply letter_not_space. }
  assert (Hrun2 : run_length cls_letter (w ++ d :: rest) = length w).
  { apply run_length_app; [exact Hletters |]. by apply delim_not_letter. }
  rewrite Hrun1.
  destruct (Nat.eqb_spec (length ws) 0) as [E | _];
    [by destruct ws |].
  apply try_lengths_first. rewrite drop_app_length, Hrun2.
  destruct (Nat.eqb_spec (length w) 0) as [E | _]; [by destruct w |].
  apply try_lengths_first. rewrite drop_app_length. rewrite Hd.
  cbn [app]. rewrite length_app. cbn [length].
  rewrite take_app_length'; [exact Hk | lia].
Qed.

Lemma search_explicit ci cn (ws w : str) d (rest : str) :
  cls_i ci = true -> cls_n cn = true ->
  ws <> [] -> forallb isspace ws = true ->
  w <> [] -> forallb cls_letter w = true ->
  cls_delim d = true ->
  search_at_start explicit_pattern (ci :: cn :: ws ++ w ++ d :: rest)
  = Some ([w], rest).
Proof.
  intros. unfold search_at_start. by apply explicit_pattern_matches.
Qed.

Lemma clean_explicit ci cn (ws w : str) d (rest : str) :
  cls_i ci = true -> cls_n cn = true ->
  ws <> [] -> forallb isspace ws = true ->
  w <> [] -> forallb cls_letter w = true ->
  cls_delim d = true ->
  clean_language_prefix (ci :: cn :: ws ++ w ++ d :: rest)
  = drop (run_length isspace rest) rest.
Proof.
  intros Hci Hcn Hws Hspace Hw Hletters Hd.
  unfold clean_language_prefix, sub_at_start, search_at_start, prefix_pattern.
  cbn [rmatch].
  rewrite (explicit_pattern_matches ci cn ws w d rest Hci Hcn Hws Hspace Hw
             Hletters Hd _ _ ([w], drop (run_length isspace rest) rest));
    [reflexivity |].
  cbn [rmatch]. apply try_lengths_first. reflexivity.
Qed.

(** The display names are ASCII, so their lower-casing is the table's. *)
Lemma find_display_name (lang_name : str) :
  find (fun '(code, name) => contains lang_name (lower name)) SUPPORTED_LANGUAGES
  = find (fun '(code, name) => contains lang_name (flat_map lower_basic name))
         SUPPORTED_LANGUAGES.
Proof.
  unfold SUPPORTED_LANGUAGES. cbn [find].
  rewrite !lower_on_basic by reflexivity. reflexivity.
Qed.

Lemma lower_letters (w : str) :
  forallb is_ascii_letter w = true -> lower w = flat_map lower_basic w.
Proof.
  intros H. apply lower_on_basic.
  revert H. apply forallb_weaken, ascii_letter_basic.
Qed.

Lemma lower_display_name code name :
  In (code, name) SUPPORTED_LANGUAGES -> lower name = flat_map lower_basic name.
Proof.
  intros Hin. apply lower_on_basic.
  unfold SUPPORTED_LANGUAGES in Hin. cbn in Hin.
  repeat (destruct Hin as [[= <- <-] | Hin]; [reflexivity |]).
  contradiction.
Qed.

Lemma extract_named ci cn (ws w : str) d (rest : str) code :
  cls_i ci = true -> cls_n cn = true ->
  ws <> [] -> forallb isspace ws = true ->
  forallb is_ascii_letter w = true ->
  cls_delim d = true ->
  names w code ->
  _extract_explicit_language (ci :: cn :: ws ++ w ++ d :: rest) = Some code
  /\ code <> [].
Proof.
  intros Hci Hcn Hws Hspace Hw Hd (name & Hin & Hname).
  rewrite (lower_display_name _ _ Hin) in Hname.
  rewrite (lower_letters w Hw) in Hname.
  assert (Hne : w <> []).
  { intros ->. cbn in Hname. unfold SUPPORTED_LANGUAGES in Hin. cbn in Hin.
    repeat (destruct Hin as [[= <- <-] | Hin];
            [by destruct Hname as [Hname | Hname] |]).
    contradiction. }
  unfold _extract_explicit_language.
  rewrite (search_explicit ci cn ws w d rest) by
    (try assumption; revert Hw; apply forallb_weaken, ascii_letter_cls).
  cbn [lookup list_lookup default from_option]. unfold Datatypes.id.
  rewrite find_display_name, (lower_letters w Hw).
  unfold SUPPORTED_LANGUAGES in Hin. cbn in Hin.
  repeat (destruct Hin as [[= <- <-] | Hin];
          [destruct Hname as [-> | ->]; split; (reflexivity || discriminate) |]).
  contradiction.
Qed.

(** C9.  When the text starts with "in" (in any case), white space, a
    word of letters that names a supported language by its code or by its
    display name (in any case), and then white space, a colon or a hyphen,
    [detect_language] returns the code of that language without consulting
    the statistical detector, and [clean_language_prefix] removes the
    prefix together with the white space that follows it.  In particular
    the request "in Hindi: " followed by the Devanagari sentence is
    detected as "hi" and cleaned to the sentence alone, in which "in Hindi"
    does not occur. *)
Theorem explicit_language_prefix :
  (forall ci cn (ws w : str) d (rest : str) code,
      cls_i ci = true -> cls_n cn = true ->
      ws <> [] -> forallb isspace ws = true ->
      forallb is_ascii_letter w = true ->
      cls_delim d = true ->
      names w code ->
      detect_language detect (ci :: cn :: ws ++ w ++ d :: rest) = code
      /\ clean_language_prefix (ci :: cn :: ws ++ w ++ d :: rest)
         = drop (run_length isspace rest) rest)
  /\ detect_language detect hindi_request = py "hi"
  /\ clean_language_prefix hindi_request = hindi_sentence
  /\ contains (py "in Hindi") (clean_language_prefix hindi_request) = false.
Proof.
  assert (Hgeneral : forall ci cn (ws w : str) d (rest : str) code,
      cls_i ci = true -> cls_n cn = true ->
      ws <> [] -> forallb isspace ws = true ->
      forallb is_ascii_letter w = true ->
      cls_delim d = true ->
      names w code ->
      detect_language detect (ci :: cn :: ws ++ w ++ d :: rest) = code
      /\ clean_language_prefix (ci :: cn :: ws ++ w ++ d :: rest)
         = drop (run_length isspace rest) rest).
  { intros ci cn ws w d rest code Hci Hcn Hws Hspace Hw Hd Hname.
    destruct (extract_named ci cn ws w d rest code) as [Hx Hcode];
      try assumption.
    split.
    - unfold detect_language. rewrite Hx. by destruct code.
    - apply clean_explicit; try assumption.
      + intros ->. destruct Hname as (name & Hin & Hname).
        rewrite (lower_display_name _ _ Hin) in Hname.
        rewrite (lower_letters [] eq_refl) in Hname. cbn in Hname.
        unfold SUPPORTED_LANGUAGES in Hin. cbn in Hin.
        repeat (destruct Hin as [[= <- <-] | Hin];
                [by destruct Hname as [Hname | Hname] |]).
        contradiction.
      + revert Hw. apply forallb_weaken, ascii_letter_cls. }
  split; [exact Hgeneral |].
  assert (Hhindi : names (py "Hindi") (py "hi")).
  { exists (py "Hindi"). split.
    - unfold SUPPORTED_LANGUAGES. cbn. auto.
    - right. reflexivity. }
  destruct (Hgeneral 105%N 110%N (py " ") (py "Hindi") 58%N
              (32%N :: hindi_sentence) (py "hi")) as [Hdetect Hclean];
    try reflexivity; [discriminate | exact Hhindi |].
  change (105%N :: 110%N :: py " " ++ py "Hindi" ++ 58%N :: 32%N :: hindi_sentence)
    with hindi_request in *.
  split; [exact Hdetect |]. split; [exact Hclean |].
  rewrite Hclean. reflexivity.
Qed.

End Service.

Lemma explicit_language_prefix_witness :
  detect_language (U:=AsciiTables) (fun _ => None) (py "IN  TAMIL-how to sow")
  = py "ta"
  /\ clean_language_prefix (py "IN  TAMIL-how to sow") = py "how to sow".
Proof.
  apply (proj1 (explicit_language_prefix (U:=AsciiTables) (fun _ => None))
           73%N 78%N (py "  ") (py "TAMIL") 45%N (py "how to sow") (py "ta"));
    try reflexivity.
  - discriminate.
  - exists (py "Tamil"). split.
    + unfold SUPPORTED_LANGUAGES. cbn. auto 10.
    + right. reflexivity.
Defined.

End LanguageFacts.

(** ** Navigation suggestions *)

Module NavigationFacts.
Import Navigation Examples.

Lemma in_list_In (x : str) (l : list str) : in_list x l = true <-> In x l.
Proof.
  unfold in_list. rewrite existsb_exists. split.
  - intros (y & Hy & Heq). unfold PyStr.eqb in Heq.
    apply bool_decide_eq_true in Heq. by subst.
  - intros Hin. exists x. split; [exact Hin |].
    unfold PyStr.eqb. by apply bool_decide_eq_true.
Qed.

Section Service.
Context {U : Unicode}.
Implicit Types (self : NavigationService) (message : str) (tags : Tags).

Lemma top_scored_length self message tags :
  length (top_scored self message tags) <= 3.
Proof. unfold top_scored. rewrite length_take. lia. Qed.

(** The three shapes of the result. *)
Lemma suggest_navigations_cases self message tags :
  let top := top_scored self message tags in
  (top = []
   /\ suggest_navigations self message tags
      = [py "/chatbot"; py "/podcasts"; py "/community"])
  \/ (top <> [] /\ In (py "/chatbot") top
      /\ suggest_navigations self message tags = top)
  \/ (top <> [] /\ ~ In (py "/chatbot") top
      /\ suggest_navigations self message tags = top ++ [py "/chatbot"]).
Proof.
  intros top. unfold suggest_navigations. fold (top_scored self message tags).
  fold top. destruct top as [| r top'] eqn:Htop.
  - left. split; reflexivity.
  - right. destruct (in_list (py "/chatbot") (r :: top')) eqn:Hin.
    + left. split; [discriminate |]. split; [by apply in_list_In |]. reflexivity.
    + right. split; [discriminate |]. split.
      * intros Hc. apply in_list_In in Hc. congruence.
      * reflexivity.
Qed.

Lemma insert_desc_Forall (P : str * nat -> Prop) (p : str * nat) l :
  P p -> Forall P l -> Forall P (insert_desc p l).
Proof.
  intros Hp. induction 1 as [| q l Hq Hl IH]; cbn.
  - by repeat constructor.
  - destruct (snd q <=? snd p); repeat constructor; assumption.
Qed.

Lemma sorted_desc_Forall (P : str * nat -> Prop) l :
  Forall P l -> Forall P (sorted_desc l).
Proof.
  induction 1 as [| p l Hp Hl IH]; cbn; [constructor |].
  by apply insert_desc_Forall.
Qed.

Lemma filter_none {A} (P : A -> Prop) `{forall x, Decision (P x)} (l : list A) :
  Forall (fun x => ~ P x) l -> filter P l = [].
Proof.
  induction 1 as [| x l Hx Hl IH]; [reflexivity |].
  by rewrite filter_cons_False.
Qed.

Lemma score_route_nothing (route : str) (keywords : list str) :
  score_route [] no_tags route keywords = 0.
Proof.
  unfold score_route. rewrite (lower_on_basic []) by reflexivity.
  cbn [flat_map no_tags crops city topics issues truthy_list truthy_str
       default from_option existsb andb].
  assert (Hfold : forall n,
             fold_left (fun score keyword =>
                          if word_search (lower keyword) []
                          then score + 2 else score) keywords n = n).
  { induction keywords as [| kw kws IH]; intros n; [reflexivity |].
    cbn [fold_left]. rewrite IH. reflexivity. }
  rewrite Hfold.
  change (contains (py "learn") []) with false.
  change (contains (py "information") []) with false.
  change (contains (py "equipment") []) with false.
  change (contains (py "tools") []) with false.
  change (any_contains [py "help"; py "advice"; py "problem"; py "issue"] [])
    with false.
  change (any_contains [py "discuss"; py "talk"; py "other farmers"] [])
    with false.
  cbn [orb]. rewrite !andb_false_r. reflexivity.
Qed.

(** With an empty message and the empty dict of tags no route scores, and
    the fixed default list is returned, whatever routes are configured. *)
Lemma suggest_navigations_default self :
  suggest_navigations self [] no_tags
  = [py "/chatbot"; py "/podcasts"; py "/community"].
Proof.
  destruct (suggest_navigations_cases self [] no_tags)
    as [[_ H] | [(Hne & _) | (Hne & _)]]; [exact H | exfalso | exfalso];
    apply Hne; unfold top_scored;
    (replace (filter _ _) with (@nil (str * nat)); [reflexivity |]);
    symmetry; apply filter_none, sorted_desc_Forall;
    apply Forall_forall; intros [r n] Hin;
    apply list_elem_of_In, in_map_iff in Hin as ([r' kws] & [= <- <-] & _);
    rewrite score_route_nothing; lia.
Qed.

End Service.


Example default_suggestions :
  suggest_navigations (U:=AsciiTables) six_routes [] no_tags
  = [py "/chatbot"; py "/podcasts"; py "/community"].
Proof. vm_compute. reflexivity. Qed.

Example problem_suggests_chatbot :
  suggest_navigations (U:=AsciiTables) six_routes
    (py "I have a problem with my crop")
    {| crops := Some []; city := Some None; topics := Some [];
       issues := Some [py "pest infestation"]; seasons := Some [] |}
  = [py "/chatbot"; py "/community"].
Proof. vm_compute. reflexivity. Qed.

Example four_suggestions :
  suggest_navigations (U:=AsciiTables) six_routes learn_tools_discuss no_tags
  = [py "/podcasts"; py "/resource-pool"; py "/community"; py "/chatbot"].
Proof. vm_compute. reflexivity. Qed.

End NavigationFacts.

(** ** Search *)

Module SearchFacts.
Import Rag Examples.

Section Generic.
Context {F : Type} {SF : Scalar F} {Meta : Type}.
Implicit Types (db : VectorDatabase F Meta) (q r : list F).

Lemma similarities_map q (rows : list (list F)) :
  map (fun '(d, n) => f_div d (f_mul (f_max (norm q) f_eps) n))
      (combine (map (fun r => dot r q) rows)
               (map (fun r => f_max (norm r) f_eps) rows))
  = map (similarity q) rows.
Proof.
  induction rows as [| r rows IH]; [reflexivity |].
  cbn [map combine]. by rewrite IH.
Qed.

(** [search] on a store whose rows all have the length of the query. *)
Lemma search_rectangular db q k :
  vectors db <> [] ->
  Forall (fun r => length r = length q) (vectors db) ->
  search db q k
  = let similarities := map (similarity q) (vectors db) in
    for_each
      (fun idx =>
         match similarities !! idx, metadata db !! idx with
         | Some s, Some m => Ok (idx, s, m)
         | _, _ => Raise IndexError
         end)
      (rev (slice_from (- k) (argsort similarities))).
Proof.
  intros Hne Hall. unfold search.
  destruct (vectors db) as [| row rows] eqn:Hv; [done |].
  assert (Hrow : length row = length q) by (by inversion Hall).
  assert (Hb : forallb (fun r => length r =? length row) (row :: rows) = true).
  { apply forallb_forall. intros r Hr. apply Nat.eqb_eq.
    rewrite Forall_forall in Hall. rewrite Hrow. apply Hall.
    by apply list_elem_of_In. }
  rewrite Hb. cbn [negb].
  rewrite (proj2 (Nat.eqb_eq _ _) Hrow). cbn [negb].
  rewrite similarities_map. reflexivity.
Qed.

Lemma insert_idx_snoc (sorted : list (nat * F)) (a p : nat * F) :
  f_leb (snd a) (snd p) = true ->
  insert_idx (sorted ++ [p]) a = insert_idx sorted a ++ [p].
Proof.
  intros Hle. induction sorted as [| b sorted IH]; cbn.
  - by rewrite Hle.
  - destruct (f_leb (snd a) (snd b)); [reflexivity |]. by rewrite IH.
Qed.

Lemma sort_snoc (l : list (nat * F)) (p : nat * F) :
  Forall (fun a => f_leb (snd a) (snd p) = true) l ->
  fold_right (fun a acc => insert_idx acc a) [] (l ++ [p])
  = fold_right (fun a acc => insert_idx acc a) [] l ++ [p].
Proof.
  intros Hall. rewrite fold_right_app. cbn [fold_right insert_idx].
  induction Hall as [| a l Ha Hall IH]; [reflexivity |].
  cbn [fold_right]. rewrite IH. by apply insert_idx_snoc.
Qed.

Lemma combine_app_eq {A B} (l1 l2 : list A) (k1 k2 : list B) :
  length l1 = length k1 ->
  combine (l1 ++ l2) (k1 ++ k2) = combine l1 k1 ++ combine l2 k2.
Proof.
  revert k1. induction l1 as [| a l1 IH]; intros [| b k1] Hlen;
    try discriminate; [reflexivity |].
  cbn. f_equal. apply IH. by injection Hlen.
Qed.

(** A value that is at least every earlier one is sorted last. *)
Lemma argsort_snoc (values : list F) (y : F) :
  Forall (fun x => f_leb x y = true) values ->
  argsort (values ++ [y]) = argsort values ++ [length values].
Proof.
  intros Hall. unfold argsort.
  rewrite length_app. cbn [length].
  replace (length values + 1) with (S (length values)) by lia.
  rewrite seq_S. cbn [plus].
  rewrite combine_app_eq by (by rewrite length_seq).
  cbn [combine]. rewrite sort_snoc.
  - rewrite map_app. reflexivity.
  - apply Forall_forall. intros [i x] Hin. cbn.
    apply list_elem_of_In, in_combine_r in Hin.
    rewrite Forall_forall in Hall. apply Hall. by apply list_elem_of_In.
Qed.

Lemma slice_last {A} (l : list A) (x : A) : slice_from (- 1) (l ++ [x]) = [x].
Proof.
  unfold slice_from. rewrite length_app. cbn [length].
  replace (-1 <? 0)%Z with true by reflexivity.
  replace (Z.to_nat (Z.max (-1 + Z.of_nat (length l + 1)) 0)) with (length l) by lia.
  by rewrite drop_app_length.
Qed.

(** Insertion keeps the elements. *)
Lemma insert_idx_Forall (P : nat * F -> Prop) (sorted : list (nat * F)) a :
  Forall P (insert_idx sorted a) <-> P a /\ Forall P sorted.
Proof.
  induction sorted as [| b sorted IH]; cbn.
  - rewrite Forall_singleton, Forall_nil. tauto.
  - destruct (f_leb (snd a) (snd b)).
    + rewrite !Forall_cons. tauto.
    + rewrite !Forall_cons, IH. tauto.
Qed.

Lemma sort_Forall (P : nat * F -> Prop) (l : list (nat * F)) :
  Forall P l -> Forall P (fold_right (fun a acc => insert_idx acc a) [] l).
Proof.
  induction 1 as [| a l Ha Hl IH]; cbn [fold_right]; [constructor |].
  apply insert_idx_Forall. auto.
Qed.

(** Every sorted pair is an index of [values] with its value. *)
Lemma sorted_pairs_lookup (values : list F) :
  Forall (fun p => values !! fst p = Some (snd p))
    (fold_right (fun a acc => insert_idx acc a) []
       (combine (seq 0 (length values)) values)).
Proof.
  apply sort_Forall.
  assert (H : forall (l : list F) start,
             Forall (fun p => start <= fst p /\ l !! (fst p - start) = Some (snd p))
               (combine (seq start (length l)) l)).
  { induction l as [| x l IH]; intros start; cbn; constructor.
    - cbn. by rewrite Nat.sub_diag.
    - eapply Forall_impl; [apply (IH (S start)) |]. cbn.
      intros [i y] [Hi Hy]. cbn in *. split; [lia |].
      replace (i - start) with (S (i - S start)) by lia. exact Hy. }
  eapply Forall_impl; [apply (H values 0) |]. cbn.
  intros [i y] [_ Hy]. cbn in *. by rewrite Nat.sub_0_r in Hy.
Qed.

(** The number of elements of [l[start:]]. *)
Lemma slice_from_length {A} (start : Z) (l : list A) :
  length (slice_from start l)
  = if (start <? 0)%Z
    then min (Z.to_nat (- start)) (length l)
    else length l - Z.to_nat start.
Proof.
  unfold slice_from. rewrite length_drop.
  destruct (Z.ltb_spec start 0); lia.
Qed.

Lemma slice_from_Forall {A} (P : A -> Prop) (start : Z) (l : list A) :
  Forall P l -> Forall P (slice_from start l).
Proof. unfold slice_from. apply Forall_drop. Qed.

(** [search] on a store with one metadata entry per vector, all vectors of
    the query's length: it returns, and what it returns is read off the
    sorted (index, similarity) pairs. *)
Lemma search_returns db q k :
  vectors db <> [] ->
  Forall (fun r => length r = length q) (vectors db) ->
  length (metadata db) = length (vectors db) ->
  exists results,
    search db q k = Ok results
    /\ map (fun '(idx, s, _) => (idx, s)) results
       = rev (slice_from (- k)
                (fold_right (fun a acc => insert_idx acc a) []
                   (combine (seq 0 (length (vectors db)))
                            (map (similarity q) (vectors db)))))
    /\ Forall (fun '(idx, _, m) => metadata db !! idx = Some m) results.
Proof.
  intros Hne Hall Hmeta. rewrite search_rectangular by assumption. cbv zeta.
  set (sims := map (similarity q) (vectors db)).
  assert (Hsl : length sims = length (vectors db)) by apply length_map.
  unfold argsort. rewrite Hsl.
  set (sorted := fold_right (fun a acc => insert_idx acc a) []
                   (combine (seq 0 (length (vectors db))) sims)).
  assert (Hsorted : Forall (fun p => sims !! fst p = Some (snd p)) sorted).
  { subst sorted. rewrite <- Hsl. apply sorted_pairs_lookup. }
  assert (Hm : forall i : nat, is_Some (sims !! i) -> is_Some (metadata db !! i)).
  { intros i Hi. apply lookup_lt_is_Some. apply lookup_lt_is_Some in Hi. lia. }
  (* the same statement for every suffix of the sorted pairs *)
  assert (Hgen : forall ps : list (nat * F),
             Forall (fun p => sims !! fst p = Some (snd p)) ps ->
             exists results,
               for_each
                 (fun idx =>
                    match sims !! idx, metadata db !! idx with
                    | Some s, Some m => Ok (idx, s, m)
                    | _, _ => Raise IndexError
                    end) (map fst ps) = Ok results
               /\ map (fun '(idx, s, _) => (idx, s)) results = ps
               /\ Forall (fun '(idx, _, m) => metadata db !! idx = Some m) results).
  { induction 1 as [| [i s] ps Hp Hps IH].
    - exists []. cbn. auto.
    - destruct IH as (rs & Hrs & Hmap & Hms). cbn in Hp.
      destruct (Hm i) as [m Hmi]; [by rewrite Hp |].
      exists ((i, s, m) :: rs). cbn. rewrite Hp, Hmi. cbn.
      fold (for_each (A:=nat) (B:=nat * F * Meta)). rewrite Hrs. cbn.
      rewrite Hmap. auto. }
  destruct (Hgen (rev (slice_from (- k) sorted))) as (rs & Hrs & Hmap & Hms).
  { apply Forall_rev. by apply slice_from_Forall. }
  exists rs. split; [| split; assumption].
  rewrite <- Hrs. f_equal.
  rewrite map_rev. f_equal.
  unfold slice_from. rewrite length_map. by rewrite skipn_map.
Qed.

Lemma sort_length (l : list (nat * F)) :
  length (fold_right (fun a acc => insert_idx acc a) [] l) = length l.
Proof.
  induction l as [| a l IH]; [reflexivity |]. cbn [fold_right length].
  rewrite <- IH. generalize (fold_right (fun a acc => insert_idx acc a) [] l).
  intros s. induction s as [| b s IHs]; cbn; [reflexivity |].
  destruct (f_leb (snd a) (snd b)); cbn; [reflexivity |]. by rewrite IHs.
Qed.

(** How many records [search] returns: all of them for [top_k = 0], and
    [min(top_k, n)] for a positive [top_k]. *)
Lemma search_result_count db q k :
  vectors db <> [] ->
  Forall (fun r => length r = length q) (vectors db) ->
  length (metadata db) = length (vectors db) ->
  exists results,
    search db q k = Ok results
    /\ (k = 0%Z -> length results = length (vectors db))
    /\ ((0 < k)%Z -> length results = min (Z.to_nat k) (length (vectors db))).
Proof.
  intros Hne Hall Hmeta.
  destruct (search_returns db q k Hne Hall Hmeta) as (rs & Hrs & Hmap & _).
  exists rs. split; [exact Hrs |].
  apply (f_equal length) in Hmap.
  rewrite length_map, length_rev, slice_from_length, sort_length,
    length_combine, length_seq, length_map, Nat.min_id in Hmap.
  destruct (Z.ltb_spec (- k) 0); split; intros Hk; lia.
Qed.

End Generic.

(** *** Exact arithmetic *)

Section Real.
Context {Meta : Type}.
Implicit Types (db : VectorDatabase R Meta) (a b q r v : list R).
Local Open Scope R_scope.

Lemma eps_pos : 0 < f_eps.
Proof. cbn [f_eps RealScalar]. apply Rinv_0_lt_compat, pow_lt. lra. Qed.

Lemma dot_self_nonneg a : 0 <= dot a a.
Proof. induction a as [| x a IH]; cbn in *; [lra | nra]. Qed.

(** Cauchy-Schwarz for [dot]. *)
Lemma dot_square_le a : forall b, dot a b * dot a b <= dot a a * dot b b.
Proof.
  induction a as [| x a IH]; intros [| y b]; cbn; try nra.
  - pose proof (dot_self_nonneg a) as HA. pose proof (dot_self_nonneg b) as HB.
    specialize (IH b). cbn in *.
    set (A := dot a a) in *. set (B := dot b b) in *. set (D := dot a b) in *.
    assert (H2 : 2 * (x * y) * D <= x * x * B + A * (y * y)).
    { destruct (Req_dec A 0) as [HA0 | HA0].
      - assert (D = 0) by nra. subst D. nra.
      - assert (0 < A) by lra.
        apply (Rmult_le_reg_l A); [assumption |].
        pose proof (Rle_0_sqr (x * D - A * y)) as Hsq. unfold Rsqr in Hsq.
        assert (0 <= x * x * (A * B - D * D)) by nra.
        nra. }
    nra.
Qed.

Lemma norm_nonneg a : 0 <= norm a.
Proof. unfold norm. cbn. apply sqrt_pos. Qed.

Lemma dot_le_norms a b : dot a b <= norm a * norm b.
Proof.
  unfold norm. cbn.
  rewrite <- sqrt_mult by apply dot_self_nonneg.
  destruct (Rle_dec (dot a b) 0) as [Hneg | Hpos].
  - pose proof (sqrt_pos (dot a a * dot b b)). lra.
  - rewrite <- (sqrt_square (dot a b)) at 1 by lra.
    apply sqrt_le_1_alt, dot_square_le.
Qed.

Lemma similarity_le_1 q r : similarity q r <= 1.
Proof.
  unfold similarity. cbn [f_div f_mul f_max f_eps RealScalar].
  pose proof eps_pos as He. cbn [f_eps RealScalar] in He.
  set (e := / 10 ^ 10) in *.
  pose proof (Rmax_l (norm q) e). pose proof (Rmax_r (norm q) e).
  pose proof (Rmax_l (norm r) e). pose proof (Rmax_r (norm r) e).
  pose proof (norm_nonneg q). pose proof (norm_nonneg r).
  pose proof (dot_le_norms r q).
  set (nq := Rmax (norm q) e) in *. set (nr := Rmax (norm r) e) in *.
  assert (Hd : 0 < nq * nr) by nra.
  apply (Rmult_le_reg_r (nq * nr)); [exact Hd |].
  unfold Rdiv. rewrite Rmult_assoc, Rinv_l by lra. nra.
Qed.

Lemma similarity_self v : f_eps <= norm v -> similarity v v = 1.
Proof.
  intros Hv. unfold similarity. cbn [f_div f_mul f_max f_eps RealScalar] in *.
  pose proof eps_pos as He. cbn [f_eps RealScalar] in He.
  rewrite Rmax_left by exact Hv.
  assert (Hsq : norm v * norm v = dot v v).
  { unfold norm. cbn. apply sqrt_sqrt, dot_self_nonneg. }
  rewrite Hsq. apply Rdiv_diag. nra.
Qed.

(** A zero vector has similarity 0 with everything: the guard replaces
    its norm by 1e-10, and the dot product is 0. *)
Lemma similarity_zero_dot q r : dot r q = 0 -> similarity q r = 0.
Proof.
  intros H. unfold similarity. rewrite H. cbn. unfold Rdiv. apply Rmult_0_l.
Qed.

Lemma insert_idx_ascending (sorted : list (nat * R)) (p : nat * R) :
  ascending sorted -> ascending (insert_idx sorted p).
Proof.
  unfold ascending. induction 1 as [| p' sorted Hs IH Hb]; cbn.
  - repeat constructor.
  - destruct (Rle_dec (snd p) (snd p')) as [Hle | Hgt].
    + constructor; [by constructor |].
      constructor; [exact Hle |].
      eapply Forall_impl; [exact Hb |]. cbn. intros c Hc. lra.
    + constructor; [exact IH |].
      apply insert_idx_Forall. split; [lra | exact Hb].
Qed.

Lemma sort_ascending (l : list (nat * R)) :
  ascending (fold_right (fun p acc => insert_idx acc p) [] l).
Proof.
  induction l as [| p l IH]; cbn [fold_right]; [constructor |].
  by apply insert_idx_ascending.
Qed.

Lemma StronglySorted_drop {A} (rel : A -> A -> Prop) n (l : list A) :
  StronglySorted rel l -> StronglySorted rel (drop n l).
Proof.
  intros H. revert n. induction H as [| x l Hl IH Hx]; intros [| n]; cbn;
    try constructor; auto.
Qed.

Lemma StronglySorted_snoc {A} (rel : A -> A -> Prop) (l : list A) x :
  StronglySorted rel l -> Forall (fun y => rel y x) l ->
  StronglySorted rel (l ++ [x]).
Proof.
  induction 1 as [| y l Hl IH Hy]; intros Hx; cbn.
  - repeat constructor.
  - apply Forall_cons in Hx as [Hyx Hx]. constructor; [by apply IH |].
    apply Forall_app. split; [exact Hy | by repeat constructor].
Qed.

Lemma StronglySorted_rev {A} (rel : A -> A -> Prop) (l : list A) :
  StronglySorted rel l -> StronglySorted (fun x y => rel y x) (rev l).
Proof.
  induction 1 as [| x l Hl IH Hx]; cbn; [constructor |].
  apply StronglySorted_snoc; [exact IH | by apply Forall_rev].
Qed.

(** For any [top_k], the similarities of the records that [search]
    returns are in descending order. *)
Lemma search_descending db q k :
  vectors db <> [] ->
  Forall (fun r => length r = length q) (vectors db) ->
  length (metadata db) = length (vectors db) ->
  exists results,
    search db q k = Ok results
    /\ StronglySorted (fun s1 s2 => s2 <= s1)
         (map (fun '(_, s, _) => s) results).
Proof.
  intros Hne Hall Hmeta.
  destruct (search_returns db q k Hne Hall Hmeta) as (rs & Hrs & Hmap & _).
  exists rs. split; [exact Hrs |].
  replace (map (fun '(_, s, _) => s) rs)
    with (map snd (map (fun '(idx, s, _) => (idx, s)) rs)).
  - rewrite Hmap.
    set (sorted := fold_right _ _ _).
    assert (Hs : StronglySorted (fun p1 p2 : nat * R => snd p2 <= snd p1)
                   (rev (slice_from (- k) sorted))).
    { apply StronglySorted_rev. unfold slice_from. apply StronglySorted_drop.
      apply sort_ascending. }
    induction Hs as [| p l Hl IH Ha]; cbn; constructor; [exact IH |].
    apply Forall_forall. intros s Hin.
    apply list_elem_of_In, in_map_iff in Hin as (p' & <- & Hb).
    rewrite Forall_forall in Ha. apply Ha. by apply list_elem_of_In.
  - rewrite map_map. apply map_ext. by intros [[? ?] ?].
Qed.

Lemma search_after_add db v m :
  well_formed db ->
  Z.of_nat (length v) = dimension db ->
  f_eps <= norm v ->
  search (snd (add_document db v m)) v 1
  = Ok [(length (vectors db), 1, m)].
Proof.
  intros [Hu Hm] Hlen Hv.
  rewrite (RagFacts.add_document_match db v m Hlen). cbn [snd].
  rewrite search_rectangular; cbn [vectors metadata].
  - rewrite map_app. cbn [map]. rewrite (similarity_self v Hv).
    rewrite argsort_snoc.
    + rewrite slice_last. cbn [rev app for_each].
      rewrite length_map.
      rewrite !lookup_app_r by (rewrite ?length_map; lia).
      rewrite length_map, Hm, Nat.sub_diag. reflexivity.
    + apply Forall_forall. intros x Hx.
      apply list_elem_of_In, in_map_iff in Hx as (r & <- & _).
      cbn [f_leb RealScalar].
      destruct (Rle_dec (similarity v r) 1) as [_ | Hn]; [reflexivity |].
      exfalso. apply Hn, similarity_le_1.
  - by destruct (vectors db).
  - apply Forall_app. split; [| by repeat constructor].
    unfold uniform in Hu. eapply Forall_impl; [exact Hu |].
    cbn. intros r Hr. lia.
Qed.


Lemma well_formed_init d : well_formed (init (F:=R) (Meta:=Meta) d).
Proof. split; [apply RagFacts.uniform_init | reflexivity]. Qed.

Lemma well_formed_add db v m :
  well_formed db -> well_formed (snd (add_document db v m)).
Proof.
  intros [Hu Hm]. split; [by apply RagFacts.uniform_add |].
  unfold add_document. destruct (negb _); cbn; [exact Hm |].
  rewrite !length_app, Hm. reflexivity.
Qed.

End Real.

(** *** Concrete searches *)

(** The guard at work: the zero vector, added to a new store of dimension
    1 and searched for, comes back with similarity 0, not with about 1. *)
Lemma zero_vector_similarity :
  ~ (forall (db : VectorDatabase R unit) (v : list R) (m : unit),
        well_formed db ->
        Z.of_nat (length v) = dimension db ->
        exists sim,
          search (snd (add_document db v m)) v 1
          = Ok [(length (vectors db), sim, m)]
          /\ approx_one sim).
Proof.
  intros H.
  destruct (H (init 1) [0%R] tt (well_formed_init 1) eq_refl) as (sim & Hs & Ha).
  cbn in Hs. injection Hs as <-.
  unfold approx_one in Ha. cbn in Ha.
  replace (_ / _ - 1)%R with (- (1))%R in Ha.
  - rewrite Rabs_Ropp, Rabs_R1 in Ha.
    assert (/ (10 * (10 * (10 * (10 * (10 * (10 * 1)))))) < 1)%R; [| lra].
    rewrite <- Rinv_1 at 2. apply Rinv_lt_contravar; lra.
  - unfold Rdiv. rewrite Rmult_0_l, Rplus_0_l, Rmult_0_l. lra.
Qed.

(** C3 at [top_k = 0]: the slice [[-0:]] keeps every index, so the search
    returns both documents where at most 0 were asked for. *)
Theorem search_top_k_zero :
  search (SF:=FloatScalar) two_documents [1%float; 0%float] 0
  = Ok [(0, 1%float, py "east"); (1, 0%float, py "north")].
Proof. vm_compute. reflexivity. Qed.

Lemma search_result_count_witness :
  exists results,
    search (SF:=FloatScalar) two_documents [1%float; 0%float] 0 = Ok results
    /\ length results = 2.
Proof.
  destruct (search_result_count (SF:=FloatScalar) two_documents
              [1%float; 0%float] 0) as (rs & Hrs & Hzero & _).
  - discriminate.
  - repeat constructor.
  - reflexivity.
  - exists rs. split; [exact Hrs | exact (Hzero eq_refl)].
Defined.

Lemma search_descending_witness :
  exists results,
    search (snd (add_document (init 2) [3%R; 4%R] tt)) [1%R; 0%R] 3 = Ok results
    /\ StronglySorted (fun s1 s2 => (s2 <= s1)%R)
         (map (fun '(_, s, _) => s) results).
Proof.
  apply (search_descending (snd (add_document (init 2) [3%R; 4%R] tt))
           [1%R; 0%R] 3).
  - discriminate.
  - repeat constructor.
  - reflexivity.
Defined.

Example search_top_k_one :
  search (SF:=FloatScalar) two_documents [1%float; 0%float] 1
  = Ok [(0, 1%float, py "east")].
Proof. vm_compute. reflexivity. Qed.

Example search_empty_store :
  search (SF:=FloatScalar) (init (Meta:=str) 2) [1%float; 0%float] 3 = Ok [].
Proof. reflexivity. Qed.

End SearchFacts.

(** ** Language detection beyond the explicit prefix *)

Module LanguageMore.
Import Language LanguageShapes LanguageFacts.

Lemma try_lengths_inv {A} (s : str) (k : str -> option A) least n a :
  try_lengths s k least n = Some a -> exists i, k (drop i s) = Some a.
Proof.
  induction n as [| n IH]; cbn.
  - destruct (k (drop 0 s)) eqn:E; [| discriminate]. intros [= <-]. eauto.
  - destruct (k (drop (S n) s)) eqn:E.
    + intros [= <-]. eauto.
    + destruct (least <=? n); [exact IH | discriminate].
Qed.

(** Whenever the matcher succeeds, the continuation was run on a suffix
    of the text. *)
Lemma rmatch_inv {A} (r : regex) :
  forall (s : str) groups (k : str -> list str -> option A) a,
    rmatch r s groups k = Some a ->
    exists rest groups', k rest groups' = Some a /\ rest `suffix_of` s.
Proof.
  induction r as [cls | cls | cls | r IH | r1 IH1 r2 IH2];
    intros s groups k a; cbn [rmatch].
  - destruct s as [| c s]; [discriminate |].
    destruct (cls c); [| discriminate].
    intros H. exists s, groups. split; [exact H | apply suffix_cons_r; reflexivity].
  - destruct (run_length cls s =? 0); [discriminate |].
    intros H. apply try_lengths_inv in H as [i Hi].
    exists (drop i s), groups. split; [exact Hi | apply suffix_drop].
  - intros H. apply try_lengths_inv in H as [i Hi].
    exists (drop i s), groups. split; [exact Hi | apply suffix_drop].
  - intros H. apply IH in H as (rest & g' & Hk & Hs). eauto.
  - intros H. apply IH1 in H as (rest & g' & Hk & Hs).
    apply IH2 in Hk as (rest' & g'' & Hk & Hs').
    exists rest', g''. split; [exact Hk | by etrans].
Qed.

Lemma explicit_pattern_needs_prefix {A} (text : str) groups
    (k : str -> list str -> option A) :
  has_in_prefix text = false -> rmatch explicit_pattern text groups k = None.
Proof.
  unfold has_in_prefix, explicit_pattern. cbn [rmatch].
  destruct text as [| c1 [| c2 [| c3 t]]]; try reflexivity.
  - by destruct (cls_i c1).
  - destruct (cls_i c1); [| reflexivity]. by destruct (cls_n c2).
  - destruct (cls_i c1); [| reflexivity]. destruct (cls_n c2); [| reflexivity].
    cbn [andb run_length]. intros ->. reflexivity.
Qed.

Lemma run_length_stops cls (s : str) c :
  head (drop (run_length cls s) s) = Some c -> cls c = false.
Proof.
  induction s as [| x s IH]; cbn; [discriminate |].
  destruct (cls x) eqn:E; cbn; [exact IH | by intros [= <-]].
Qed.

Lemma supported_In code name :
  In (code, name) SUPPORTED_LANGUAGES -> supported code = true.
Proof.
  intros Hin. unfold supported. apply existsb_exists.
  exists (code, name). split; [exact Hin |].
  unfold PyStr.eqb. by apply bool_decide_eq_true.
Qed.

Section Service.
Context {U : Unicode}.
Variable detect : str -> option str.

Lemma extract_supported text l :
  _extract_explicit_language text = Some l -> supported l = true.
Proof.
  unfold _extract_explicit_language.
  destruct (search_at_start explicit_pattern text) as [[groups rest] |];
    [| discriminate].
  destruct (supported (lower (default [] (groups !! 0)))) eqn:Hs.
  - by intros [= <-].
  - destruct (find _ SUPPORTED_LANGUAGES) as [[code name] |] eqn:Hf;
      [| discriminate].
    intros [= <-]. apply find_some in Hf as [Hin _].
    by apply (supported_In code name).
Qed.

Lemma extract_needs_prefix text :
  has_in_prefix text = false -> _extract_explicit_language text = None.
Proof.
  intros H. unfold _extract_explicit_language, search_at_start.
  by rewrite explicit_pattern_needs_prefix.
Qed.

(** X5.  Whatever the text and whatever the statistical detector answers
    (or if it fails), [detect_language] returns one of the six supported
    language codes. *)
Theorem detect_language_supported text :
  supported (detect_language detect text) = true.
Proof.
  unfold detect_language.
  destruct (_extract_explicit_language text) as [[| c l] |] eqn:Hx.
  2: { by apply (extract_supported text). }
  all: destruct (detect text) as [detected |]; [| reflexivity];
    destruct (supported detected) eqn:Hd; [exact Hd |];
    destruct (contains (py "-") detected && supported (before_hyphen detected))
      eqn:Hb; [by apply andb_true_iff in Hb as [_ Hb] |];
    destruct (PyStr.eqb detected (py "ur") && supported (py "hi"));
    reflexivity.
Qed.

(** X6.  [clean_language_prefix] only ever drops a prefix: its result is a
    suffix of the text.  A text that does not start with "in" and a white
    space character is returned unchanged, and when something was removed
    the result does not start with white space. *)
Theorem clean_language_prefix_suffix text :
  clean_language_prefix text `suffix_of` text
  /\ (has_in_prefix text = false -> clean_language_prefix text = text)
  /\ (clean_language_prefix text <> text ->
      forall c, head (clean_language_prefix text) = Some c -> isspace c = false).
Proof.
  unfold clean_language_prefix, sub_at_start, search_at_start, prefix_pattern.
  cbn [rmatch].
  destruct (rmatch explicit_pattern text [] _) as [[groups rest] |] eqn:Hm.
  - pose proof Hm as Hm0.
    apply rmatch_inv in Hm as (rest' & g' & Hk & Hs).
    cbn [rmatch] in Hk.
    rewrite (try_lengths_first rest' _ 0 (run_length isspace rest')
               (g', drop (run_length isspace rest') rest') eq_refl) in Hk.
    injection Hk as <- <-.
    split; [| split].
    + etrans; [apply suffix_drop | exact Hs].
    + intros Hp. rewrite explicit_pattern_needs_prefix in Hm0 by exact Hp.
      discriminate Hm0.
    + intros _ c. apply run_length_stops.
  - split; [reflexivity |]. split; [reflexivity | congruence].
Qed.

(** X7.  For a text without the "in" prefix the result is decided by the
    statistical detector: "en" when it fails; its answer when that is a
    supported code; the part before the hyphen of a region-qualified answer
    such as "en-us" when that part is supported; "hi" for "ur"; and "en"
    for every other answer. *)
Theorem detect_language_fallback text :
  has_in_prefix text = false ->
  (detect text = None -> detect_language detect text = DEFAULT_LANGUAGE)
  /\ (forall d, detect text = Some d -> supported d = true ->
      detect_language detect text = d)
  /\ (forall d, detect text = Some d -> supported d = false ->
      contains (py "-") d = true -> supported (before_hyphen d) = true ->
      detect_language detect text = before_hyphen d)
  /\ (detect text = Some (py "ur") -> detect_language detect text = py "hi")
  /\ (forall d, detect text = Some d -> supported d = false ->
      supported (before_hyphen d) = false -> d <> py "ur" ->
      detect_language detect text = DEFAULT_LANGUAGE).
Proof.
  intros Hp. unfold detect_language. rewrite (extract_needs_prefix text Hp).
  split; [| split; [| split; [| split]]].
  - by intros ->.
  - intros d -> Hd. by rewrite Hd.
  - intros d -> Hd Hc Hb. by rewrite Hd, Hc, Hb.
  - intros ->. reflexivity.
  - intros d -> Hd Hb Hur. rewrite Hd, Hb, andb_false_r.
    destruct (PyStr.eqb d (py "ur")) eqn:E; [| reflexivity].
    unfold PyStr.eqb in E. apply bool_decide_eq_true in E. contradiction.
Qed.

Lemma contains_length (sub s : str) :
  contains sub s = true -> length sub <= length s.
Proof.
  assert (Hsw : forall p t : str, starts_with p t = true -> length p <= length t).
  { induction p as [| x p IH]; intros [| y t]; cbn; try lia; try discriminate.
    intros H. apply andb_true_iff in H as [_ H]. apply IH in H. lia. }
  induction s as [| y s IH]; cbn.
  - rewrite orb_false_r. apply Hsw.
  - intros H. apply orb_true_iff in H as [H | H].
    + apply Hsw in H. exact H.
    + apply IH in H. lia.
Qed.

Lemma lower_letters_length (w : str) :
  forallb is_ascii_letter w = true -> length (lower w) = length w.
Proof.
  intros H. rewrite (lower_letters w H). clear U detect.
  induction w as [| c w IH]; [reflexivity |].
  cbn in H. apply andb_true_iff in H as [Hc Hw].
  cbn [flat_map]. rewrite length_app, (IH Hw).
  unfold lower_basic. destruct (is_ascii_upper c) eqn:Hu; [reflexivity |].
  assert (c <> 304%N /\ c <> 8490%N) as [H1 H2].
  { revert Hc. unfold is_ascii_letter, is_ascii_upper, is_ascii_lower.
    bool_to_prop. lia. }
  apply N.eqb_neq in H1, H2. rewrite H1, H2. reflexivity.
Qed.

(** X8.  The word after "in" is looked up as a substring of the display
    names, not the other way round: a word of more than seven letters is
    never recognised (the detector decides, also for a word that starts
    with a display name), while a word that is not a code but occurs
    inside "english" selects "en". *)
Theorem explicit_language_substring ci cn (ws w : str) d (rest : str) :
  cls_i ci = true -> cls_n cn = true ->
  ws <> [] -> forallb isspace ws = true ->
  w <> [] -> forallb is_ascii_letter w = true ->
  cls_delim d = true ->
  let text := ci :: cn :: ws ++ w ++ d :: rest in
  (7 < length w -> _extract_explicit_language text = None)
  /\ (supported (lower w) = false ->
      contains (lower w) (py "english") = true ->
      detect_language detect text = py "en").
Proof.
  intros Hci Hcn Hws Hspace Hne Hw Hd text. subst text.
  assert (Hx : _extract_explicit_language (ci :: cn :: ws ++ w ++ d :: rest)
               = if supported (lower w) then Some (lower w)
                 else match find (fun '(code, name) =>
                                    contains (lower w) (flat_map lower_basic name))
                                 SUPPORTED_LANGUAGES with
                      | Some (code, _) => Some code
                      | None => None
                      end).
  { unfold _extract_explicit_language.
    rewrite (search_explicit ci cn ws w d rest) by
      (try assumption; revert Hw; apply forallb_weaken, ascii_letter_cls).
    cbn [lookup list_lookup default from_option]. unfold Datatypes.id.
    by rewrite find_display_name. }
  split.
  - intros Hlen. rewrite Hx.
    pose proof (lower_letters_length w Hw) as Hl.
    assert (Hno : forall s : str, length s <= 7 -> contains (lower w) s = false).
    { intros s Hs. apply not_true_is_false. intros Hc.
      apply contains_length in Hc. lia. }
    assert (Hsup : supported (lower w) = false).
    { apply not_true_is_false. intros Hs. unfold supported in Hs.
      apply existsb_exists in Hs as ([code name] & Hin & Heq).
      unfold PyStr.eqb in Heq. apply bool_decide_eq_true in Heq. subst code.
      unfold SUPPORTED_LANGUAGES in Hin. cbn in Hin.
      repeat (destruct Hin as [[= Hc _] | Hin];
              [apply (f_equal length) in Hc; cbn in Hc; lia |]).
      contradiction. }
    rewrite Hsup. unfold SUPPORTED_LANGUAGES. cbn [find].
    rewrite !Hno by (apply Nat.leb_le; reflexivity). reflexivity.
  - intros Hsup Hc. unfold detect_language. rewrite Hx, Hsup.
    unfold SUPPORTED_LANGUAGES. cbn [find].
    change (flat_map lower_basic (py "English")) with (py "english").
    rewrite Hc. reflexivity.
Qed.

End Service.

Lemma clean_language_prefix_suffix_witness :
  clean_language_prefix (py "how to sow wheat") = py "how to sow wheat"
  /\ head (clean_language_prefix (py "in hi:   sow")) <> Some 32%N.
Proof.
  split.
  - apply (clean_language_prefix_suffix (py "how to sow wheat")). reflexivity.
  - intros H.
    assert (Hs : isspace 32 = false); [| discriminate Hs].
    apply (proj2 (proj2 (clean_language_prefix_suffix (py "in hi:   sow"))));
      [discriminate | exact H].
Defined.

Lemma detect_language_fallback_witness :
  detect_language (U:=AsciiTables) (fun _ => Some (py "en-us")) (py "my wheat")
  = py "en"
  /\ detect_language (U:=AsciiTables) (fun _ => Some (py "ur")) (py "my wheat")
     = py "hi"
  /\ detect_language (U:=AsciiTables) (fun _ => Some (py "fr")) (py "my wheat")
     = py "en".
Proof.
  split; [| split].
  - destruct (detect_language_fallback (U:=AsciiTables)
                (fun _ => Some (py "en-us")) (py "my wheat") eq_refl)
      as (_ & _ & Hregion & _ & _).
    apply (Hregion (py "en-us")); reflexivity.
  - destruct (detect_language_fallback (U:=AsciiTables)
                (fun _ => Some (py "ur")) (py "my wheat") eq_refl)
      as (_ & _ & _ & Hur & _).
    apply Hur. reflexivity.
  - destruct (detect_language_fallback (U:=AsciiTables)
                (fun _ => Some (py "fr")) (py "my wheat") eq_refl)
      as (_ & _ & _ & _ & Hother).
    apply (Hother (py "fr")); try reflexivity. discriminate.
Defined.

Lemma explicit_language_substring_witness :
  _extract_explicit_language (U:=AsciiTables) (py "in Hindilanguage: sow") = None
  /\ detect_language (U:=AsciiTables) (fun _ => None) (py "in Eng: sow") = py "en".
Proof.
  split.
  - apply (explicit_language_substring (U:=AsciiTables) (fun _ => None)
             105%N 110%N (py " ") (py "Hindilanguage") 58%N (py " sow"));
      try reflexivity; try discriminate. cbn. lia.
  - apply (explicit_language_substring (U:=AsciiTables) (fun _ => None)
             105%N 110%N (py " ") (py "Eng") 58%N (py " sow"));
      try reflexivity; discriminate.
Defined.

End LanguageMore.

(** ** The navigation service beyond the length of its answer *)

Module NavigationMore.
Import Navigation NavigationShapes NavigationFacts.

(** *** [_extract_keywords] *)

Lemma dict_set_keys {V} (key : str) (v : V) (d : list (str * V)) :
  map fst (dict_set key v d)
  = if bool_decide (key ∈ map fst d) then map fst d else map fst d ++ [key].
Proof.
  induction d as [| [k v'] d IH]; cbn [dict_set map fst].
  - rewrite bool_decide_eq_false_2; [reflexivity | apply not_elem_of_nil].
  - unfold PyStr.eqb. destruct (decide (k = key)) as [-> | Hne].
    + rewrite bool_decide_eq_true_2 by reflexivity. cbn.
      by rewrite bool_decide_eq_true_2 by (by left).
    + rewrite bool_decide_eq_false_2 by exact Hne. cbn [map fst]. rewrite IH.
      destruct (decide (key ∈ map fst d)) as [Hin | Hnin].
      * rewrite !bool_decide_eq_true_2; [reflexivity | by right | exact Hin].
      * rewrite !bool_decide_eq_false_2; [reflexivity | | exact Hnin].
        intros [? | ?]%elem_of_cons; congruence.
Qed.

Lemma dict_set_NoDup {V} (key : str) (v : V) (d : list (str * V)) :
  NoDup (map fst d) -> NoDup (map fst (dict_set key v d)).
Proof.
  intros Hnd. rewrite dict_set_keys. case_bool_decide as Hin; [exact Hnd |].
  apply NoDup_app. split; [exact Hnd |]. split.
  - intros x Hx Hx'. apply list_elem_of_singleton in Hx'. by subst.
  - apply NoDup_singleton.
Qed.

Lemma dict_set_Forall2 {V W} (rel : str * V -> str * W -> Prop) key v w
    (d : list (str * V)) (e : list (str * W)) :
  (forall p q, rel p q -> fst p = fst q) ->
  rel (key, v) (key, w) ->
  Forall2 rel d e -> Forall2 rel (dict_set key v d) (dict_set key w e).
Proof.
  intros Hkey Hnew. induction 1 as [| [k v'] [k' w'] d e Hr Hde IH]; cbn.
  - by repeat constructor.
  - pose proof (Hkey _ _ Hr) as Hk. cbn in Hk. subst k'.
    destruct (PyStr.eqb k key); constructor; assumption.
Qed.

Lemma extract_keywords_fold contexts :
  _extract_keywords contexts
  = fold_left extract_step contexts
      {| context_keywords := []; navigation_by_route := [] |}.
Proof. reflexivity. Qed.

Lemma extract_step_invariant all self context :
  context ∈ all ->
  Forall2 (entry_of all) (context_keywords self) (navigation_by_route self) ->
  NoDup (map fst (context_keywords self)) ->
  Forall2 (entry_of all) (context_keywords (extract_step self context))
    (navigation_by_route (extract_step self context))
  /\ NoDup (map fst (context_keywords (extract_step self context))).
Proof.
  intros Hin Hf Hnd. unfold extract_step.
  destruct (route context) as [[| c r] |] eqn:Hr; try (split; assumption).
  cbn [context_keywords navigation_by_route]. split.
  - apply dict_set_Forall2; [| | exact Hf].
    + by intros p q (Hk & _).
    + repeat split; cbn; try done.
  - by apply dict_set_NoDup.
Qed.

Lemma extract_step_keeps_keys self context key :
  key ∈ map fst (context_keywords self) ->
  key ∈ map fst (context_keywords (extract_step self context)).
Proof.
  intros Hin. unfold extract_step.
  destruct (route context) as [[| c r] |]; try exact Hin.
  cbn [context_keywords]. rewrite dict_set_keys.
  case_bool_decide; [exact Hin | apply elem_of_app; by left].
Qed.

Lemma extract_step_adds_key self context c r :
  route context = Some (c :: r) ->
  (c :: r) ∈ map fst (context_keywords (extract_step self context)).
Proof.
  intros Hr. unfold extract_step. rewrite Hr. cbn [context_keywords].
  rewrite dict_set_keys. case_bool_decide as Hin; [exact Hin |].
  apply elem_of_app. right. by apply list_elem_of_singleton.
Qed.

(** X9.  After [_extract_keywords] the two dicts have the same keys in
    the same order, without repetition; every key is the non-empty route of
    a context of the input, stored under that key, and its keyword list is
    the duplicate-free union of that context's intent keywords and user
    needs; and every context with a non-empty route has its route among the
    keys (contexts without a route are skipped). *)
Theorem extract_keywords_invariant (navigation_contexts : list NavigationContext) :
  let self := _extract_keywords navigation_contexts in
  Forall2 (entry_of navigation_contexts)
    (context_keywords self) (navigation_by_route self)
  /\ NoDup (map fst (context_keywords self))
  /\ Forall (fun kv => NoDup (snd kv)) (context_keywords self)
  /\ (forall context c r,
        context ∈ navigation_contexts -> route context = Some (c :: r) ->
        (c :: r) ∈ map fst (context_keywords self)).
Proof.
  intros self. subst self. rewrite extract_keywords_fold.
  assert (Hgen : forall l self,
             (forall c, c ∈ l -> c ∈ navigation_contexts) ->
             Forall2 (entry_of navigation_contexts)
               (context_keywords self) (navigation_by_route self) ->
             NoDup (map fst (context_keywords self)) ->
             let self' := fold_left extract_step l self in
             Forall2 (entry_of navigation_contexts)
               (context_keywords self') (navigation_by_route self')
             /\ NoDup (map fst (context_keywords self'))
             /\ (forall key, key ∈ map fst (context_keywords self) ->
                             key ∈ map fst (context_keywords self'))
             /\ (forall context c r, context ∈ l ->
                   route context = Some (c :: r) ->
                   (c :: r) ∈ map fst (context_keywords self'))).
  { induction l as [| context l IH]; intros self Hsub Hf Hnd; cbn [fold_left].
    - repeat split; try assumption; try (intros; done).
      intros ? ? ? Hin. by apply elem_of_nil in Hin.
    - destruct (extract_step_invariant navigation_contexts self context)
        as [Hf' Hnd']; [apply Hsub; by left | exact Hf | exact Hnd |].
      destruct (IH (extract_step self context)) as (H1 & H2 & H3 & H4);
        [intros c Hc; apply Hsub; by right | exact Hf' | exact Hnd' |].
      repeat split; try assumption.
      + intros key Hk. apply H3. by apply extract_step_keeps_keys.
      + intros c0 c r [-> | Hin]%elem_of_cons Hr.
        * apply H3. by apply extract_step_adds_key.
        * by apply (H4 c0). }
  destruct (Hgen navigation_contexts
              {| context_keywords := []; navigation_by_route := [] |}
              (fun c Hc => Hc) (proj2 (Forall2_nil _) I) (NoDup_nil_2))
    as (H1 & H2 & _ & H4).
  repeat split; try assumption.
  clear -H1. induction H1 as [| kv nv d e (_ & _ & _ & Hk & _) _ IH];
    constructor; [| exact IH].
  rewrite Hk. apply NoDup_remove_dups.
Qed.


(** *** The suggestions *)

Lemma insert_desc_Permutation p l : insert_desc p l ≡ₚ p :: l.
Proof.
  induction l as [| q l IH]; cbn; [reflexivity |].
  destruct (snd q <=? snd p); [reflexivity |].
  rewrite IH. apply Permutation_swap.
Qed.

Lemma sorted_desc_Permutation l : sorted_desc l ≡ₚ l.
Proof.
  induction l as [| p l IH]; cbn; [reflexivity |].
  by rewrite insert_desc_Permutation, IH.
Qed.

Lemma insert_desc_sorted p l :
  StronglySorted by_score_desc l -> StronglySorted by_score_desc (insert_desc p l).
Proof.
  induction 1 as [| q l Hl IH Hq]; cbn.
  - repeat constructor.
  - destruct (Nat.leb_spec (snd q) (snd p)) as [Hle | Hgt].
    + constructor; [by constructor |]. constructor; [exact Hle |].
      eapply Forall_impl; [exact Hq |]. unfold by_score_desc. intros r; lia.
    + constructor; [exact IH |].
      rewrite insert_desc_Permutation. constructor; [| exact Hq].
      unfold by_score_desc. lia.
Qed.

Lemma sorted_desc_sorted l : StronglySorted by_score_desc (sorted_desc l).
Proof.
  induction l as [| p l IH]; cbn; [constructor | by apply insert_desc_sorted].
Qed.

Lemma Forall_sublist_of {A} (P : A -> Prop) (l k : list A) :
  l `sublist_of` k -> Forall P k -> Forall P l.
Proof.
  induction 1 as [| x l k Hs IH | x l k Hs IH]; intros Hk.
  - constructor.
  - inversion Hk; subst. constructor; auto.
  - inversion Hk; subst. auto.
Qed.

Lemma StronglySorted_sublist {A} (rel : A -> A -> Prop) (l k : list A) :
  l `sublist_of` k -> StronglySorted rel k -> StronglySorted rel l.
Proof.
  induction 1 as [| x l k Hs IH | x l k Hs IH]; intros Hk.
  - constructor.
  - inversion Hk as [| ? ? Hk' Hx]; subst. constructor; [by apply IH |].
    eapply Forall_sublist_of; eassumption.
  - inversion Hk; subst. by apply IH.
Qed.

Lemma StronglySorted_app_elem {A} (rel : A -> A -> Prop) (l1 l2 : list A) x y :
  StronglySorted rel (l1 ++ l2) -> x ∈ l1 -> y ∈ l2 -> rel x y.
Proof.
  induction l1 as [| z l1 IH]; cbn; intros Hs Hx Hy.
  - by apply elem_of_nil in Hx.
  - inversion Hs as [| ? ? Hs' Hz]; subst.
    apply elem_of_cons in Hx as [-> | Hx]; [| by apply IH].
    rewrite Forall_forall in Hz. apply Hz. apply elem_of_app. by right.
Qed.

Lemma map_fst_sublist {A B} (l k : list (A * B)) :
  l `sublist_of` k -> map fst l `sublist_of` map fst k.
Proof.
  induction 1; cbn; [constructor | by constructor | by constructor].
Qed.

Section Suggestions.
Context {U : Unicode}.
Implicit Types (self : NavigationService) (message : str) (tags : Tags).

Lemma top_scored_kept self message tags :
  top_scored self message tags = map fst (kept self message tags).
Proof.
  unfold top_scored, kept, route_scores.
  generalize (filter (fun '(_, score) => 0 < score)
                (sorted_desc
                   (map (fun '(route, keywords) =>
                           (route, score_route message tags route keywords))
                      (context_keywords self)))).
  intros l. generalize 3. intros n. revert l.
  induction n as [| n IH]; intros [| p l]; cbn; try reflexivity.
  by rewrite IH.
Qed.

Lemma route_scores_keys self message tags :
  map fst (route_scores self message tags) = map fst (context_keywords self).
Proof.
  unfold route_scores. rewrite map_map. apply map_ext. by intros [r kws].
Qed.

Lemma kept_sublist self message tags :
  kept self message tags `sublist_of` sorted_desc (route_scores self message tags).
Proof.
  unfold kept. etrans; [apply sublist_take | apply sublist_filter].
Qed.

(** X10.  When the configured routes are distinct, as [_extract_keywords]
    leaves them, [suggest_navigations] never suggests a route twice. *)
Theorem suggest_navigations_NoDup self message tags :
  NoDup (map fst (context_keywords self)) ->
  NoDup (suggest_navigations self message tags).
Proof.
  intros Hnd.
  assert (Htop : NoDup (top_scored self message tags)).
  { rewrite top_scored_kept.
    eapply sublist_NoDup; [| apply map_fst_sublist, kept_sublist].
    assert (Hp : map fst (sorted_desc (route_scores self message tags))
                 ≡ₚ map fst (route_scores self message tags)).
    { apply Permutation_map, sorted_desc_Permutation. }
    rewrite Hp, route_scores_keys. exact Hnd. }
  destruct (suggest_navigations_cases self message tags)
    as [[_ ->] | [(_ & _ & ->) | (_ & Hnot & ->)]].
  - apply (bool_decide_eq_true_1 _). reflexivity.
  - exact Htop.
  - apply NoDup_app. split; [exact Htop |]. split; [| apply NoDup_singleton].
    intros x Hx Hx'. apply list_elem_of_singleton in Hx'. subst x.
    apply Hnot. by apply list_elem_of_In.
Qed.

(** X11.  The routes that [suggest_navigations] takes from the scoring are
    at most three entries of [route_scores] with a positive score, listed
    from the highest score down; no entry left out scores more than an
    entry kept; and the answer is these routes, these routes followed by
    "/chatbot", or, when nothing scored, the default list. *)
Theorem suggest_navigations_best self message tags :
  let best := kept self message tags in
  length best <= 3
  /\ StronglySorted by_score_desc best
  /\ Forall (fun p => 0 < snd p /\ p ∈ route_scores self message tags) best
  /\ (forall p, p ∈ route_scores self message tags -> 0 < snd p ->
        p ∈ best \/ (length best = 3 /\ Forall (fun q => snd p <= snd q) best))
  /\ (suggest_navigations self message tags = map fst best
      \/ suggest_navigations self message tags = map fst best ++ [py "/chatbot"]
      \/ (best = []
          /\ suggest_navigations self message tags
             = [py "/chatbot"; py "/podcasts"; py "/community"])).
Proof.
  intros best. subst best.
  set (sorted := sorted_desc (route_scores self message tags)).
  set (positive := filter (fun '(_, score) => 0 < score) sorted).
  assert (Hps : StronglySorted by_score_desc positive).
  { eapply StronglySorted_sublist; [apply sublist_filter |].
    apply sorted_desc_sorted. }
  assert (Hsplit : positive = kept self message tags ++ drop 3 positive).
  { unfold kept. fold sorted. fold positive. by rewrite take_drop. }
  split; [| split; [| split; [| split]]].
  - unfold kept. rewrite length_take. lia.
  - eapply StronglySorted_sublist; [apply sublist_take | exact Hps].
  - apply Forall_forall. intros [r n] Hin.
    assert (Hin' : (r, n) ∈ positive).
    { rewrite Hsplit. apply elem_of_app. by left. }
    apply list_elem_of_filter in Hin' as [Hpos Hin']. split; [exact Hpos |].
    unfold sorted in Hin'. by rewrite sorted_desc_Permutation in Hin'.
  - intros [r n] Hin Hpos.
    assert (Hin' : (r, n) ∈ positive).
    { apply list_elem_of_filter. split; [exact Hpos |].
      unfold sorted. by rewrite sorted_desc_Permutation. }
    rewrite Hsplit in Hin'. apply elem_of_app in Hin' as [Hk | Hd]; [by left |].
    right. split.
    + unfold kept. fold sorted. fold positive. rewrite length_take.
      assert (3 < length positive); [| lia].
      destruct (decide (3 < length positive)) as [? | Hn]; [done |].
      rewrite drop_ge in Hd by lia. by apply elem_of_nil in Hd.
    + apply Forall_forall. intros q Hq.
      rewrite Hsplit in Hps.
      apply (StronglySorted_app_elem _ _ _ q (r, n) Hps Hq Hd).
  - rewrite <- top_scored_kept.
    destruct (suggest_navigations_cases self message tags)
      as [[Hnil ->] | [(_ & _ & ->) | (_ & _ & ->)]]; auto.
    right. right. split; [| reflexivity].
    rewrite top_scored_kept in Hnil. by destruct (kept self message tags).
Qed.

(** X12.  When no context carries a usable route (in particular when the
    configuration could not be loaded and the list of contexts is empty),
    every message and every tags dictionary get the default list. *)
Theorem suggest_navigations_without_routes
    (navigation_contexts : list NavigationContext) message tags :
  Forall (fun context => route context = None \/ route context = Some [])
    navigation_contexts ->
  suggest_navigations (_extract_keywords navigation_contexts) message tags
  = [py "/chatbot"; py "/podcasts"; py "/community"].
Proof.
  intros Hall. rewrite extract_keywords_fold.
  assert (Hfold : forall self,
             fold_left extract_step navigation_contexts self = self).
  { induction Hall as [| context l Hc Hl IH]; intros self; [reflexivity |].
    cbn [fold_left]. rewrite <- (IH self) at 2. f_equal.
    unfold extract_step. by destruct Hc as [-> | ->]. }
  rewrite Hfold. reflexivity.
Qed.

(** X13.  Tags only bear on the six routes that the rules name: for any
    other route the score is the same as without tags, and it is at most
    twice the number of its keywords. *)
Theorem score_route_other_routes message tags (route : str) (keywords : list str) :
  route ∉ named_routes ->
  score_route message tags route keywords
  = score_route message no_tags route keywords
  /\ score_route message tags route keywords <= 2 * length keywords.
Proof.
  intros Hr.
  assert (Hne : forall r, r ∈ named_routes -> PyStr.eqb route r = false).
  { intros r Hin. unfold PyStr.eqb. apply bool_decide_eq_false.
    intros ->. contradiction. }
  assert (Hfold : forall n,
             fold_left (fun score keyword =>
                          if word_search (lower keyword) (lower message)
                          then score + 2 else score) keywords n
             <= n + 2 * length keywords).
  { induction keywords as [| kw kws IH]; intros n; cbn [fold_left length]; [lia |].
    destruct (word_search (lower kw) (lower message)).
    - etrans; [apply IH | lia].
    - etrans; [apply IH | lia]. }
  unfold score_route, in_list. cbn [existsb].
  rewrite !Hne by (unfold named_routes; set_solver).
  cbn [orb andb]. rewrite !andb_false_r. cbn [andb].
  split; [reflexivity | apply (Hfold 0)].
Qed.

End Suggestions.


Lemma extract_keywords_invariant_witness :
  py "/chatbot" ∈ map fst (context_keywords Examples.six_routes).
Proof.
  destruct (extract_keywords_invariant
              [ Examples.context "/podcasts" [py "podcast"; py "listen"];
                Examples.context "/resource-pool" [py "rent"; py "borrow"];
                Examples.context "/community" [py "forum"];
                Examples.context "/search-cooperatives" [py "cooperative"];
                Examples.context "/nearby-cooperatives" [py "nearby"];
                Examples.context "/chatbot" [py "ask"] ])
    as (_ & _ & _ & Hkeys).
  apply (Hkeys (Examples.context "/chatbot" [py "ask"])).
  - apply list_elem_of_In. cbn. auto 10.
  - reflexivity.
Defined.

Lemma suggest_navigations_NoDup_witness :
  NoDup (suggest_navigations (U:=AsciiTables) Examples.six_routes
           Examples.learn_tools_discuss no_tags).
Proof.
  apply suggest_navigations_NoDup.
  apply (bool_decide_eq_true_1 _). reflexivity.
Defined.

Lemma suggest_navigations_best_witness :
  (py "/podcasts", 3)
    ∈ kept (U:=AsciiTables) Examples.six_routes Examples.learn_tools_discuss no_tags
  \/ length (kept (U:=AsciiTables) Examples.six_routes
               Examples.learn_tools_discuss no_tags) = 3.
Proof.
  destruct (suggest_navigations_best (U:=AsciiTables) Examples.six_routes
              Examples.learn_tools_discuss no_tags) as (_ & _ & _ & Hbest & _).
  destruct (Hbest (py "/podcasts", 3)) as [Hin | [Hlen _]].
  - apply (bool_decide_eq_true_1 _). reflexivity.
  - cbn. lia.
  - by left.
  - by right.
Defined.

Lemma suggest_navigations_without_routes_witness :
  suggest_navigations (U:=AsciiTables)
    (_extract_keywords
       [ {| route := None; title := py "Podcasts"; description := [];
            intent_keywords := [py "learn"]; user_needs := [];
            sample_questions := [] |} ])
    (py "I want to learn") no_tags
  = [py "/chatbot"; py "/podcasts"; py "/community"].
Proof.
  apply suggest_navigations_without_routes.
  constructor; [by left | constructor].
Defined.

Lemma score_route_other_routes_witness :
  score_route (U:=AsciiTables) (py "help me find the market")
    {| crops := Some [py "wheat"]; city := Some (Some (py "Pune"));
       topics := None; issues := Some [py "pests"]; seasons := None |}
    (py "/market") [py "market"; py "price"]
  <= 4.
Proof.
  apply (score_route_other_routes (U:=AsciiTables) (py "help me find the market")
           _ (py "/market") [py "market"; py "price"]).
  unfold named_routes. intros Hin.
  apply (bool_decide_eq_true_2 _) in Hin. discriminate Hin.
Defined.

End NavigationMore.

(** ** Navigation suggestions on the tags as they arrive *)

Module NavigationArriving.
Import Navigation NavigationShapes NavigationFacts Examples.

(** *** The two dicts of the service *)





Section Arriving.
Context {U : Unicode}.
Variable number_truthy : str -> bool.
Implicit Types (self : NavigationService) (message : str).

#[local] Abbreviation suggest :=
  (NavigationJson.suggest_navigations number_truthy).
#[local] Abbreviation score :=
  (NavigationJson.score_route number_truthy).
#[local] Abbreviation scores :=
  (NavigationJson.score_routes number_truthy).

Import Claude NavigationJson.










Lemma existsb_strings l (names : list str) :
  existsb (fun topic => in_strings topic names) (map JStr l)
  = existsb (fun topic => in_list topic names) l.
Proof. induction l as [| x l IH]; cbn; [reflexivity | by rewrite IH]. Qed.

Lemma truthy_strings l :
  NavigationJson.truthy number_truthy (strings l) = truthy_list (Some l).
Proof. by destruct l. Qed.

(** On the dict of a typed tag record the score is the one computed from
    the record. *)
Lemma score_typed self message (tags : Tags) route keywords :
  is_Some (dict_lookup route (navigation_by_route self)) ->
  score self message (dict_of_tags tags) route keywords
  = Returned (Navigation.score_route message tags route keywords).
Proof.
  intros [context Hc].
  assert (Hcrops : present_truthy number_truthy (py "crops") (dict_of_tags tags)
                   = truthy_list (crops tags)).
  { destruct tags as [[c |] [ci |] [t |] [i |] [se |]];
      unfold present_truthy; cbn; try reflexivity; apply truthy_strings. }
  assert (Hcrops' : get_truthy number_truthy (py "crops") (dict_of_tags tags)
                    = truthy_list (crops tags)).
  { destruct tags as [[c |] [ci |] [t |] [i |] [se |]];
      unfold get_truthy; cbn; try reflexivity; apply truthy_strings. }
  assert (Hcity : present_truthy number_truthy (py "city") (dict_of_tags tags)
                  = truthy_str (city tags)).
  { destruct tags as [[c |] [[[| x ci] |] |] [t |] [i |] [se |]];
      unfold present_truthy; cbn; reflexivity. }
  assert (Hissues : get_truthy number_truthy (py "issues") (dict_of_tags tags)
                    = truthy_list (issues tags)).
  { destruct tags as [[c |] [ci |] [t |] [i |] [se |]];
      unfold get_truthy; cbn; try reflexivity; apply truthy_strings. }
  assert (Htopics : default (JArr []) (lookup_field (py "topics")
                                         (dict_of_tags tags))
                    = strings (default [] (topics tags))).
  { destruct tags as [[c |] [ci |] [t |] [i |] [se |]]; reflexivity. }
  unfold NavigationJson.score_route, Navigation.score_route.
  rewrite Hc, Hcrops, Hcrops', Hcity, Hissues, Htopics.
  cbn [py_iter strings and_then]. rewrite existsb_strings.
  destruct (PyStr.eqb route (py "/podcasts")); cbn [and_then andb];
    [| reflexivity].
  destruct (contains (py "learn") (lower message)
            || contains (py "information") (lower message)) eqn:Hm;
    cbn [and_then orb]; reflexivity.
Qed.

(** On the dict of a typed tag record the call returns, and what it
    returns is the list computed from the record. *)
Lemma suggest_typed self message (tags : Tags) :
  routes_known self ->
  suggest self message (dict_of_tags tags)
  = Returned (Navigation.suggest_navigations self message tags).
Proof.
  intros Hknown.
  unfold NavigationJson.suggest_navigations, Navigation.suggest_navigations.
  assert (Hs : forall items,
             Forall (fun route =>
                       is_Some (dict_lookup route (navigation_by_route self)))
                    (map fst items) ->
             scores self message (dict_of_tags tags) items
             = Returned
                 (map (fun '(route, keywords) =>
                         (route,
                          Navigation.score_route message tags route keywords))
                      items)).
  { induction items as [| [route keywords] items IH]; intros Hk;
      [reflexivity |].
    cbn [map fst] in Hk. apply Forall_cons in Hk as [Hroute Hk].
    cbn [NavigationJson.score_routes map].
    rewrite (score_typed _ _ _ _ _ Hroute), (IH Hk). reflexivity. }
  rewrite (Hs _ Hknown). cbn [and_then].
  match goal with
  | |- match ?l with [] => _ | _ :: _ => _ end = _ => destruct l
  end; reflexivity.
Qed.



End Arriving.





End NavigationArriving.

(** ** The chat memory beyond the cap *)

Module ChatMore.
Import Chat ChatMachine ChatFacts.

Lemma clear_lookup (mem : ChatMemory) uid other :
  get_chat_history (snd (clear_chat_history mem uid)) other
  = if decide (other = uid) then [] else get_chat_history mem other.
Proof.
  unfold clear_chat_history, get_chat_history.
  destruct (mem !! uid) eqn:E; cbn [snd].
  - destruct (decide (other = uid)) as [-> | Hne].
    + by rewrite lookup_insert_eq.
    + by rewrite lookup_insert_ne by congruence.
  - destruct (decide (other = uid)) as [-> | Hne]; [by rewrite E | reflexivity].
Qed.

(** X15.  [clear_chat_history] answers [True] exactly for a user that has
    an entry in the memory; afterwards that user's history is empty, every
    other user's history is as before, and an unknown user gets no entry.
    The first message stored after a clear is the whole history. *)
Theorem clear_chat_history_resets (mem : ChatMemory) uid :
  (fst (clear_chat_history mem uid) = true <-> is_Some (mem !! uid))
  /\ get_chat_history (snd (clear_chat_history mem uid)) uid = []
  /\ (forall other, other <> uid ->
        snd (clear_chat_history mem uid) !! other = mem !! other)
  /\ (mem !! uid = None -> snd (clear_chat_history mem uid) = mem)
  /\ (forall r msg now,
        get_chat_history
          (_add_to_chat_history (snd (clear_chat_history mem uid)) uid r msg now)
          uid
        = [{| role := r; content := msg; timestamp := now |}]).
Proof.
  split; [| split; [| split; [| split]]].
  - unfold clear_chat_history. destruct (mem !! uid); cbn.
    + split; [intros _; by eexists | reflexivity].
    + split; [discriminate | intros [? ?]; discriminate].
  - rewrite clear_lookup. by rewrite decide_True.
  - intros other Hne. unfold clear_chat_history.
    destruct (mem !! uid); cbn [snd]; [| reflexivity].
    by rewrite lookup_insert_ne by congruence.
  - intros E. unfold clear_chat_history. by rewrite E.
  - intros r msg now. rewrite add_lookup, clear_lookup, decide_True by reflexivity.
    reflexivity.
Qed.

Lemma step_other (mem : ChatMemory) op other :
  other <> op_user op ->
  get_chat_history (chat_step mem op) other = get_chat_history mem other.
Proof.
  intros Hne. destruct op as [uid r msg now | uid]; cbn in *.
  - by apply add_lookup_other.
  - rewrite clear_lookup. by rewrite decide_False.
Qed.

Lemma step_bounded (mem : ChatMemory) op :
  (forall u, length (get_chat_history mem u) <= 10) ->
  forall u, length (get_chat_history (chat_step mem op) u) <= 10.
Proof.
  intros Hmem u. destruct (decide (u = op_user op)) as [-> | Hne].
  - destruct op as [uid r msg now | uid]; cbn.
    + rewrite add_lookup, last10_length. lia.
    + rewrite clear_lookup, decide_True by reflexivity. cbn. lia.
  - rewrite step_other by exact Hne. apply Hmem.
Qed.

(** X16.  Over any sequence of appends and clears, for any mix of users:
    if every history had at most 10 entries at the start, every history has
    at most 10 entries at the end, and the history of a user that no
    operation names is unchanged. *)
Theorem chat_memory_bounded (ops : list ChatOp) (mem : ChatMemory) :
  ((forall u, length (get_chat_history mem u) <= 10) ->
   forall u, length (get_chat_history (chat_run ops mem) u) <= 10)
  /\ (forall u, Forall (fun op => op_user op <> u) ops ->
        get_chat_history (chat_run ops mem) u = get_chat_history mem u).
Proof.
  split.
  - revert mem. induction ops as [| op ops IH]; intros mem Hmem; [exact Hmem |].
    cbn. apply IH. by apply step_bounded.
  - intros u Hall. revert mem.
    induction Hall as [| op ops Hop Hops IH]; intros mem; [reflexivity |].
    cbn. rewrite IH. apply step_other. congruence.
Qed.

Lemma clear_chat_history_resets_witness :
  fst (clear_chat_history
         (_add_to_chat_history ∅ (py "farmer") user (py "q1") [])
         (py "farmer")) = true
  /\ snd (clear_chat_history (∅ : ChatMemory) (py "farmer")) = ∅.
Proof.
  split.
  - apply (clear_chat_history_resets
             (_add_to_chat_history ∅ (py "farmer") user (py "q1") [])
             (py "farmer")).
    by eexists.
  - apply (clear_chat_history_resets ∅ (py "farmer")). reflexivity.
Defined.

Lemma chat_memory_bounded_witness :
  length (get_chat_history
            (chat_run [ OpAppend (py "a") user (py "q1") [];
                        OpAppend (py "b") user (py "q2") [];
                        OpClear (py "a");
                        OpAppend (py "a") assistant (py "a1") [] ] ∅)
            (py "a")) <= 10
  /\ get_chat_history
       (chat_run [ OpAppend (py "a") user (py "q1") []; OpClear (py "a") ] ∅)
       (py "b") = [].
Proof.
  split.
  - apply (chat_memory_bounded _ ∅). intros u.
    unfold get_chat_history. rewrite lookup_empty. cbn. lia.
  - rewrite (proj2 (chat_memory_bounded _ ∅) (py "b")); [reflexivity |].
    repeat constructor; discriminate.
Defined.

End ChatMore.

(** ** The upstream reply beyond its failures *)

Module ClaudeMore.
Import Claude ClaudeFacts ClaudeExamples.

Section Service.
Variable post : Payload -> PostResult.
Variable json_loads : str -> option json.
Variable exn_str : PyExn -> str.
Variable prompt_text : str -> str -> str.

#[local] Abbreviation payload := (request_payload prompt_text).
#[local] Abbreviation respond :=
  (generate_farming_response post json_loads exn_str prompt_text).

Lemma parse_reply_tags reply msg tags :
  parse_reply json_loads reply = Returned (msg, tags) ->
  tags = _default_tags
  \/ exists text fields,
       reply = JStr text
       /\ json_loads text = Some (JObj fields)
       /\ lookup_field (py "message") fields = Some msg
       /\ lookup_field (py "tags") fields = Some tags.
Proof.
  unfold parse_reply. destruct reply as [| | | text | |]; try discriminate.
  destruct (json_loads text) as [[| | | | | fields] |] eqn:Hj;
    try (intros [= <- <-]; by left).
  destruct (lookup_field (py "message") fields) eqn:Hm;
    [| intros [= <- <-]; by left].
  destruct (lookup_field (py "tags") fields) eqn:Ht;
    [| intros [= <- <-]; by left].
  intros [= <- <-]. right. exists text, fields. auto.
Qed.

(** X17.  The tags that [generate_farming_response] returns are never made
    up: they are the default tags, or the response had status 200 and the
    text of the first block of its body parses to an object whose [tags]
    value they are, and then the message is the value of the [message] key
    of that same object. *)
Theorem tags_come_from_the_reply message language navs msg tags :
  respond message language navs = Returned (msg, tags) ->
  tags = _default_tags
  \/ exists response data text fields,
       post (payload message language navs) = PostReturns response
       /\ status_code response = 200%Z
       /\ body response = Some data
       /\ extract_text data = Returned (JStr text)
       /\ json_loads text = Some (JObj fields)
       /\ lookup_field (py "message") fields = Some msg
       /\ lookup_field (py "tags") fields = Some tags.
Proof.
  unfold generate_farming_response, try_body.
  destruct (post _) as [e | response] eqn:Hpost; [intros [= <- <-]; by left |].
  destruct (negb _) eqn:Hstatus; [intros [= <- <-]; by left |].
  destruct (body response) as [data |] eqn:Hbody; [| intros [= <- <-]; by left].
  destruct (extract_text data) as [reply | e] eqn:Htext; cbn [and_then];
    [| intros [= <- <-]; by left].
  destruct (parse_reply json_loads reply) as [[m t] | e] eqn:Hp;
    [| intros [= <- <-]; by left].
  intros [= <- <-].
  destruct (parse_reply_tags _ _ _ Hp)
    as [-> | (text & fields & -> & Hj & Hm & Ht)]; [by left | right].
  exists response, data, text, fields.
  apply negb_false_iff, Z.eqb_eq in Hstatus. auto 10.
Qed.

Lemma extract_text_first_block fields blocks block t :
  lookup_field (py "content") fields = Some (JArr (JObj block :: blocks)) ->
  lookup_field (py "text") block = Some t ->
  extract_text (JObj fields) = Returned t.
Proof.
  intros Hc Ht. unfold extract_text. cbn [py_in and_then].
  rewrite bool_decide_eq_true_2 by (rewrite Hc; eauto).
  cbn [py_getitem_str]. rewrite Hc. cbn [and_then py_len length].
  cbn [Nat.ltb Nat.leb py_getitem_0 and_then py_getitem_str].
  by rewrite Ht.
Qed.

(** X18.  For a response with status 200 whose body is an object with a
    [content] list, the text of the first block decides the answer: when it
    parses to an object with the keys [message] and [tags], exactly these
    two values are returned (later blocks and other keys are ignored). *)
Theorem well_formed_reply_passes_through
    message language navs response fields blocks block text reply msg tags :
  post (payload message language navs) = PostReturns response ->
  status_code response = 200%Z ->
  body response = Some (JObj fields) ->
  lookup_field (py "content") fields = Some (JArr (JObj block :: blocks)) ->
  lookup_field (py "text") block = Some (JStr text) ->
  json_loads text = Some (JObj reply) ->
  lookup_field (py "message") reply = Some msg ->
  lookup_field (py "tags") reply = Some tags ->
  respond message language navs = Returned (msg, tags).
Proof.
  intros Hpost Hstatus Hbody Hc Ht Hj Hm Hg.
  unfold generate_farming_response, try_body.
  rewrite Hpost, Hstatus, Hbody. cbn [Z.eqb Pos.eqb negb].
  rewrite (extract_text_first_block _ _ _ _ Hc Ht). cbn [and_then parse_reply].
  by rewrite Hj, Hm, Hg.
Qed.

(** X19.  A response with status 200 whose body is an object without a
    [content] key, or with an empty [content] list, gives the empty message
    with the default tags (the empty text is not JSON); a body whose first
    block has no [text] key gives the "Error communicating" message with
    the default tags. *)
Theorem reply_without_text message language navs response fields :
  json_loads [] = None ->
  post (payload message language navs) = PostReturns response ->
  status_code response = 200%Z ->
  body response = Some (JObj fields) ->
  ((lookup_field (py "content") fields = None
    \/ lookup_field (py "content") fields = Some (JArr [])) ->
   respond message language navs = Returned (JStr [], _default_tags))
  /\ (forall block blocks,
        lookup_field (py "content") fields = Some (JArr (JObj block :: blocks)) ->
        lookup_field (py "text") block = None ->
        respond message language navs
        = Returned (JStr (py "Error communicating with Claude API: "
                          ++ exn_str (KeyError (py "text"))),
                    _default_tags)).
Proof.
  intros Hempty Hpost Hstatus Hbody.
  unfold generate_farming_response, try_body.
  rewrite Hpost, Hstatus, Hbody. cbn [Z.eqb Pos.eqb negb].
  unfold extract_text. cbn [py_in and_then]. split.
  - intros [Hc | Hc]; rewrite Hc.
    + rewrite bool_decide_eq_false_2 by (by intros [? ?]).
      cbn [and_then parse_reply]. by rewrite Hempty.
    + rewrite bool_decide_eq_true_2 by eauto.
      cbn [py_getitem_str]. rewrite Hc. cbn. by rewrite Hempty.
  - intros block blocks Hc Ht. rewrite Hc.
    rewrite bool_decide_eq_true_2 by eauto.
    cbn [py_getitem_str]. rewrite Hc. cbn [and_then py_len length].
    cbn [Nat.ltb Nat.leb py_getitem_0 and_then py_getitem_str].
    by rewrite Ht.
Qed.

(** X20.  The request depends on the navigation catalogue only through its
    first ten entries, and a language code outside the table of language
    names gets the same request as "en". *)
Theorem request_uses_ten_entries message language navs :
  payload message language navs = payload message language (take 10 navs)
  /\ (dict_get language language_names = None ->
      payload message language navs = payload message (py "en") navs).
Proof.
  unfold request_payload, _create_system_prompt. split.
  - by rewrite take_take.
  - intros ->. reflexivity.
Qed.

End Service.

Lemma tags_come_from_the_reply_witness :
  JObj [(py "crops", JArr [JStr (py "wheat")])] = _default_tags
  \/ exists response data text fields,
       shaped_post (request_payload Examples.no_prompt
                      (py "when to sow wheat") (py "en") [])
       = PostReturns response
       /\ status_code response = 200%Z
       /\ body response = Some data
       /\ extract_text data = Returned (JStr text)
       /\ shaped_loads text = Some (JObj fields)
       /\ lookup_field (py "message") fields = Some (JStr (py "Sow in November."))
       /\ lookup_field (py "tags") fields
          = Some (JObj [(py "crops", JArr [JStr (py "wheat")])]).
Proof.
  apply (tags_come_from_the_reply shaped_post shaped_loads
           Examples.show_exn Examples.no_prompt
           (py "when to sow wheat") (py "en") []).
  reflexivity.
Defined.

Lemma well_formed_reply_passes_through_witness :
  generate_farming_response shaped_post shaped_loads Examples.show_exn
    Examples.no_prompt (py "when to sow wheat") (py "en") []
  = Returned (JStr (py "Sow in November."),
              JObj [(py "crops", JArr [JStr (py "wheat")])]).
Proof.
  apply (well_formed_reply_passes_through shaped_post shaped_loads
           Examples.show_exn Examples.no_prompt _ _ _
           {| status_code := 200;
              body := Some (JObj [(py "content",
                                   JArr [JObj [(py "type", JStr (py "text"));
                                               (py "text", JStr shaped_text)]])]) |}
           [(py "content",
             JArr [JObj [(py "type", JStr (py "text"));
                         (py "text", JStr shaped_text)]])]
           [] [(py "type", JStr (py "text")); (py "text", JStr shaped_text)]
           shaped_text shaped_reply);
    reflexivity.
Defined.

Lemma reply_without_text_witness :
  generate_farming_response no_content_post shaped_loads Examples.show_exn
    Examples.no_prompt (py "when to sow wheat") (py "en") []
  = Returned (JStr [], _default_tags).
Proof.
  apply (reply_without_text no_content_post shaped_loads Examples.show_exn
           Examples.no_prompt _ _ _
           {| status_code := 200;
              body := Some (JObj [(py "id", JStr (py "msg_1"))]) |}
           [(py "id", JStr (py "msg_1"))]);
    try reflexivity.
  by left.
Defined.

Lemma request_uses_ten_entries_witness :
  request_payload Examples.no_prompt (py "hello") (py "fr") []
  = request_payload Examples.no_prompt (py "hello") (py "en") [].
Proof.
  apply (request_uses_ten_entries Examples.no_prompt). reflexivity.
Defined.

End ClaudeMore.

(** ** The retrieval service *)

Module RagServiceFacts.
Import Rag RagService SearchFacts.

Section Service.
Context {F : Type} {SF : Scalar F}.
Variable encode : str -> list F.
(** The encoder returns [dimension = 384] numbers. *)
Hypothesis encode_dimension :
  forall text, Z.of_nat (length (encode text)) = default_dimension.

Lemma add_all_encoded (docs : list (str * Metadata)) :
  forall db : VectorDatabase F Metadata,
    dimension db = default_dimension ->
    fold_left (add_encoded encode) docs (Ok db)
    = Ok {| vectors := vectors db ++ map (fun doc => encode (fst doc)) docs;
            metadata := metadata db ++ map snd docs;
            dimension := default_dimension |}.
Proof using encode_dimension.
  induction docs as [| doc docs IH]; intros db Hdim.
  - cbn. rewrite !app_nil_r. destruct db. cbn in *. by subst.
  - cbn [fold_left add_encoded bind].
    rewrite (RagFacts.add_document_match db (encode (fst doc)) (snd doc))
      by (by rewrite encode_dimension).
    cbn [bind]. rewrite IH by exact Hdim. cbn [vectors metadata map].
    by rewrite <- !app_assoc.
Qed.

Lemma initialize_store (app_context : AppContext) :
  _initialize_vector_db encode app_context
  = Ok {| vectors := map (fun doc => encode (fst doc)) (documents app_context);
          metadata := map snd (documents app_context);
          dimension := default_dimension |}.
Proof using encode_dimension.
  unfold _initialize_vector_db. by rewrite add_all_encoded.
Qed.

Lemma documents_length (app_context : AppContext) :
  length (documents app_context)
  = length (navigation_contexts app_context)
    + match meta app_context with
      | None => 0
      | Some m => 1 + length (key_features m)
      end.
Proof.
  unfold documents. rewrite length_app, length_map.
  destruct (meta app_context); cbn [length]; rewrite ?length_map; reflexivity.
Qed.

(** X21.  With an encoder that returns 384 numbers, building the service
    never fails: every document is accepted, and the store holds, in this
    order, one document per navigation context, then (when the context has
    a [meta] block) one for the application and one per key feature; ids
    are the positions in that order and every vector has length 384.  The
    text encoded for a context prints a missing title or description as
    the empty string and a null one as "None". *)
Theorem initialize_vector_db_succeeds (app_context : AppContext) :
  exists db,
    _initialize_vector_db encode app_context = Ok db
    /\ metadata db = map snd (documents app_context)
    /\ vectors db = map (fun doc => encode (fst doc)) (documents app_context)
    /\ length (vectors db)
       = length (navigation_contexts app_context)
         + match meta app_context with
           | None => 0
           | Some m => 1 + length (key_features m)
           end
    /\ dimension db = default_dimension
    /\ well_formed db.
Proof using encode_dimension.
  eexists. split; [apply initialize_store |]. cbn [vectors metadata dimension].
  repeat split.
  - by rewrite length_map, documents_length.
  - unfold uniform. cbn. apply Forall_forall. intros v Hv.
    apply list_elem_of_In, in_map_iff in Hv as (doc & <- & _).
    apply encode_dimension.
  - cbn. by rewrite !length_map.
Qed.

Lemma retrieval_returns (app_context : AppContext) db query top_k :
  _initialize_vector_db encode app_context = Ok db ->
  exists items,
    get_relevant_context encode db query top_k = Ok items
    /\ Forall (fun item => item ∈ map snd (documents app_context)) items
    /\ ((0 < top_k)%Z ->
        length items = min (Z.to_nat top_k) (length (documents app_context))).
Proof using encode_dimension.
  rewrite initialize_store. intros [= <-].
  unfold get_relevant_context.
  destruct (documents app_context) as [| doc docs] eqn:Hdocs.
  - exists []. cbn. repeat split; [constructor | lia].
  - rewrite <- Hdocs.
    edestruct (search_returns
                 {| vectors := map (fun doc => encode (fst doc)) (documents app_context);
                    metadata := map snd (documents app_context);
                    dimension := default_dimension |}
                 (encode query) top_k) as (rs & Hrs & Hmap & Hmeta).
    + cbn. by rewrite Hdocs.
    + cbn. apply Forall_forall. intros v Hv.
      apply list_elem_of_In, in_map_iff in Hv as (d & <- & _).
      pose proof (encode_dimension (fst d)). pose proof (encode_dimension query).
      lia.
    + cbn. by rewrite !length_map.
    + rewrite Hrs. cbn [bind]. eexists. split; [reflexivity |]. split.
      * apply Forall_forall. intros item Hin.
        apply list_elem_of_In, in_map_iff in Hin as ([[idx sim] m] & <- & Hin).
        rewrite Forall_forall in Hmeta.
        apply list_elem_of_In, Hmeta in Hin. cbn in Hin.
        by apply list_elem_of_lookup_2 in Hin.
      * intros Hk. rewrite length_map.
        apply (f_equal length) in Hmap.
        rewrite length_map, length_rev, slice_from_length, sort_length,
          length_combine, length_seq, !length_map, Nat.min_id in Hmap.
        cbn [vectors] in Hmap. rewrite length_map in Hmap.
        destruct (Z.ltb_spec (- top_k) 0); lia.
Qed.

(** X22.  On the store of the service, [get_relevant_context] never
    raises; every item it returns is the metadata of a stored document, and
    for [top_k >= 1] it returns [min(top_k, n)] items, [n] being the number
    of stored documents (none for an empty configuration). *)
Theorem get_relevant_context_count (app_context : AppContext) db query top_k :
  _initialize_vector_db encode app_context = Ok db ->
  (0 < top_k)%Z ->
  exists items,
    get_relevant_context encode db query top_k = Ok items
    /\ length items = min (Z.to_nat top_k) (length (documents app_context))
    /\ Forall (fun item => item ∈ map snd (documents app_context)) items.
Proof using encode_dimension.
  intros Hinit Hk.
  destruct (retrieval_returns app_context db query top_k Hinit)
    as (items & Hitems & Hin & Hlen).
  exists items. auto.
Qed.

(** X23.  [enhance_query_with_context] never raises and only ever appends
    to the query: the result starts with the query, and it is the query
    itself when the configuration has no navigation contexts. *)
Theorem enhance_query_keeps_query (app_context : AppContext) db query :
  _initialize_vector_db encode app_context = Ok db ->
  exists enhanced,
    enhance_query_with_context encode db query = Ok enhanced
    /\ query `prefix_of` enhanced
    /\ (navigation_contexts app_context = [] -> enhanced = query).
Proof using encode_dimension.
  intros Hinit.
  destruct (retrieval_returns app_context db query 3 Hinit)
    as (items & Hitems & Hin & _).
  unfold enhance_query_with_context. rewrite Hitems. cbn [bind].
  destruct (relevant_routes items) as [| r rs] eqn:Hr.
  - exists query. repeat split; reflexivity.
  - eexists. split; [reflexivity |]. split; [by eexists |].
    intros Hnav. exfalso.
    assert (Hnone : relevant_routes items = []); [| congruence].
    unfold relevant_routes. clear Hr Hitems.
    induction Hin as [| item items Hitem _ IH]; [reflexivity |].
    assert (Hplain : forall r t d, item <> NavigationMeta r t d).
    { intros r0 t d ->.
      unfold documents in Hitem. rewrite Hnav in Hitem. cbn in Hitem.
      destruct (meta app_context) as [m |]; cbn in Hitem.
      - apply elem_of_cons in Hitem as [Hitem | Hitem]; [discriminate |].
        apply list_elem_of_In, in_map_iff in Hitem as ([t' md] & Hmd & Hitem).
        apply in_map_iff in Hitem as (f & [= <- <-] & _). discriminate.
      - by apply elem_of_nil in Hitem. }
    destruct item as [r0 t d | c | c]; [by destruct (Hplain r0 t d) | |];
      exact IH.
Qed.

End Service.

(** A null description is encoded as the text "None", and stored as
    [None]. *)
Example documents_null_description :
  documents RagServiceExamples.one_route !! 0
  = Some (py "Tools. None. Sample questions: Where can I rent a tractor?",
          NavigationMeta (Some (py "/tools")) (Some (py "Tools")) None).
Proof. reflexivity. Qed.

Lemma flat_encoder_dimension text :
  Z.of_nat (length (RagServiceExamples.flat_encoder text)) = default_dimension.
Proof. reflexivity. Qed.

Lemma initialize_vector_db_succeeds_witness :
  exists db,
    _initialize_vector_db RagServiceExamples.flat_encoder
      RagServiceExamples.one_route = Ok db
    /\ length (vectors db) = 4
    /\ well_formed db.
Proof.
  destruct (initialize_vector_db_succeeds RagServiceExamples.flat_encoder
              flat_encoder_dimension RagServiceExamples.one_route)
    as (db & Hinit & _ & _ & Hlen & _ & Hwf).
  exists db. split; [exact Hinit |]. split; [exact Hlen | exact Hwf].
Defined.

Lemma get_relevant_context_count_witness :
  exists db items,
    _initialize_vector_db RagServiceExamples.flat_encoder
      RagServiceExamples.one_route = Ok db
    /\ get_relevant_context (SF:=FloatScalar) RagServiceExamples.flat_encoder
         db (py "tractor") 3 = Ok items
    /\ length items = 3.
Proof.
  pose proof (initialize_store RagServiceExamples.flat_encoder
                flat_encoder_dimension RagServiceExamples.one_route) as Hinit.
  destruct (get_relevant_context_count (SF:=FloatScalar)
              RagServiceExamples.flat_encoder flat_encoder_dimension
              RagServiceExamples.one_route _ (py "tractor") 3 Hinit eq_refl)
    as (items & Hitems & Hlen & _).
  eexists _, items. split; [exact Hinit |]. split; [exact Hitems | exact Hlen].
Defined.

Lemma enhance_query_keeps_query_witness :
  exists db,
    _initialize_vector_db RagServiceExamples.flat_encoder
      RagServiceExamples.meta_only = Ok db
    /\ enhance_query_with_context (SF:=FloatScalar)
         RagServiceExamples.flat_encoder db (py "tractor")
       = Ok (py "tractor").
Proof.
  pose proof (initialize_store RagServiceExamples.flat_encoder
                flat_encoder_dimension RagServiceExamples.meta_only) as Hinit.
  destruct (enhance_query_keeps_query (SF:=FloatScalar)
              RagServiceExamples.flat_encoder flat_encoder_dimension
              RagServiceExamples.meta_only _ (py "tractor") Hinit)
    as (enhanced & Henh & _ & Hsame).
  eexists. split; [exact Hinit |]. rewrite Henh. f_equal. by apply Hsame.
Defined.

End RagServiceFacts.

(** ** Extraction of a JSON object from free text *)

Module HelpersFacts.
Import Language Claude Helpers LanguageFacts.

Lemma run_length_any (s : str) : run_length cls_any s = length s.
Proof. induction s as [| c s IH]; cbn; [reflexivity | by rewrite IH]. Qed.

Lemma try_lengths_none {A} (s : str) (k : str -> option A) least n :
  (forall i, i <= n -> k (drop i s) = None) -> try_lengths s k least n = None.
Proof.
  induction n as [| n IH]; intros Hk; cbn.
  - by rewrite (Hk 0) by lia.
  - rewrite (Hk (S n)) by lia. destruct (least <=? n); [| reflexivity].
    apply IH. intros i Hi. apply Hk. lia.
Qed.

Lemma try_lengths_skip {A} (s : str) (k : str -> option A) least n m a :
  least <= m -> m <= n ->
  (forall i, m < i -> i <= n -> k (drop i s) = None) ->
  k (drop m s) = Some a ->
  try_lengths s k least n = Some a.
Proof.
  intros Hleast Hmn. induction n as [| n IH]; intros Hk Hm.
  - replace m with 0 in Hm by lia. cbn. by rewrite Hm.
  - destruct (decide (m = S n)) as [-> | Hne].
    + by apply try_lengths_first.
    + cbn. rewrite (Hk (S n)) by lia.
      destruct (Nat.leb_spec least n) as [_ | Hgt]; [| lia].
      apply IH; [lia | | exact Hm]. intros i Hi Hin. apply Hk; lia.
Qed.

(** No closing brace in [s]: after dropping any number of characters the
    next one is not a closing brace. *)
Lemma no_close_drop (s : str) i :
  forallb (fun c => negb (cls_close c)) s = true ->
  match drop i s with
  | c :: _ => cls_close c = false
  | [] => True
  end.
Proof.
  revert i. induction s as [| c s IH]; intros [| i] H; cbn in *; try done.
  - apply andb_true_iff in H as [Hc _]. by apply negb_true_iff.
  - apply andb_true_iff in H as [_ H]. by apply IH.
Qed.

Lemma search_needs_open (s : str) :
  match s with c :: _ => cls_open c = false | [] => True end ->
  search_at_start json_pattern s = None.
Proof.
  unfold search_at_start, json_pattern. cbn [rmatch].
  destruct s as [| c s]; [reflexivity |]. by intros ->.
Qed.

Lemma search_unclosed (rest : str) :
  forallb (fun c => negb (cls_close c)) rest = true ->
  search_at_start json_pattern (123%N :: rest) = None.
Proof.
  intros Hrest. unfold search_at_start, json_pattern. cbn [rmatch].
  change (cls_open 123) with true. cbv iota.
  apply try_lengths_none. intros i _.
  pose proof (no_close_drop rest i Hrest) as Hd.
  destruct (drop i rest) as [| c r]; [reflexivity |]. by rewrite Hd.
Qed.

Lemma search_closed (mid post : str) :
  forallb (fun c => negb (cls_close c)) post = true ->
  search_at_start json_pattern (123%N :: mid ++ 125%N :: post)
  = Some ([123%N :: mid ++ [125%N]], post).
Proof.
  intros Hpost. unfold search_at_start, json_pattern. cbn [rmatch].
  change (cls_open 123) with true. cbv iota.
  rewrite run_length_any.
  apply (try_lengths_skip _ _ 0 _ (length mid)).
  - lia.
  - rewrite length_app. lia.
  - intros i Hi _.
    replace i with (length mid + S (i - length mid - 1)) by lia.
    rewrite <- drop_drop, drop_app_length. cbn [drop].
    pose proof (no_close_drop post (i - length mid - 1) Hpost) as Hd.
    destruct (drop _ post) as [| c r]; [reflexivity |]. by rewrite Hd.
  - rewrite drop_app_length. change (cls_close 125) with true. cbv iota.
    cbn [app]. do 2 f_equal.
    cbn [length]. rewrite length_app. cbn [length].
    replace (S (length mid + S (length post)) - length post)
      with (length (123%N :: mid ++ [125%N]))
      by (cbn [length]; rewrite length_app; cbn [length]; lia).
    change (123%N :: mid ++ 125%N :: post)
      with ((123%N :: mid) ++ 125%N :: post).
    replace ((123%N :: mid) ++ 125%N :: post)
      with ((123%N :: mid ++ [125%N]) ++ post)
      by (cbn; by rewrite <- app_assoc).
    by rewrite take_app_length.
Qed.

Lemma findall_unclosed fuel (s : str) :
  forallb (fun c => negb (cls_close c)) s = true ->
  findall_from fuel json_pattern s = [].
Proof.
  revert s. induction fuel as [| fuel IH]; intros s Hs; [reflexivity |].
  cbn [findall_from].
  assert (Hnone : search_at_start json_pattern s = None).
  { destruct s as [| c s]; [by apply search_needs_open |].
    destruct (cls_open c) eqn:Hc; [| by apply search_needs_open].
    apply N.eqb_eq in Hc. subst c. cbn in Hs. by apply search_unclosed. }
  rewrite Hnone. destruct s as [| c s]; [reflexivity |].
  cbn in Hs. apply andb_true_iff in Hs as [_ Hs]. by apply IH.
Qed.

Lemma findall_skip (pre s : str) fuel :
  forallb (fun c => negb (cls_open c)) pre = true ->
  findall_from (length pre + fuel) json_pattern (pre ++ s)
  = findall_from fuel json_pattern s.
Proof.
  induction pre as [| c pre IH]; intros Hpre; [reflexivity |].
  cbn in Hpre. apply andb_true_iff in Hpre as [Hc Hpre].
  apply negb_true_iff in Hc.
  cbn [length plus app findall_from].
  rewrite search_needs_open by exact Hc. by apply IH.
Qed.

Section Service.
Variable json_loads : str -> option json.

(** X24.  [extract_json_from_text] looks at one candidate only, the text
    from the first opening brace to the last closing brace: it returns what
    that candidate parses to, and the empty dict when the candidate does
    not parse, when no closing brace follows the first opening brace, or
    when the text has no opening brace at all. *)
Theorem extract_json_from_text_candidate :
  (forall pre mid post : str,
      forallb (fun c => negb (cls_open c)) pre = true ->
      forallb (fun c => negb (cls_close c)) post = true ->
      extract_json_from_text json_loads (pre ++ 123%N :: mid ++ 125%N :: post)
      = default (JObj []) (json_loads (123%N :: mid ++ [125%N])))
  /\ (forall pre rest : str,
      forallb (fun c => negb (cls_open c)) pre = true ->
      forallb (fun c => negb (cls_close c)) rest = true ->
      extract_json_from_text json_loads (pre ++ 123%N :: rest) = JObj [])
  /\ (forall text : str,
      forallb (fun c => negb (cls_open c)) text = true ->
      extract_json_from_text json_loads text = JObj []).
Proof.
  split; [| split].
  - intros pre mid post Hpre Hpost. unfold extract_json_from_text, findall.
    rewrite length_app.
    replace (S (length pre + length (123%N :: mid ++ 125%N :: post)))
      with (length pre + S (length (123%N :: mid ++ 125%N :: post))) by lia.
    rewrite findall_skip by exact Hpre.
    cbn [findall_from]. rewrite search_closed by exact Hpost.
    rewrite findall_unclosed by exact Hpost.
    cbn [lookup list_lookup default from_option first_parsed].
    unfold Datatypes.id. by destruct (json_loads _).
  - intros pre rest Hpre Hrest. unfold extract_json_from_text, findall.
    rewrite length_app.
    replace (S (length pre + length (123%N :: rest)))
      with (length pre + S (length (123%N :: rest))) by lia.
    rewrite findall_skip by exact Hpre.
    cbn [findall_from]. rewrite search_unclosed by exact Hrest.
    by rewrite findall_unclosed by exact Hrest.
  - intros text Htext. unfold extract_json_from_text, findall.
    replace (S (length text)) with (length text + 1) by lia.
    rewrite <- (app_nil_r text) at 2.
    rewrite findall_skip by exact Htext. reflexivity.
Qed.

End Service.

Lemma extract_json_from_text_candidate_witness :
  extract_json_from_text
    (fun text => if PyStr.eqb text (py "{x}") then Some (JObj [(py "x", JNull)])
                 else None)
    (py "Here you go: {x} Thanks")
  = JObj [(py "x", JNull)]
  /\ extract_json_from_text (fun _ => Some JNull) (py "no braces here") = JObj [].
Proof.
  split.
  - exact (proj1 (extract_json_from_text_candidate
                    (fun text => if PyStr.eqb text (py "{x}")
                                 then Some (JObj [(py "x", JNull)]) else None))
             (py "Here you go: ") (py "x") (py " Thanks") eq_refl eq_refl).
  - exact (proj2 (proj2 (extract_json_from_text_candidate (fun _ => Some JNull)))
             (py "no braces here") eq_refl).
Defined.

End HelpersFacts.

(** ** Insertions in sequence, and what a search hands back *)

Module SearchMore.
Import Rag RagBatch SearchFacts.

Section Batch.
Context {F : Type} {Meta : Type}.
Implicit Types (db : VectorDatabase F Meta) (docs : list (list F * Meta)).

Lemma fits_add db v m doc :
  fits (snd (add_document db v m)) doc = fits db doc.
Proof.
  unfold fits, add_document. by destruct (negb _).
Qed.

(** X25.  Over any sequence of insertions into one store, the accepted
    documents are exactly those of the configured length, they are stored
    in their order after what the store held, and their ids are the
    consecutive numbers from the old record count on: a rejected insertion
    leaves no gap. *)
Theorem add_documents_sequence docs : forall db,
  let '(results, db') := add_documents db docs in
  vectors db' = vectors db ++ map fst (List.filter (fits db) docs)
  /\ metadata db' = metadata db ++ map snd (List.filter (fits db) docs)
  /\ dimension db' = dimension db
  /\ ids_of results
     = seq (length (vectors db)) (length (List.filter (fits db) docs))
  /\ length results = length docs.
Proof.
  induction docs as [| [v m] docs IH]; intros db.
  - cbn. rewrite !app_nil_r. auto.
  - cbn [add_documents].
    destruct (add_document db v m) as [result db1] eqn:Hadd.
    specialize (IH db1).
    destruct (add_documents db1 docs) as [results db2].
    destruct IH as (Hv & Hm & Hd & Hids & Hlen).
    assert (Hfits : List.filter (fits db1) docs = List.filter (fits db) docs).
    { apply filter_ext. intros doc.
      replace db1 with (snd (add_document db v m)) by (by rewrite Hadd).
      apply fits_add. }
    rewrite Hfits in *. clear Hfits. cbn [List.filter].
    unfold add_document in Hadd.
    destruct (fits db (v, m)) eqn:Hfit; unfold fits in Hfit; cbn [fst] in Hfit;
      rewrite Hfit in Hadd; cbn [negb] in Hadd;
      injection Hadd as <- <-; cbn [vectors metadata dimension] in *.
    + rewrite Hv, Hm, Hd. cbn [map fst snd length seq].
      change (ids_of (Ok (length (vectors db)) :: results))
        with (length (vectors db) :: ids_of results).
      rewrite Hids, length_app. cbn [length].
      rewrite Nat.add_1_r, <- !app_assoc. cbn.
      repeat split; congruence.
    + change (ids_of (Raise (ValueError_dimension (dimension db) (length v))
                      :: results))
        with (ids_of results).
      cbn. repeat split; congruence.
Qed.

End Batch.

Section Results.
Context {F : Type} {SF : Scalar F} {Meta : Type}.
Implicit Types (db : VectorDatabase F Meta) (q : list F).

Lemma insert_idx_Permutation (sorted : list (nat * F)) p :
  insert_idx sorted p ≡ₚ p :: sorted.
Proof.
  induction sorted as [| b sorted IH]; cbn; [reflexivity |].
  destruct (f_leb (snd p) (snd b)); [reflexivity |].
  rewrite IH. apply Permutation_swap.
Qed.

Lemma sort_Permutation (l : list (nat * F)) :
  fold_right (fun a acc => insert_idx acc a) [] l ≡ₚ l.
Proof.
  induction l as [| a l IH]; cbn [fold_right]; [reflexivity |].
  by rewrite insert_idx_Permutation, IH.
Qed.

Lemma combine_seq_fst (values : list F) start :
  map fst (combine (seq start (length values)) values)
  = seq start (length values).
Proof.
  revert start. induction values as [| x values IH]; intros start; cbn;
    [reflexivity | by rewrite IH].
Qed.

(** X26.  On a non-empty store whose vectors have the query's length and
    that holds one metadata entry per vector, every triple that [search]
    returns describes one stored record: its id is a position in the
    store, its similarity is the similarity of the query with the vector
    at that position, its metadata is the entry at that position; and no
    record is returned twice. *)
Theorem search_results_are_records db q k :
  vectors db <> [] ->
  Forall (fun r => length r = length q) (vectors db) ->
  length (metadata db) = length (vectors db) ->
  exists results,
    search db q k = Ok results
    /\ Forall (fun '(idx, s, m) =>
                 exists v, vectors db !! idx = Some v
                           /\ s = similarity q v
                           /\ metadata db !! idx = Some m) results
    /\ NoDup (map (fun '(idx, _, _) => idx) results).
Proof.
  intros Hne Hall Hmeta.
  destruct (search_returns db q k Hne Hall Hmeta) as (rs & Hrs & Hmap & Hm).
  exists rs. split; [exact Hrs |].
  set (sims := map (similarity q) (vectors db)) in *.
  set (sorted := fold_right (fun a acc => insert_idx acc a) []
                   (combine (seq 0 (length (vectors db))) sims)) in *.
  assert (Hsl : length sims = length (vectors db)) by apply length_map.
  assert (Hlook : Forall (fun p => sims !! fst p = Some (snd p)) sorted).
  { subst sorted. rewrite <- Hsl. apply sorted_pairs_lookup. }
  assert (Hpairs : Forall (fun p => sims !! fst p = Some (snd p))
                     (map (fun '(idx, s, _) => (idx, s)) rs)).
  { rewrite Hmap. apply Forall_rev. by apply slice_from_Forall. }
  split.
  - clear Hmap Hrs. induction rs as [| [[idx s] m] rs IH]; [constructor |].
    cbn [map] in Hpairs. apply Forall_cons in Hpairs as [Hp Hpairs].
    apply Forall_cons in Hm as [Hmd Hm].
    constructor; [| by apply IH].
    cbn in Hp. unfold sims in Hp. rewrite list_lookup_fmap in Hp.
    destruct (vectors db !! idx) as [v |] eqn:Hv; [| discriminate].
    cbn in Hp. injection Hp as <-. exists v. auto.
  - replace (map (fun '(idx, _, _) => idx) rs)
      with (map fst (map (fun '(idx, s, _) => (idx, s)) rs)).
    + rewrite Hmap, map_rev. apply NoDup_ListNoDup, List.NoDup_rev.
      apply NoDup_ListNoDup.
      unfold slice_from. rewrite <- skipn_map.
      eapply sublist_NoDup; [| apply sublist_drop].
      assert (Hp : map fst sorted
                   ≡ₚ map fst (combine (seq 0 (length (vectors db))) sims)).
      { apply Permutation_map. subst sorted. apply sort_Permutation. }
      rewrite Hp, <- Hsl, combine_seq_fst. apply NoDup_seq.
    + rewrite map_map. apply map_ext. by intros [[? ?] ?].
Qed.

End Results.

Lemma add_documents_sequence_witness :
  ids_of (fst (add_documents (init (Meta:=unit) 2)
                 [ ([1%float; 0%float], tt); ([1%float], tt);
                   ([0%float; 1%float], tt) ]))
  = [0; 1].
Proof.
  pose proof (add_documents_sequence
                [ ([1%float; 0%float], tt); ([1%float], tt);
                  ([0%float; 1%float], tt) ] (init (Meta:=unit) 2)) as H.
  destruct (add_documents _ _) as [results db'].
  destruct H as (_ & _ & _ & Hids & _). exact Hids.
Defined.

Lemma search_results_are_records_witness :
  exists results,
    search (SF:=FloatScalar) Examples.two_documents [1%float; 0%float] 2
    = Ok results
    /\ NoDup (map (fun '(idx, _, _) => idx) results).
Proof.
  destruct (search_results_are_records (SF:=FloatScalar) Examples.two_documents
              [1%float; 0%float] 2) as (rs & Hrs & _ & Hnd).
  - discriminate.
  - repeat constructor.
  - reflexivity.
  - exists rs. split; assumption.
Defined.

End SearchMore.

(** ** The reply of the model inside the chat handler of main.py *)

Module MainChatFacts.
Import Claude Navigation MainChat.

Lemma eqb_refl (key : str) : PyStr.eqb key key = true.
Proof. unfold PyStr.eqb. by apply bool_decide_eq_true_2. Qed.

Lemma eqb_neq (k key : str) : k <> key -> PyStr.eqb k key = false.
Proof. intros H. unfold PyStr.eqb. by apply bool_decide_eq_false_2. Qed.

Lemma lookup_dict_set_same key v d :
  lookup_field key (dict_set key v d) = Some v.
Proof.
  induction d as [| [k v'] d IH]; cbn.
  - by rewrite eqb_refl.
  - destruct (PyStr.eqb k key) eqn:Hk; cbn.
    + by rewrite eqb_refl.
    + by rewrite Hk.
Qed.

Lemma lookup_dict_set_other key key' v d :
  key' <> key ->
  lookup_field key' (dict_set key v d) = lookup_field key' d.
Proof.
  intros Hne. induction d as [| [k v'] d IH]; cbn.
  - by rewrite eqb_neq.
  - destruct (PyStr.eqb k key) eqn:Hk; cbn.
    + apply bool_decide_eq_true_1 in Hk. subst k.
      by rewrite !(eqb_neq key key').
    + by rewrite IH.
Qed.

Lemma ensure_list_sets tags key : listed (ensure_list tags key) key.
Proof.
  unfold ensure_list, listed.
  destruct (lookup_field key tags) as [v |] eqn:Hl.
  - destruct v; try (eexists; split; [exact Hl | discriminate]).
    rewrite lookup_dict_set_same. eexists. split; [reflexivity | discriminate].
  - rewrite lookup_dict_set_same. eexists. split; [reflexivity | discriminate].
Qed.

Lemma ensure_list_other tags key key' :
  key' <> key ->
  lookup_field key' (ensure_list tags key) = lookup_field key' tags.
Proof.
  intros Hne. unfold ensure_list.
  destruct (lookup_field key tags) as [[] |];
    first [reflexivity | by apply lookup_dict_set_other].
Qed.

Lemma ensure_list_value tags key key' v :
  lookup_field key' tags = Some v -> v <> JNull ->
  lookup_field key' (ensure_list tags key) = Some v.
Proof.
  intros Hl Hv. destruct (decide (key' = key)) as [-> | Hne].
  - unfold ensure_list. rewrite Hl. by destruct v.
  - by rewrite ensure_list_other.
Qed.

Lemma ensure_list_keeps tags key key' :
  listed tags key' -> listed (ensure_list tags key) key'.
Proof.
  intros (v & Hl & Hv). exists v. split; [by apply ensure_list_value | exact Hv].
Qed.

Lemma fold_keeps keys : forall tags key,
  listed tags key -> listed (fold_left ensure_list keys tags) key.
Proof.
  induction keys as [| k keys IH]; intros tags key H; cbn; [exact H |].
  by apply IH, ensure_list_keeps.
Qed.

Lemma fold_sets keys : forall tags,
  Forall (listed (fold_left ensure_list keys tags)) keys.
Proof.
  induction keys as [| k keys IH]; intros tags; cbn; constructor.
  - apply fold_keeps, ensure_list_sets.
  - apply IH.
Qed.

Lemma fold_value keys : forall tags key v,
  lookup_field key tags = Some v -> v <> JNull ->
  lookup_field key (fold_left ensure_list keys tags) = Some v.
Proof.
  induction keys as [| k keys IH]; intros tags key v Hl Hv; cbn; [exact Hl |].
  apply IH; [by apply ensure_list_value | exact Hv].
Qed.

Lemma fold_other keys : forall tags key,
  key ∉ keys ->
  lookup_field key (fold_left ensure_list keys tags) = lookup_field key tags.
Proof.
  induction keys as [| k keys IH]; intros tags key Hnot; cbn; [reflexivity |].
  apply not_elem_of_cons in Hnot as [Hne Hnot].
  rewrite IH by exact Hnot. by apply ensure_list_other.
Qed.

Lemma empty_tags_listed : Forall (listed empty_tags) list_keys.
Proof.
  repeat constructor; (eexists; split; [reflexivity | discriminate]).
Qed.

Lemma find_None c s : c ∉ s -> find c s = None.
Proof.
  induction s as [| x s IH]; intros Hnot; cbn; [reflexivity |].
  apply not_elem_of_cons in Hnot as [Hne Hnot].
  destruct (N.eqb_spec x c); [congruence |]. by rewrite IH.
Qed.

Lemma find_first c pre rest :
  c ∉ pre -> find c (pre ++ c :: rest) = Some (length pre).
Proof.
  induction pre as [| x pre IH]; intros Hnot; cbn.
  - by rewrite N.eqb_refl.
  - apply not_elem_of_cons in Hnot as [Hne Hnot].
    destruct (N.eqb_spec x c); [congruence |]. by rewrite IH.
Qed.

Lemma rfind_None c s : c ∉ s -> rfind c s = None.
Proof.
  induction s as [| x s IH]; intros Hnot; cbn; [reflexivity |].
  apply not_elem_of_cons in Hnot as [Hne Hnot].
  rewrite IH by exact Hnot. destruct (N.eqb_spec x c); [congruence | reflexivity].
Qed.

Lemma rfind_last c l post :
  c ∉ post -> rfind c (l ++ c :: post) = Some (length l).
Proof.
  intros Hnot. induction l as [| x l IH]; cbn.
  - by rewrite rfind_None, N.eqb_refl.
  - by rewrite IH.
Qed.

Lemma rfind_before c l post :
  c ∉ post -> rfind c (l ++ post) = rfind c l.
Proof.
  intros Hnot. induction l as [| x l IH]; cbn.
  - by apply rfind_None.
  - by rewrite IH.
Qed.

Lemma rfind_bound c s i : rfind c s = Some i -> i < length s.
Proof.
  revert i. induction s as [| x s IH]; intros i; cbn; [discriminate |].
  destruct (rfind c s) as [j |].
  - intros [= <-]. specialize (IH j eq_refl). lia.
  - destruct (x =? c)%N; [intros [= <-]; lia | discriminate].
Qed.

Lemma slice_span pre mid post :
  slice (pre ++ open_brace :: mid ++ close_brace :: post)
        (Z.of_nat (length pre))
        (Z.of_nat (length (pre ++ open_brace :: mid)) + 1)
  = open_brace :: mid ++ [close_brace].
Proof.
  unfold slice. rewrite Nat2Z.id, drop_app_length.
  rewrite length_app. cbn [length].
  replace (Z.to_nat (Z.of_nat (length pre + S (length mid)) + 1) - length pre)
    with (S (length mid + 1)) by lia.
  cbn [take]. f_equal.
  replace (mid ++ close_brace :: post) with ((mid ++ [close_brace]) ++ post)
    by (by rewrite <- app_assoc).
  rewrite take_app_length'; [reflexivity |].
  rewrite length_app. cbn. lia.
Qed.

Section Service.
Variable json_loads : str -> option json.

#[local] Abbreviation parse := (parse_response_text json_loads).

Lemma parse_span pre mid post :
  open_brace ∉ pre -> close_brace ∉ post ->
  parse (pre ++ open_brace :: mid ++ close_brace :: post)
  = let response_text := pre ++ open_brace :: mid ++ close_brace :: post in
    match json_loads (open_brace :: mid ++ [close_brace]) with
    | None => Answer (JStr response_text) empty_tags
    | Some (JObj parsed_response) =>
        match default (JObj []) (lookup_field (py "tags") parsed_response) with
        | JObj tags =>
            Answer (default (JStr response_text)
                            (lookup_field (py "message") parsed_response))
                   (fold_left ensure_list list_keys tags)
        | _ => Fails TagsTypeError
        end
    | Some _ => Fails AttributeError
    end.
Proof.
  intros Hopen Hclose. unfold parse_response_text.
  rewrite (find_first _ _ _ Hopen).
  assert (Hlast : rfind close_brace
                    (pre ++ open_brace :: mid ++ close_brace :: post)
                  = Some (length (pre ++ open_brace :: mid))).
  { rewrite <- (rfind_last close_brace (pre ++ open_brace :: mid) post Hclose).
    by rewrite <- app_assoc. }
  rewrite Hlast. cbn [index].
  replace (0 <=? Z.of_nat (length pre))%Z with true
    by (symmetry; apply Z.leb_le; lia).
  replace (Z.of_nat (length pre)
           <? Z.of_nat (length (pre ++ open_brace :: mid)) + 1)%Z with true
    by (symmetry; apply Z.ltb_lt; rewrite length_app; lia).
  cbn [andb]. by rewrite slice_span.
Qed.

(** X27.  Whenever the block returns tags, each of the keys [crops],
    [topics], [issues] and [seasons] is present in them with a value other
    than [None]. *)
Theorem chat_tags_normalised response_text message tags :
  parse response_text = Answer message tags ->
  Forall (fun key => exists v, lookup_field key tags = Some v /\ v <> JNull)
         list_keys.
Proof.
  unfold parse_response_text.
  destruct (_ && _); [| intros [= <- <-]; apply empty_tags_listed].
  destruct (json_loads _) as [[| | | | | parsed_response] |]; try discriminate;
    [| intros [= <- <-]; apply empty_tags_listed].
  destruct (default _ _) as [| | | | | reply_tags]; try discriminate.
  intros [= <- <-]. exact (fold_sets list_keys reply_tags).
Qed.

(** X28.  The text handed to [json.loads] runs from the first opening
    brace to the last closing brace of the reply.  When it parses to an
    object, the message is the value of its [message] key (the whole reply
    when there is none); of its [tags] object every value other than [None]
    and every key outside the four list keys (such as [city]) is returned
    unchanged; and a reply without a [tags] key gets the four list keys
    with empty lists and no [city] key. *)
Theorem chat_reply_span pre mid post fields :
  open_brace ∉ pre -> close_brace ∉ post ->
  json_loads (open_brace :: mid ++ [close_brace]) = Some (JObj fields) ->
  let response_text := pre ++ open_brace :: mid ++ close_brace :: post in
  let message :=
    default (JStr response_text) (lookup_field (py "message") fields) in
  (forall reply_tags,
     lookup_field (py "tags") fields = Some (JObj reply_tags) ->
     exists tags,
       parse response_text = Answer message tags
       /\ (forall key v, lookup_field key reply_tags = Some v -> v <> JNull ->
                         lookup_field key tags = Some v)
       /\ (forall key, key ∉ list_keys ->
                       lookup_field key tags = lookup_field key reply_tags))
  /\ (lookup_field (py "tags") fields = None ->
      parse response_text
      = Answer message [ (py "crops", JArr []); (py "topics", JArr []);
                         (py "issues", JArr []); (py "seasons", JArr []) ]).
Proof.
  intros Hopen Hclose Hloads response_text message.
  subst response_text message. rewrite (parse_span _ _ _ Hopen Hclose).
  cbv zeta. rewrite Hloads. split.
  - intros reply_tags Htags. rewrite Htags. cbn [default].
    eexists. split; [reflexivity |]. split.
    + intros key v. apply fold_value.
    + intros key. apply fold_other.
  - intros Htags. rewrite Htags. reflexivity.
Qed.

(** X29.  A reply without an opening brace, a reply with no closing brace
    after its first opening brace, and a reply whose span from the first
    opening to the last closing brace is not JSON are returned whole as the
    message, with the empty tags; a [JSONDecodeError] never leaves the
    block. *)
Theorem chat_reply_fallback response_text :
  (open_brace ∉ response_text ->
   parse response_text = Answer (JStr response_text) empty_tags)
  /\ (forall pre rest,
        response_text = pre ++ open_brace :: rest ->
        open_brace ∉ pre -> close_brace ∉ rest ->
        parse response_text = Answer (JStr response_text) empty_tags)
  /\ (forall pre mid post,
        response_text = pre ++ open_brace :: mid ++ close_brace :: post ->
        open_brace ∉ pre -> close_brace ∉ post ->
        json_loads (open_brace :: mid ++ [close_brace]) = None ->
        parse response_text = Answer (JStr response_text) empty_tags).
Proof.
  split; [| split].
  - intros Hnot. unfold parse_response_text. by rewrite find_None.
  - intros pre rest -> Hopen Hclose. unfold parse_response_text.
    rewrite (find_first _ _ _ Hopen).
    rewrite (rfind_before close_brace pre (open_brace :: rest)).
    + cbn [index]. destruct (rfind close_brace pre) as [i |] eqn:Hi.
      * apply rfind_bound in Hi. cbn [index].
        replace (Z.of_nat (length pre) <? Z.of_nat i + 1)%Z with false
          by (symmetry; apply Z.ltb_ge; lia).
        by rewrite andb_false_r.
      * cbn [index].
        replace (Z.of_nat (length pre) <? -1 + 1)%Z with false
          by (symmetry; apply Z.ltb_ge; lia).
        by rewrite andb_false_r.
    + apply not_elem_of_cons. split; [discriminate | exact Hclose].
  - intros pre mid post -> Hopen Hclose Hloads.
    rewrite (parse_span _ _ _ Hopen Hclose). cbv zeta. by rewrite Hloads.
Qed.

End Service.

Lemma chat_tags_normalised_witness :
  Forall (fun key => exists v,
            lookup_field key [ (py "crops", JArr []); (py "topics", JArr []);
                               (py "issues", JArr []); (py "seasons", JArr []) ]
            = Some v /\ v <> JNull)
         list_keys.
Proof.
  apply (chat_tags_normalised (fun _ => Some (JObj [])) (py "{}")
           (JStr (py "{}"))).
  reflexivity.
Defined.

Lemma chat_reply_span_witness :
  parse_response_text ClaudeExamples.shaped_loads
    (py "Sure: " ++ open_brace :: py "message and tags" ++ close_brace :: py " Bye")
  = Answer (JStr (py "Sow in November."))
           [ (py "crops", JArr [JStr (py "wheat")]); (py "topics", JArr []);
             (py "issues", JArr []); (py "seasons", JArr []) ].
Proof.
  destruct (chat_reply_span ClaudeExamples.shaped_loads
              (py "Sure: ") (py "message and tags") (py " Bye")
              ClaudeExamples.shaped_reply) as [Htags _].
  - apply (bool_decide_eq_true_1 _). reflexivity.
  - apply (bool_decide_eq_true_1 _). reflexivity.
  - reflexivity.
  - destruct (Htags [(py "crops", JArr [JStr (py "wheat")])] eq_refl)
      as (tags & Hparse & _ & _).
    rewrite Hparse. f_equal. injection Hparse as <-. reflexivity.
Defined.

Lemma chat_reply_fallback_witness :
  parse_response_text (fun _ => None) (py "Water early.")
  = Answer (JStr (py "Water early.")) empty_tags
  /\ parse_response_text (fun _ => None) (py "} then {")
     = Answer (JStr (py "} then {")) empty_tags
  /\ parse_response_text (fun _ => None) (py "see {this}")
     = Answer (JStr (py "see {this}")) empty_tags.
Proof.
  split; [| split].
  - apply (proj1 (chat_reply_fallback (fun _ => None) (py "Water early."))).
    apply (bool_decide_eq_true_1 _). reflexivity.
  - apply (proj1 (proj2 (chat_reply_fallback (fun _ => None) (py "} then {")))
             (py "} then ") []);
      [reflexivity | apply (bool_decide_eq_true_1 _); reflexivity
       | apply (bool_decide_eq_true_1 _); reflexivity].
  - apply (proj2 (proj2 (chat_reply_fallback (fun _ => None) (py "see {this}")))
             (py "see ") (py "this") []);
      [reflexivity | apply (bool_decide_eq_true_1 _); reflexivity
       | apply (bool_decide_eq_true_1 _); reflexivity | reflexivity].
Defined.

End MainChatFacts.

(** ** Search for every sort that NumPy may use *)

Module SearchOrder.
Import Rag Numpy SearchFacts.

Section Generic.
Context {F : Type} {SF : Scalar F} {Meta : Type}.
Implicit Types (db : VectorDatabase F Meta) (q r : list F).
Variable sort : list F -> list nat.


Lemma search_with_argsort db q k : search_with argsort db q k = search db q k.
Proof. reflexivity. Qed.

Lemma search_with_rectangular db q k :
  vectors db <> [] ->
  Forall (fun r => length r = length q) (vectors db) ->
  search_with sort db q k
  = let similarities := map (similarity q) (vectors db) in
    for_each
      (fun idx =>
         match similarities !! idx, metadata db !! idx with
         | Some s, Some m => Ok (idx, s, m)
         | _, _ => Raise IndexError
         end)
      (rev (slice_from (- k) (sort similarities))).
Proof.
  intros Hne Hall. unfold search_with.
  destruct (vectors db) as [| row rows] eqn:Hv; [done |].
  assert (Hrow : length row = length q) by (by inversion Hall).
  assert (Hb : forallb (fun r => length r =? length row) (row :: rows) = true).
  { apply forallb_forall. intros r Hr. apply Nat.eqb_eq.
    rewrite Forall_forall in Hall. rewrite Hrow. apply Hall.
    by apply list_elem_of_In. }
  rewrite Hb. cbn [negb].
  rewrite (proj2 (Nat.eqb_eq _ _) Hrow). cbn [negb].
  rewrite similarities_map. reflexivity.
Qed.

Lemma is_argsort_bound indices (values : list F) i :
  is_argsort indices values -> i ∈ indices -> i < length values.
Proof.
  intros [Hperm _] Hi. rewrite Hperm in Hi.
  apply elem_of_seq in Hi. lia.
Qed.

(** On a store with one metadata entry per vector, all vectors of the
    query's length, the search returns, and every triple is read off the
    sorted indices. *)
Lemma search_with_returns db q k :
  vectors db <> [] ->
  Forall (fun r => length r = length q) (vectors db) ->
  length (metadata db) = length (vectors db) ->
  is_argsort (sort (map (similarity q) (vectors db)))
             (map (similarity q) (vectors db)) ->
  exists results,
    search_with sort db q k = Ok results
    /\ map (fun '(idx, _, _) => idx) results
       = rev (slice_from (- k) (sort (map (similarity q) (vectors db))))
    /\ Forall (fun '(idx, s, m) =>
                 map (similarity q) (vectors db) !! idx = Some s
                 /\ metadata db !! idx = Some m) results.
Proof.
  intros Hne Hall Hmeta Hsort.
  rewrite search_with_rectangular by assumption. cbv zeta.
  set (sims := map (similarity q) (vectors db)) in *.
  assert (Hsl : length sims = length (vectors db)) by apply length_map.
  assert (Hgen : forall idxs : list nat,
             Forall (fun i => i < length sims) idxs ->
             exists results,
               for_each
                 (fun idx =>
                    match sims !! idx, metadata db !! idx with
                    | Some s, Some m => Ok (idx, s, m)
                    | _, _ => Raise IndexError
                    end) idxs = Ok results
               /\ map (fun '(idx, _, _) => idx) results = idxs
               /\ Forall (fun '(idx, s, m) =>
                            sims !! idx = Some s /\ metadata db !! idx = Some m)
                         results).
  { induction 1 as [| i idxs Hi Hidxs IH].
    - exists []. cbn. auto.
    - destruct IH as (rs & Hrs & Hmap & Hms).
      destruct (lookup_lt_is_Some_2 sims i Hi) as [s Hs].
      destruct (lookup_lt_is_Some_2 (metadata db) i) as [m Hm]; [lia |].
      exists ((i, s, m) :: rs). cbn. rewrite Hs, Hm. cbn.
      fold (for_each (A:=nat) (B:=nat * F * Meta)). rewrite Hrs. cbn.
      rewrite Hmap. auto. }
  apply Hgen. apply Forall_rev, slice_from_Forall.
  apply Forall_forall. intros i Hi. by eapply is_argsort_bound.
Qed.

Lemma StronglySorted_map {A B} (f : A -> B) (rel : B -> B -> Prop) (l : list A) :
  StronglySorted (fun x y => rel (f x) (f y)) l ->
  StronglySorted rel (map f l).
Proof.
  induction 1 as [| x l Hl IH Hx]; cbn; constructor; [exact IH |].
  apply Forall_forall. intros y Hy.
  apply list_elem_of_In, in_map_iff in Hy as (z & <- & Hz).
  rewrite Forall_forall in Hx. apply Hx. by apply list_elem_of_In.
Qed.

Lemma StronglySorted_weaken {A} (rel rel' : A -> A -> Prop) (l : list A) :
  (forall x y, rel x y -> rel' x y) ->
  StronglySorted rel l -> StronglySorted rel' l.
Proof.
  intros Himp. induction 1 as [| x l Hl IH Hx]; constructor; [exact IH |].
  eapply Forall_impl; [exact Hx |]. apply Himp.
Qed.

(** X2.  On a non-empty store whose vectors have the query's length and
    that holds one metadata entry per vector, for every [top_k] and every
    result that [np.argsort] may give, the similarities of the triples
    that [search] returns descend in NumPy's sort order: each is [>=] the
    ones after it, a NaN counting as the largest value (so a NaN
    similarity comes first). *)
Theorem search_with_descending db q k :
  vectors db <> [] ->
  Forall (fun r => length r = length q) (vectors db) ->
  length (metadata db) = length (vectors db) ->
  is_argsort (sort (map (similarity q) (vectors db)))
             (map (similarity q) (vectors db)) ->
  exists results,
    search_with sort db q k = Ok results
    /\ StronglySorted (fun s1 s2 => np_leb s2 s1 = true)
         (map (fun '(_, s, _) => s) results).
Proof.
  intros Hne Hall Hmeta Hsort.
  destruct (search_with_returns db q k Hne Hall Hmeta Hsort)
    as (rs & Hrs & Hidx & Hlook).
  exists rs. split; [exact Hrs |].
  set (sims := map (similarity q) (vectors db)) in *.
  set (sim_of := fun i : nat => default f_zero (sims !! i)).
  replace (map (fun '(_, s, _) => s) rs)
    with (map sim_of (map (fun '(idx, _, _) => idx) rs)).
  - rewrite Hidx. apply StronglySorted_map, StronglySorted_rev.
    unfold slice_from. apply StronglySorted_drop.
    eapply StronglySorted_weaken; [| exact (proj2 Hsort)].
    intros i j (x & y & Hx & Hy & Hle). cbn. unfold sim_of.
    by rewrite Hx, Hy.
  - rewrite map_map. apply Forall_fmap_ext_1.
    eapply Forall_impl; [exact Hlook |].
    intros [[idx s] m] [Hs _]. unfold sim_of. by rewrite Hs.
Qed.


End Generic.

(** *** Exact arithmetic *)

Section Real.
Context {Meta : Type}.
Implicit Types (db : VectorDatabase R Meta) (v : list R).
Local Open Scope R_scope.




End Real.


(** The sort of the model on the similarities of the two parallel
    vectors, in binary64. *)
Lemma parallel_argsort :
  is_argsort (SF:=FloatScalar)
    (argsort (SF:=FloatScalar)
       (map (similarity (SF:=FloatScalar) [1%float; 3%float])
            (vectors parallel_store ++ [[1%float; 3%float]])))
    (map (similarity (SF:=FloatScalar) [1%float; 3%float])
         (vectors parallel_store ++ [[1%float; 3%float]])).
Proof.
  assert (Hs : map (similarity (SF:=FloatScalar) [1%float; 3%float])
                 (vectors parallel_store ++ [[1%float; 3%float]])
               = [0x1.fffffffffffffp-1%float; 0x1.ffffffffffffep-1%float])
    by (vm_compute; reflexivity).
  rewrite Hs.
  assert (Ha : argsort (SF:=FloatScalar)
                 [0x1.fffffffffffffp-1%float; 0x1.ffffffffffffep-1%float]
               = [1; 0]) by (vm_compute; reflexivity).
  rewrite Ha. split.
  - apply perm_swap.
  - repeat constructor.
    eexists _, _. split; [reflexivity |]. split; reflexivity.
Qed.




Lemma search_with_descending_witness :
  exists results,
    search_with (SF:=FloatScalar) (argsort (SF:=FloatScalar))
      (snd (add_document parallel_store [1%float; 3%float] (py "newer")))
      [1%float; 3%float] 2
    = Ok results
    /\ StronglySorted (fun s1 s2 => np_leb (SF:=FloatScalar) s2 s1 = true)
         (map (fun '(_, s, _) => s) results).
Proof.
  apply (search_with_descending (SF:=FloatScalar) (argsort (SF:=FloatScalar))
           (snd (add_document parallel_store [1%float; 3%float] (py "newer")))
           [1%float; 3%float] 2).
  - discriminate.
  - repeat constructor.
  - reflexivity.
  - exact parallel_argsort.
Defined.

End SearchOrder.
